(** * LocalTuya vacuum platform: status decoder, geometry transform and
      command dispatcher of [custom_components/localtuya/vacuum.py]

    The development is a shallow embedding of [LocaltuyaVacuum].  Python
    objects are values of [pyval]; a Python exception is the [Raise] case of
    [result]; the entity's attributes are a record that every method
    threads explicitly; datapoint writes are collected in a log. *)

From Stdlib Require Import ZArith String Ascii List Bool Lia.
From Stdlib Require Import Floats.SpecFloat.
From stdpp Require Import base option list gmap strings pretty.
From Stdlib Require Reals Lra.

Local Open Scope string_scope.
Local Open Scope Z_scope.

(** ** Exceptions and results *)

(** The exception classes that the modelled code can raise.  [except]
    clauses match by class, see [position_except]. *)
Inductive exn :=
| KeyError
| IndexError
| TypeError
| ValueError
| AttributeError
| ZeroDivisionError
| OverflowError
| UnicodeDecodeError   (* a ValueError, not a JSONDecodeError *)
| JSONDecodeError      (* json.JSONDecodeError *)
| BinasciiError.       (* binascii.Error *)

Inductive result (A : Type) :=
| Ok (a : A)
| Raise (e : exn).
Arguments Ok {A} a.
Arguments Raise {A} e.

#[global] Instance result_ret : MRet result := fun A a => Ok a.
#[global] Instance result_bind : MBind result := fun A B f r =>
  match r with
  | Ok a => f a
  | Raise e => Raise e
  end.

#[global] Instance result_fmap : FMap result := fun A B f r =>
  match r with
  | Ok a => Ok (f a)
  | Raise e => Raise e
  end.

#[global] Instance exn_eq_dec : EqDecision exn.
Proof. solve_decision. Defined.

(** ** Python floats: IEEE 754 binary64, as [spec_float] *)

Module F64.

Definition prec : Z := 53.
Definition emax : Z := 1024.

Definition opp : spec_float -> spec_float := SFopp.
Definition add : spec_float -> spec_float -> spec_float := SFadd prec emax.
Definition sub : spec_float -> spec_float -> spec_float := SFsub prec emax.
Definition mul : spec_float -> spec_float -> spec_float := SFmul prec emax.
Definition div : spec_float -> spec_float -> spec_float := SFdiv prec emax.
Definition eqb : spec_float -> spec_float -> bool := SFeqb.

Definition is_zero (f : spec_float) : bool :=
  match f with
  | S754_zero _ => true
  | _ => false
  end.

(** The double nearest to the integer [z] (ties to even); an infinity when
    [z] is out of range. *)
Definition of_Z (z : Z) : spec_float := binary_normalize prec emax z 0 false.

(** The double nearest to the quotient [a / b] of two integers, [b <> 0]
    (ties to even); the sign of a zero quotient is the sign of [b]. *)
Definition of_ratio (a b : Z) : spec_float :=
  let s := xorb (a <? 0) (b <? 0) in
  match Z.abs a with
  | Z0 => S754_zero s
  | ma =>
      let '(mz, ez, lz) := SFdiv_core_binary prec emax ma 0 (Z.abs b) 0 in
      binary_round_aux prec emax s mz ez lz
  end.

(** [m * 10^e], correctly rounded: the value of a decimal literal. *)
Definition of_decimal (m e : Z) : spec_float :=
  if 0 <=? e then of_Z (m * 10 ^ e) else of_ratio m (10 ^ (- e)).

(** Nearest integer to [m / 2^k], ties to even ([m >= 0]). *)
Definition round_half_even_shift (m : Z) (k : Z) : Z :=
  let q := Z.shiftr m k in
  let r := m - Z.shiftl q k in
  let h := Z.shiftl 1 (k - 1) in
  if r <? h then q
  else if h <? r then q + 1
  else if Z.even q then q else q + 1.

(** The integer nearest to a finite float, ties to even. *)
Definition round_finite (s : bool) (m : positive) (e : Z) : Z :=
  let a := if 0 <=? e then Z.shiftl (Zpos m) e
           else round_half_even_shift (Zpos m) (- e) in
  if s then - a else a.

(** Exact comparison of a float with an integer. *)
Definition eqb_Z (f : spec_float) (z : Z) : bool :=
  match f with
  | S754_zero _ => z =? 0
  | S754_finite s m e =>
      let a := if s then Z.neg m else Z.pos m in
      if 0 <=? e then Z.shiftl a e =? z
      else a =? Z.shiftl z (- e)
  | _ => false
  end.

End F64.

(** ** Python values *)

Set Warnings "-register-all".

(** The objects that reach this module: datapoint values, decoded JSON,
    service-call parameters and the entries of the attribute dictionary.
    A [str] is held as its UTF-8 encoding; a [dict] has string keys and
    keeps insertion order. *)
Inductive pyval :=
| PNone
| PBool (b : bool)
| PInt (z : Z)
| PFloat (f : spec_float)
| PStr (s : string)
| PList (l : list pyval)
| PDict (d : list (string * pyval)).

(** Numbers: [bool] is a subclass of [int]. *)
Inductive num :=
| NInt (z : Z)
| NFloat (f : spec_float).

Definition as_int (v : pyval) : option Z :=
  match v with
  | PBool b => Some (if b then 1 else 0)
  | PInt z => Some z
  | _ => None
  end.

Definition as_num (v : pyval) : option num :=
  match v with
  | PBool b => Some (NInt (if b then 1 else 0))
  | PInt z => Some (NInt z)
  | PFloat f => Some (NFloat f)
  | _ => None
  end.

(** Conversion of an operand to a C double in mixed arithmetic. *)
Definition to_float (n : num) : result spec_float :=
  match n with
  | NFloat f => Ok f
  | NInt z =>
      match F64.of_Z z with
      | S754_infinity _ => Raise OverflowError
      | f => Ok f
      end
  end.

Definition num_neg (a : num) : pyval :=
  match a with
  | NInt x => PInt (- x)
  | NFloat f => PFloat (F64.opp f)
  end.

Definition num_add (a b : num) : result pyval :=
  match a, b with
  | NInt x, NInt y => Ok (PInt (x + y))
  | _, _ => fa ← to_float a; fb ← to_float b; Ok (PFloat (F64.add fa fb))
  end.

Definition num_sub (a b : num) : result pyval :=
  match a, b with
  | NInt x, NInt y => Ok (PInt (x - y))
  | _, _ => fa ← to_float a; fb ← to_float b; Ok (PFloat (F64.sub fa fb))
  end.

Definition num_mul (a b : num) : result pyval :=
  match a, b with
  | NInt x, NInt y => Ok (PInt (x * y))
  | _, _ => fa ← to_float a; fb ← to_float b; Ok (PFloat (F64.mul fa fb))
  end.

(** True division [a / b]. *)
Definition num_truediv (a b : num) : result pyval :=
  match a, b with
  | NInt x, NInt y =>
      if y =? 0 then Raise ZeroDivisionError
      else match F64.of_ratio x y with
           | S754_infinity _ => Raise OverflowError
           | f => Ok (PFloat f)
           end
  | _, _ =>
      fa ← to_float a; fb ← to_float b;
      if F64.is_zero fb then Raise ZeroDivisionError
      else Ok (PFloat (F64.div fa fb))
  end.

(** [round(x)] with one argument: an [int]. *)
Definition num_round (a : num) : result Z :=
  match a with
  | NInt x => Ok x
  | NFloat (S754_zero _) => Ok 0
  | NFloat (S754_finite s m e) => Ok (F64.round_finite s m e)
  | NFloat (S754_infinity _) => Raise OverflowError
  | NFloat S754_nan => Raise ValueError
  end.

Definition num_eqb (a b : num) : bool :=
  match a, b with
  | NInt x, NInt y => x =? y
  | NFloat f, NFloat g => F64.eqb f g
  | NFloat f, NInt y => F64.eqb_Z f y
  | NInt x, NFloat g => F64.eqb_Z g x
  end.

(** *** Sequences *)

Definition is_cont (c : ascii) : bool :=
  let n := Z.of_N (N_of_ascii c) in (128 <=? n) && (n <? 192).

Definition starts_cont (s : string) : bool :=
  match s with
  | String c _ => is_cont c
  | EmptyString => false
  end.

(** The characters (code points) of a [str], each as a one-character
    [str]: a continuation byte belongs to the character before it. *)
Fixpoint utf8_chars (s : string) : list string :=
  match s with
  | EmptyString => []
  | String c r =>
      match utf8_chars r with
      | g :: gs =>
          if starts_cont r then String c g :: gs
          else String c EmptyString :: g :: gs
      | [] => [String c EmptyString]
      end
  end.

Fixpoint str_repeat (s : string) (n : nat) : string :=
  match n with
  | O => EmptyString
  | S n' => String.append s (str_repeat s n')
  end.

Fixpoint list_repeat {A} (l : list A) (n : nat) : list A :=
  match n with
  | O => []
  | S n' => l ++ list_repeat l n'
  end.

Fixpoint assoc_get {A} (k : string) (d : list (string * A)) : option A :=
  match d with
  | [] => None
  | (k', v) :: r => if String.eqb k k' then Some v else assoc_get k r
  end.

(** [d[k] = v] on an insertion-ordered [dict]. *)
Fixpoint assoc_set {A} (k : string) (v : A) (d : list (string * A)) : list (string * A) :=
  match d with
  | [] => [(k, v)]
  | (k', v') :: r =>
      if String.eqb k k' then (k', v) :: r else (k', v') :: assoc_set k v r
  end.

(** *** Operators *)

(** [a == b]. *)
Fixpoint py_eqb (a b : pyval) {struct a} : bool :=
  match a, b with
  | PNone, PNone => true
  | PBool x, _ =>
      match as_num b with
      | Some n => num_eqb (NInt (if x then 1 else 0)) n
      | None => false
      end
  | PInt x, _ =>
      match as_num b with
      | Some n => num_eqb (NInt x) n
      | None => false
      end
  | PFloat f, _ =>
      match as_num b with
      | Some n => num_eqb (NFloat f) n
      | None => false
      end
  | PStr s, PStr t => String.eqb s t
  | PList l, PList m =>
      (fix go (l m : list pyval) {struct l} : bool :=
         match l, m with
         | [], [] => true
         | x :: l', y :: m' => py_eqb x y && go l' m'
         | _, _ => false
         end) l m
  | PDict d, PDict d' =>
      (length d =? length d')%nat &&
      (fix go (d : list (string * pyval)) : bool :=
         match d with
         | [] => true
         | (k, v) :: r =>
             match assoc_get k d' with
             | Some v' => py_eqb v v'
             | None => false
             end && go r
         end) d
  | _, _ => false
  end.

(** [-a]. *)
Definition py_neg (a : pyval) : result pyval :=
  match as_num a with
  | Some x => Ok (num_neg x)
  | None => Raise TypeError
  end.

(** [a + b]. *)
Definition py_add (a b : pyval) : result pyval :=
  match as_num a, as_num b with
  | Some x, Some y => num_add x y
  | _, _ =>
      match a, b with
      | PStr s, PStr t => Ok (PStr (String.append s t))
      | PList l, PList m => Ok (PList (l ++ m))
      | _, _ => Raise TypeError
      end
  end.

(** [a - b]. *)
Definition py_sub (a b : pyval) : result pyval :=
  match as_num a, as_num b with
  | Some x, Some y => num_sub x y
  | _, _ => Raise TypeError
  end.

(** [a * b]: product of numbers, or repetition of a sequence. *)
Definition py_mul (a b : pyval) : result pyval :=
  match as_num a, as_num b with
  | Some x, Some y => num_mul x y
  | _, _ =>
      match a, as_int b, as_int a, b with
      | PStr s, Some n, _, _ => Ok (PStr (str_repeat s (Z.to_nat n)))
      | PList l, Some n, _, _ => Ok (PList (list_repeat l (Z.to_nat n)))
      | _, _, Some n, PStr s => Ok (PStr (str_repeat s (Z.to_nat n)))
      | _, _, Some n, PList l => Ok (PList (list_repeat l (Z.to_nat n)))
      | _, _, _, _ => Raise TypeError
      end
  end.

(** [a / b]. *)
Definition py_truediv (a b : pyval) : result pyval :=
  match as_num a, as_num b with
  | Some x, Some y => num_truediv x y
  | _, _ => Raise TypeError
  end.

(** [round(a)]. *)
Definition py_round (a : pyval) : result pyval :=
  match as_num a with
  | Some x => PInt <$> num_round x
  | None => Raise TypeError
  end.

(** [len(a)]. *)
Definition py_len (a : pyval) : result Z :=
  match a with
  | PStr s => Ok (Z.of_nat (length (utf8_chars s)))
  | PList l => Ok (Z.of_nat (length l))
  | PDict d => Ok (Z.of_nat (length d))
  | _ => Raise TypeError
  end.

Definition seq_index {A} (l : list A) (i : Z) : result A :=
  let n := Z.of_nat (length l) in
  let j := if i <? 0 then i + n else i in
  if (j <? 0) || (n <=? j) then Raise IndexError
  else match l !! Z.to_nat j with
       | Some x => Ok x
       | None => Raise IndexError
       end.

(** [a[i]] for an integer [i].  The keys of a [dict] are strings, so an
    integer subscript is never among them. *)
Definition py_getitem (a : pyval) (i : Z) : result pyval :=
  match a with
  | PStr s => PStr <$> seq_index (utf8_chars s) i
  | PList l => seq_index l i
  | PDict _ => Raise KeyError
  | _ => Raise TypeError
  end.

(** [list(iter(a))]. *)
Definition py_iter (a : pyval) : result (list pyval) :=
  match a with
  | PStr s => Ok (PStr <$> utf8_chars s)
  | PList l => Ok l
  | PDict d => Ok ((fun kv => PStr (fst kv)) <$> d)
  | _ => Raise TypeError
  end.

(** [x, y = a]. *)
Definition py_unpack2 (a : pyval) : result (pyval * pyval) :=
  l ← py_iter a;
  match l with
  | [x; y] => Ok (x, y)
  | _ => Raise ValueError
  end.

(** [a.get(k, default)]: only a [dict] has the method. *)
Definition py_get (a : pyval) (k : string) (dflt : pyval) : result pyval :=
  match a with
  | PDict d => Ok (default dflt (assoc_get k d))
  | _ => Raise AttributeError
  end.

(** ** The two standard-library decoders the module calls

    [base64.b64decode] and [json.loads] are Python's, not this
    repository's.  The methods below reach them through the interface
    [PyLib]; [Ref] gives executable reference versions that the concrete
    runs use. *)

Class PyLib := {
  (** [base64.b64decode(v)] on a datapoint value *)
  b64decode : pyval -> result string;
  (** [json.loads(b)] on [bytes] *)
  json_loads : string -> result pyval;
  (** [json.loads(s)] on a [str] *)
  json_loads_str : string -> result pyval
}.

Module Ref.

Definition byte_of (c : ascii) : Z := Z.of_N (N_of_ascii c).
Definition ascii_of (b : Z) : ascii := ascii_of_N (Z.to_N b).

Fixpoint bytes_of (s : string) : list Z :=
  match s with
  | EmptyString => []
  | String c r => byte_of c :: bytes_of r
  end.

Fixpoint string_of (l : list Z) : string :=
  match l with
  | [] => EmptyString
  | b :: r => String (ascii_of b) (string_of r)
  end.

(** *** base64 *)

(** The value of a character of the standard alphabet
    ([table_a2b_base64]). *)
Definition b64_value (c : Z) : option Z :=
  if (65 <=? c) && (c <=? 90) then Some (c - 65)
  else if (97 <=? c) && (c <=? 122) then Some (c - 71)
  else if (48 <=? c) && (c <=? 57) then Some (c + 4)
  else if c =? 43 then Some 62
  else if c =? 47 then Some 63
  else None.

(** [binascii.a2b_base64] without [strict_mode]: characters outside the
    alphabet are skipped, a pad sequence that completes a quad ends the
    data, and an incomplete quad at the end is an error. *)
Fixpoint a2b_base64 (s : list Z) (quad_pos leftchar pads : Z) (out : list Z)
  : result (list Z) :=
  match s with
  | [] => if quad_pos =? 0 then Ok (rev out) else Raise BinasciiError
  | c :: r =>
      if c =? 61 then
        if 2 <=? quad_pos then
          if 4 <=? quad_pos + (pads + 1) then Ok (rev out)
          else a2b_base64 r quad_pos leftchar (pads + 1) out
        else a2b_base64 r quad_pos leftchar pads out
      else
        match b64_value c with
        | None => a2b_base64 r quad_pos leftchar pads out
        | Some v =>
            if quad_pos =? 0 then a2b_base64 r 1 v 0 out
            else if quad_pos =? 1 then
              a2b_base64 r 2 (Z.land v 15) 0
                (Z.lor (Z.shiftl leftchar 2) (Z.shiftr v 4) :: out)
            else if quad_pos =? 2 then
              a2b_base64 r 3 (Z.land v 3) 0
                (Z.lor (Z.shiftl leftchar 4) (Z.shiftr v 2) :: out)
            else
              a2b_base64 r 0 0 0 (Z.lor (Z.shiftl leftchar 6) v :: out)
        end
  end.

(** [base64.b64decode(v)]: a [str] must be ASCII ([ValueError]
    otherwise); anything that is not a string is a [TypeError]. *)
Definition b64decode (v : pyval) : result string :=
  match v with
  | PStr s =>
      let bs := bytes_of s in
      if forallb (fun b => b <? 128) bs
      then string_of <$> a2b_base64 bs 0 0 0 []
      else Raise ValueError
  | _ => Raise TypeError
  end.

(** *** Text encodings *)

Definition cont (b : Z) : bool := (128 <=? b) && (b <=? 191).

(** UTF-8 to code points, as [bytes.decode('utf-8', 'surrogatepass')]. *)
Fixpoint utf8_decode (fuel : nat) (s : list Z) : result (list Z) :=
  match fuel with
  | O => Ok []
  | S fuel =>
      match s with
      | [] => Ok []
      | b0 :: r =>
          if b0 <? 128 then cons b0 <$> utf8_decode fuel r
          else if (194 <=? b0) && (b0 <=? 223) then
            match r with
            | b1 :: r =>
                if cont b1
                then cons (Z.lor (Z.shiftl (Z.land b0 31) 6) (Z.land b1 63))
                       <$> utf8_decode fuel r
                else Raise UnicodeDecodeError
            | _ => Raise UnicodeDecodeError
            end
          else if (224 <=? b0) && (b0 <=? 239) then
            match r with
            | b1 :: b2 :: r =>
                if cont b1 && cont b2 && negb ((b0 =? 224) && (b1 <? 160))
                then cons (Z.lor (Z.shiftl (Z.land b0 15) 12)
                             (Z.lor (Z.shiftl (Z.land b1 63) 6) (Z.land b2 63)))
                       <$> utf8_decode fuel r
                else Raise UnicodeDecodeError
            | _ => Raise UnicodeDecodeError
            end
          else if (240 <=? b0) && (b0 <=? 244) then
            match r with
            | b1 :: b2 :: b3 :: r =>
                if cont b1 && cont b2 && cont b3
                   && negb ((b0 =? 240) && (b1 <? 144))
                   && negb ((b0 =? 244) && (143 <? b1))
                then cons (Z.lor (Z.shiftl (Z.land b0 7) 18)
                             (Z.lor (Z.shiftl (Z.land b1 63) 12)
                                (Z.lor (Z.shiftl (Z.land b2 63) 6) (Z.land b3 63))))
                       <$> utf8_decode fuel r
                else Raise UnicodeDecodeError
            | _ => Raise UnicodeDecodeError
            end
          else Raise UnicodeDecodeError
      end
  end.

(** One code point as UTF-8 (a surrogate as three bytes). *)
Definition utf8_encode (c : Z) : list Z :=
  if c <? 128 then [c]
  else if c <? 2048 then [Z.lor 192 (Z.shiftr c 6); Z.lor 128 (Z.land c 63)]
  else if c <? 65536 then
    [Z.lor 224 (Z.shiftr c 12); Z.lor 128 (Z.land (Z.shiftr c 6) 63);
     Z.lor 128 (Z.land c 63)]
  else
    [Z.lor 240 (Z.shiftr c 18); Z.lor 128 (Z.land (Z.shiftr c 12) 63);
     Z.lor 128 (Z.land (Z.shiftr c 6) 63); Z.lor 128 (Z.land c 63)].

Definition is_high_surrogate (c : Z) : bool := (55296 <=? c) && (c <=? 56319).
Definition is_low_surrogate (c : Z) : bool := (56320 <=? c) && (c <=? 57343).
Definition join_surrogates (hi lo : Z) : Z :=
  65536 + Z.lor (Z.shiftl (Z.land hi 1023) 10) (Z.land lo 1023).

(** UTF-16 code units to code points; [le] selects the byte order. *)
Fixpoint utf16_decode (fuel : nat) (le : bool) (s : list Z) : result (list Z) :=
  match fuel with
  | O => Ok []
  | S fuel =>
      let unit (a b : Z) := if le then Z.lor (Z.shiftl b 8) a else Z.lor (Z.shiftl a 8) b in
      match s with
      | [] => Ok []
      | [_] => Raise UnicodeDecodeError
      | a :: b :: r =>
          let u := unit a b in
          match r with
          | a' :: b' :: r' =>
              if is_high_surrogate u && is_low_surrogate (unit a' b')
              then cons (join_surrogates u (unit a' b')) <$> utf16_decode fuel le r'
              else cons u <$> utf16_decode fuel le r
          | _ => cons u <$> utf16_decode fuel le r
          end
      end
  end.

Fixpoint utf32_decode (fuel : nat) (le : bool) (s : list Z) : result (list Z) :=
  match fuel with
  | O => Ok []
  | S fuel =>
      match s with
      | [] => Ok []
      | a :: b :: c :: d :: r =>
          let u := if le then Z.lor (Z.shiftl d 24) (Z.lor (Z.shiftl c 16) (Z.lor (Z.shiftl b 8) a))
                   else Z.lor (Z.shiftl a 24) (Z.lor (Z.shiftl b 16) (Z.lor (Z.shiftl c 8) d)) in
          if u <=? 1114111 then cons u <$> utf32_decode fuel le r
          else Raise UnicodeDecodeError
      | _ => Raise UnicodeDecodeError
      end
  end.

(** [json.detect_encoding] followed by [bytes.decode]: byte order marks
    first, then the pattern of NUL bytes at the start, UTF-8 otherwise. *)
Definition decode_json_bytes (s : list Z) : result (list Z) :=
  let n := length s in
  match s with
  | 0 :: 0 :: 254 :: 255 :: r => utf32_decode n false r
  | 255 :: 254 :: 0 :: 0 :: r => utf32_decode n true r
  | 254 :: 255 :: r => utf16_decode n false r
  | 255 :: 254 :: r => utf16_decode n true r
  | 239 :: 187 :: 191 :: r => utf8_decode n r
  | b0 :: b1 :: b2 :: b3 :: _ =>
      if b0 =? 0 then
        if b1 =? 0 then utf32_decode n false s else utf16_decode n false s
      else if b1 =? 0 then
        if (b2 =? 0) && (b3 =? 0) then utf32_decode n true s else utf16_decode n true s
      else utf8_decode n s
  | [b0; b1] =>
      if b0 =? 0 then utf16_decode n false s
      else if b1 =? 0 then utf16_decode n true s
      else utf8_decode n s
  | _ => utf8_decode n s
  end.

(** *** JSON *)

Definition is_ws (c : Z) : bool := (c =? 32) || (c =? 9) || (c =? 10) || (c =? 13).
Definition is_digit (c : Z) : bool := (48 <=? c) && (c <=? 57).

Fixpoint skip_ws (s : list Z) : list Z :=
  match s with
  | c :: r => if is_ws c then skip_ws r else s
  | [] => []
  end.

(** The longest run of ASCII digits at the front, with its value and
    length. *)
Fixpoint digits (s : list Z) (acc : Z) (n : Z) : Z * Z * list Z :=
  match s with
  | c :: r => if is_digit c then digits r (10 * acc + (c - 48)) (n + 1) else (acc, n, s)
  | [] => (acc, n, s)
  end.

Definition hex_value (c : Z) : option Z :=
  if is_digit c then Some (c - 48)
  else if (97 <=? c) && (c <=? 102) then Some (c - 87)
  else if (65 <=? c) && (c <=? 70) then Some (c - 55)
  else None.

Definition hex4 (s : list Z) : option (Z * list Z) :=
  match s with
  | a :: b :: c :: d :: r =>
      match hex_value a, hex_value b, hex_value c, hex_value d with
      | Some a, Some b, Some c, Some d => Some (4096 * a + 256 * b + 16 * c + d, r)
      | _, _, _, _ => None
      end
  | _ => None
  end.

(** The body of a string literal, after the opening quote (strict mode:
    a raw control character is an error). *)
Fixpoint scanstring (fuel : nat) (s : list Z) (acc : list Z) : result (string * list Z) :=
  match fuel with
  | O => Raise JSONDecodeError
  | S fuel =>
      match s with
      | [] => Raise JSONDecodeError
      | 34 :: r => Ok (string_of (rev acc), r)
      | 92 :: e :: r =>
          let simple (c : Z) := scanstring fuel r (c :: acc) in
          if (e =? 34) || (e =? 92) || (e =? 47) then simple e
          else if e =? 98 then simple 8
          else if e =? 102 then simple 12
          else if e =? 110 then simple 10
          else if e =? 114 then simple 13
          else if e =? 116 then simple 9
          else if e =? 117 then
            match hex4 r with
            | None => Raise JSONDecodeError
            | Some (u, r') =>
                let lone := scanstring fuel r' (rev (utf8_encode u) ++ acc) in
                if is_high_surrogate u then
                  match r' with
                  | 92 :: 117 :: r'' =>
                      match hex4 r'' with
                      | None => Raise JSONDecodeError
                      | Some (u2, r3) =>
                          if is_low_surrogate u2
                          then scanstring fuel r3
                                 (rev (utf8_encode (join_surrogates u u2)) ++ acc)
                          else lone
                      end
                  | _ => lone
                  end
                else lone
            end
          else Raise JSONDecodeError
      | c :: r =>
          if (c <? 32) || (c =? 92) then Raise JSONDecodeError
          else scanstring fuel r (rev (utf8_encode c) ++ acc)
      end
  end.

(** A number at the front: an optional minus sign, then 0 or a run of
    digits that does not start with 0, then optionally a dot with one or
    more digits, then optionally e or E, a sign and one or more digits.
    The value is an [int] without fraction and exponent, a [float]
    otherwise. *)
Definition scan_number (s : list Z) : option (pyval * list Z) :=
  let '(neg, s1) := match s with 45 :: r => (true, r) | _ => (false, s) end in
  match s1 with
  | d :: r1 =>
      if is_digit d then
        let '(ip, _, s2) := if d =? 48 then (0, 1, r1) else digits s1 0 0 in
        let '(fp, fn, s3) :=
          match s2 with
          | 46 :: r2 =>
              let '(v, n, r3) := digits r2 0 0 in
              if 0 <? n then (Some v, n, r3) else (None, 0, s2)
          | _ => (None, 0, s2)
          end in
        let '(ep, s4) :=
          match s3 with
          | e :: r3 =>
              if (e =? 101) || (e =? 69) then
                let '(eneg, r4) :=
                  match r3 with
                  | 45 :: r => (true, r)
                  | 43 :: r => (false, r)
                  | _ => (false, r3)
                  end in
                let '(v, n, r5) := digits r4 0 0 in
                if 0 <? n then (Some (if eneg then - v else v), r5) else (None, s3)
              else (None, s3)
          | [] => (None, s3)
          end in
        match fp, ep with
        | None, None => Some (PInt (if neg then - ip else ip), s4)
        | _, _ =>
            let m := ip * 10 ^ fn + default 0 fp in
            let e := default 0 ep - fn in
            let f := if m =? 0 then S754_zero neg
                     else F64.of_decimal (if neg then - m else m) e in
            Some (PFloat f, s4)
        end
      else None
  | [] => None
  end.

Fixpoint strip_prefix (p s : list Z) : option (list Z) :=
  match p, s with
  | [], _ => Some s
  | a :: p', b :: s' => if a =? b then strip_prefix p' s' else None
  | _ :: _, [] => None
  end.

(** [scan_once]: one JSON value at the front of [s].  [parse_array] and
    [parse_object] read the rest of a container after its first
    delimiter. *)
Fixpoint scan_once (fuel : nat) (s : list Z) {struct fuel} : result (pyval * list Z) :=
  match fuel with
  | O => Raise JSONDecodeError
  | S fuel =>
      match s with
      | 34 :: r =>
          '(str, r') ← scanstring (S (length r)) r []; Ok (PStr str, r')
      | 123 :: r =>
          match skip_ws r with
          | 125 :: r' => Ok (PDict [], r')
          | r' => parse_object fuel r' []
          end
      | 91 :: r =>
          match skip_ws r with
          | 93 :: r' => Ok (PList [], r')
          | r' => parse_array fuel r' []
          end
      | _ =>
          match strip_prefix [110; 117; 108; 108] s,
                strip_prefix [116; 114; 117; 101] s,
                strip_prefix [102; 97; 108; 115; 101] s with
          | Some r, _, _ => Ok (PNone, r)
          | _, Some r, _ => Ok (PBool true, r)
          | _, _, Some r => Ok (PBool false, r)
          | _, _, _ =>
              match scan_number s with
              | Some res => Ok res
              | None =>
                  match strip_prefix [78; 97; 78] s,
                        strip_prefix [73; 110; 102; 105; 110; 105; 116; 121] s,
                        strip_prefix [45; 73; 110; 102; 105; 110; 105; 116; 121] s with
                  | Some r, _, _ => Ok (PFloat S754_nan, r)
                  | _, Some r, _ => Ok (PFloat (S754_infinity false), r)
                  | _, _, Some r => Ok (PFloat (S754_infinity true), r)
                  | _, _, _ => Raise JSONDecodeError
                  end
              end
          end
      end
  end
with parse_array (fuel : nat) (s : list Z) (acc : list pyval) {struct fuel}
  : result (pyval * list Z) :=
  match fuel with
  | O => Raise JSONDecodeError
  | S fuel =>
      '(v, r) ← scan_once fuel s;
      match skip_ws r with
      | 93 :: r' => Ok (PList (rev (v :: acc)), r')
      | 44 :: r' => parse_array fuel (skip_ws r') (v :: acc)
      | _ => Raise JSONDecodeError
      end
  end
with parse_object (fuel : nat) (s : list Z) (acc : list (string * pyval)) {struct fuel}
  : result (pyval * list Z) :=
  match fuel with
  | O => Raise JSONDecodeError
  | S fuel =>
      match s with
      | 34 :: r =>
          '(k, r) ← scanstring (S (length r)) r [];
          match skip_ws r with
          | 58 :: r =>
              '(v, r) ← scan_once fuel (skip_ws r);
              let acc := assoc_set k v acc in
              match skip_ws r with
              | 125 :: r' => Ok (PDict acc, r')
              | 44 :: r' => parse_object fuel (skip_ws r') acc
              | _ => Raise JSONDecodeError
              end
          | _ => Raise JSONDecodeError
          end
      | _ => Raise JSONDecodeError
      end
  end.

(** [JSONDecoder.decode]: one value between optional white space. *)
Definition decode (s : list Z) : result pyval :=
  '(v, r) ← scan_once (2 * length s + 2) (skip_ws s);
  match skip_ws r with
  | [] => Ok v
  | _ => Raise JSONDecodeError
  end.

Definition json_loads (b : string) : result pyval :=
  s ← decode_json_bytes (bytes_of b); decode s.

(** On a [str] a leading U+FEFF is refused. *)
Definition json_loads_str (t : string) : result pyval :=
  s ← utf8_decode (String.length t) (bytes_of t);
  match s with
  | 65279 :: _ => Raise JSONDecodeError
  | _ => decode s
  end.

End Ref.

(** The reference library, used for the concrete runs. *)
Definition ref_lib : PyLib :=
  {| b64decode := Ref.b64decode;
     json_loads := Ref.json_loads;
     json_loads_str := Ref.json_loads_str |}.

(** ** Constants of the module *)

Definition CLEAN_TIME : string := "clean_time".
Definition CLEAN_AREA : string := "clean_area".
Definition CLEAN_RECORD : string := "clean_record".
Definition MODES_LIST : string := "cleaning_mode_list".
Definition MODE : string := "cleaning_mode".
Definition FAULT : string := "fault".
Definition POSITION : string := "position".
Definition PATH : string := "path".
Definition RELATIVE_POSITION : string := "relative_position".

(** The states of [homeassistant.components.vacuum] that the module
    imports. *)
Inductive vacuum_state :=
| STATE_CLEANING
| STATE_DOCKED
| STATE_ERROR
| STATE_IDLE
| STATE_PAUSED
| STATE_RETURNING.

#[global] Instance vacuum_state_eq_dec : EqDecision vacuum_state.
Proof. solve_decision. Defined.

(** ** Configuration and datapoints *)

(** The options of [flow_schema], each with the type the schema gives it:
    [str], a datapoint index ([vol.In(dps)]), [float] or [int].  [None] is
    an option the configuration does not have. *)
Record config := Config {
  CONF_IDLE_STATUS_VALUE : option string;
  CONF_POWERGO_DP : option Z;
  CONF_DOCKED_STATUS_VALUE : option string;
  CONF_RETURNING_STATUS_VALUE : option string;
  CONF_BATTERY_DP : option Z;
  CONF_MODE_DP : option Z;
  CONF_MODES : option string;
  CONF_RETURN_MODE : option string;
  CONF_FAN_SPEED_DP : option Z;
  CONF_FAN_SPEEDS : option string;
  CONF_CLEAN_TIME_DP : option Z;
  CONF_CLEAN_AREA_DP : option Z;
  CONF_CLEAN_RECORD_DP : option Z;
  CONF_LOCATE_DP : option Z;
  CONF_FAULT_DP : option Z;
  CONF_PAUSED_STATE : option string;
  CONF_STOP_STATUS : option string;
  CONF_POSITION_BASE64_DP : option Z;
  CONF_POSITION_RELATIVE_SCALE : option spec_float;
  CONF_POSITION_RELATIVE_ORIGIN : option string;
  CONF_POSITION_AXIS_ROTATION : option Z
}.

(** [self._config[key]]. *)
Definition config_item {A} (o : option A) : result A :=
  match o with
  | Some v => Ok v
  | None => Raise KeyError
  end.

(** A raw datapoint value: boolean, integer or string (a position blob is
    a base64 string). *)
Inductive dpval :=
| DBool (b : bool)
| DInt (z : Z)
| DStr (s : string).

Definition dp_value (v : option dpval) : pyval :=
  match v with
  | None => PNone
  | Some (DBool b) => PBool b
  | Some (DInt z) => PInt z
  | Some (DStr s) => PStr s
  end.

(** [str(v)] of a datapoint reading. *)
Definition py_str (v : option dpval) : string :=
  match v with
  | None => "None"
  | Some (DBool true) => "True"
  | Some (DBool false) => "False"
  | Some (DInt z) => pretty z
  | Some (DStr s) => s
  end.

(** [s.split(",")]. *)
Fixpoint split_comma (s : string) : list string :=
  match s with
  | EmptyString => [EmptyString]
  | String c r =>
      if Ascii.eqb c ","%char then EmptyString :: split_comma r
      else match split_comma r with
           | h :: t => String c h :: t
           | [] => [String c EmptyString]
           end
  end.

(** ** The entity *)

(** The attributes of a [LocaltuyaVacuum] object.  [_status] is the
    cache of datapoint values that the base class keeps and [dps] reads. *)
Record entity := Entity {
  _config : config;
  _dp_id : Z;
  _status : gmap string dpval;
  _state : option vacuum_state;
  _battery_level : pyval;
  _attrs : gmap string pyval;
  _idle_status_list : list string;
  _modes_list : list string;
  _docked_status_list : list string;
  _fan_speed_list : list string;
  _position_relative_scale : pyval;
  _position_relative_origin : pyval;
  _position_axis_rotation : Z;
  _fan_speed : pyval;
  _cleaning_mode : pyval
}.

Definition set_status (self : entity) (v : gmap string dpval) : entity :=
  let 'Entity c d _ st b a il ml dl fl sc og ro fs cm := self in
  Entity c d v st b a il ml dl fl sc og ro fs cm.

Definition set_state (self : entity) (v : option vacuum_state) : entity :=
  let 'Entity c d s _ b a il ml dl fl sc og ro fs cm := self in
  Entity c d s v b a il ml dl fl sc og ro fs cm.

Definition set_battery_level (self : entity) (v : pyval) : entity :=
  let 'Entity c d s st _ a il ml dl fl sc og ro fs cm := self in
  Entity c d s st v a il ml dl fl sc og ro fs cm.

Definition set_attrs (self : entity) (v : gmap string pyval) : entity :=
  let 'Entity c d s st b _ il ml dl fl sc og ro fs cm := self in
  Entity c d s st b v il ml dl fl sc og ro fs cm.

Definition set_fan_speed (self : entity) (v : pyval) : entity :=
  let 'Entity c d s st b a il ml dl fl sc og ro _ cm := self in
  Entity c d s st b a il ml dl fl sc og ro v cm.

Definition set_cleaning_mode (self : entity) (v : pyval) : entity :=
  let 'Entity c d s st b a il ml dl fl sc og ro fs _ := self in
  Entity c d s st b a il ml dl fl sc og ro fs v.

(** [self._attrs[key] = v]. *)
Definition set_attr (self : entity) (key : string) (v : pyval) : entity :=
  set_attrs self (<[key := v]> (_attrs self)).

(** Modelled from the spec: [has_config] is a method of the base class
    [LocalTuyaEntity] (common.py), which is not among the sources.  The
    spec gates each feature on its option being configured and says that
    the absence of an optional binding disables the feature: an option is
    configured when the configuration has a value for it. *)
Definition has_config {A} (o : option A) : bool :=
  match o with
  | Some _ => true
  | None => false
  end.

(** Modelled from the spec: [dps] is a method of the base class
    [LocalTuyaEntity] (common.py), which is not among the sources.  It is
    the spec's "get datapoint value" interface: the current value of a
    datapoint, looked up under the string form of its index; [None] when
    the snapshot has no value for it. *)
Definition dps (self : entity) (dp_index : Z) : option dpval :=
  _status self !! pretty dp_index.

(** Modelled from the spec: [dps_conf] is a method of the base class
    [LocalTuyaEntity] (common.py), which is not among the sources.  It
    reads the datapoint that a configuration option is bound to; [None]
    when the option has no binding. *)
Definition dps_conf (self : entity) (conf_item : option Z) : option dpval :=
  dp_index ← conf_item; dps self dp_index.

(** ** Methods of [LocaltuyaVacuum] *)

(** A method that mutates [self] and may raise returns the object as it
    is when the method ends, together with the outcome: the assignments
    made before an exception stay. *)
Definition outcome : Type := entity * result unit.

Section Methods.
Context {lib : PyLib}.

(** [__init__]: the base class stores the configuration and the
    datapoint index and starts with an empty cache. *)
Definition __init__ (config_entry : config) (switchid : Z) : result entity :=
  idle_status_list ←
    (if has_config (CONF_IDLE_STATUS_VALUE config_entry)
     then split_comma <$> config_item (CONF_IDLE_STATUS_VALUE config_entry)
     else Ok []);
  modes_list ←
    (if has_config (CONF_MODES config_entry)
     then split_comma <$> config_item (CONF_MODES config_entry)
     else Ok []);
  let attrs : gmap string pyval :=
    if has_config (CONF_MODES config_entry)
    then {[ MODES_LIST := PList (PStr <$> modes_list) ]}
    else ∅ in
  docked_status_list ←
    (if has_config (CONF_DOCKED_STATUS_VALUE config_entry)
     then split_comma <$> config_item (CONF_DOCKED_STATUS_VALUE config_entry)
     else Ok []);
  fan_speed_list ←
    (if has_config (CONF_FAN_SPEEDS config_entry)
     then split_comma <$> config_item (CONF_FAN_SPEEDS config_entry)
     else Ok []);
  let attrs := <[ PATH := PList [] ]> attrs in
  position_relative_scale ←
    (if has_config (CONF_POSITION_RELATIVE_SCALE config_entry)
     then PFloat <$> config_item (CONF_POSITION_RELATIVE_SCALE config_entry)
     else Ok (PInt 1));
  position_relative_origin ←
    (if has_config (CONF_POSITION_RELATIVE_ORIGIN config_entry)
     then s ← config_item (CONF_POSITION_RELATIVE_ORIGIN config_entry); json_loads_str s
     else Ok (PList [PInt 0; PInt 0]));
  position_axis_rotation ←
    (if has_config (CONF_POSITION_AXIS_ROTATION config_entry)
     then config_item (CONF_POSITION_AXIS_ROTATION config_entry)
     else Ok 0);
  Ok {| _config := config_entry;
        _dp_id := switchid;
        _status := ∅;
        _state := None;
        _battery_level := PNone;
        _attrs := attrs;
        _idle_status_list := idle_status_list;
        _modes_list := modes_list;
        _docked_status_list := docked_status_list;
        _fan_speed_list := fan_speed_list;
        _position_relative_scale := position_relative_scale;
        _position_relative_origin := position_relative_origin;
        _position_axis_rotation := position_axis_rotation;
        _fan_speed := PStr EmptyString;
        _cleaning_mode := PStr EmptyString |}.

(** [rotate_coordinates]: a rotation outside 0..3 leaves the pair as it
    is. *)
Definition rotate_coordinates (self : entity) (px py : pyval) : result (pyval * pyval) :=
  if _position_axis_rotation self =? 0 then
    npy ← py_neg py; Ok (px, npy)
  else if _position_axis_rotation self =? 1 then
    Ok (py, px)
  else if _position_axis_rotation self =? 2 then
    npx ← py_neg px; Ok (npx, py)
  else if _position_axis_rotation self =? 3 then
    npx ← py_neg px; npy ← py_neg py; Ok (npx, npy)
  else Ok (px, py).

(** Lines 297-298, one axis: [p * scale + origin[i]]. *)
Definition to_relative_axis (self : entity) (i : Z) (p : pyval) : result pyval :=
  scaled ← py_mul p (_position_relative_scale self);
  o ← py_getitem (_position_relative_origin self) i;
  py_add scaled o.

(** [get_relative_position]: [Ok None] is the method returning [None]. *)
Definition get_relative_position (self : entity) : result (option pyval) :=
  match default PNone (_attrs self !! POSITION) with
  | PNone => Ok None
  | position =>
      '(px, py) ← py_unpack2 position;
      '(px, py) ← rotate_coordinates self px py;
      px ← to_relative_axis self 0 px;
      py ← to_relative_axis self 1 py;
      Ok (Some (PList [px; py]))
  end.

(** Lines 303-304, one axis: [(x - origin[i]) / scale]. *)
Definition to_absolute_axis (self : entity) (i : Z) (x : pyval) : result pyval :=
  o ← py_getitem (_position_relative_origin self) i;
  d ← py_sub x o;
  py_truediv d (_position_relative_scale self).

(** [calculate_absolute_position]. *)
Definition calculate_absolute_position (self : entity) (x y : pyval)
  : result (pyval * pyval) :=
  px ← to_absolute_axis self 0 x;
  py ← to_absolute_axis self 1 y;
  '(px, py) ← rotate_coordinates self px py;
  rx ← py_round px;
  ry ← py_round py;
  Ok (rx, ry).

(** *** [status_updated] *)

(** Lines 315-324: the state that the primary datapoint selects. *)
Definition resolve_state (self : entity) (state_value : string) : result vacuum_state :=
  if bool_decide (state_value ∈ _idle_status_list self) then Ok STATE_IDLE
  else if bool_decide (state_value ∈ _docked_status_list self) then Ok STATE_DOCKED
  else
    returning ← config_item (CONF_RETURNING_STATUS_VALUE (_config self));
    if String.eqb state_value returning then Ok STATE_RETURNING
    else
      paused ← config_item (CONF_PAUSED_STATE (_config self));
      if String.eqb state_value paused then Ok STATE_PAUSED
      else Ok STATE_CLEANING.

(** Lines 326-328: the path is reset when the vacuum leaves the dock. *)
Definition reset_path (previous_state : option vacuum_state) (self : entity) : entity :=
  if bool_decide (previous_state = Some STATE_DOCKED)
     && negb (bool_decide (_state self = Some STATE_DOCKED))
  then set_attr self PATH (PList [])
  else self.

(** Lines 330-331. *)
Definition update_battery_level (self : entity) : entity :=
  if has_config (CONF_BATTERY_DP (_config self))
  then set_battery_level self (dp_value (dps_conf self (CONF_BATTERY_DP (_config self))))
  else self.

(** Lines 333-336. *)
Definition update_cleaning_mode (self : entity) : entity :=
  let self := set_cleaning_mode self (PStr EmptyString) in
  if has_config (CONF_MODES (_config self))
  then
    let self :=
      set_cleaning_mode self (dp_value (dps_conf self (CONF_MODE_DP (_config self)))) in
    set_attr self MODE (_cleaning_mode self)
  else self.

(** Lines 338-340. *)
Definition update_fan_speed (self : entity) : entity :=
  let self := set_fan_speed self (PStr EmptyString) in
  if has_config (CONF_FAN_SPEEDS (_config self))
  then set_fan_speed self (dp_value (dps_conf self (CONF_FAN_SPEED_DP (_config self))))
  else self.

(** Lines 342-349, one of the three blocks: the attribute [key] is the
    value of the datapoint that the option [conf] is bound to. *)
Definition update_clean_attr (key : string) (conf : config -> option Z) (self : entity)
  : entity :=
  if has_config (conf (_config self))
  then set_attr self key (dp_value (dps_conf self (conf (_config self))))
  else self.

(** Lines 351-354: the fault code, and the state it forces. *)
Definition update_fault (self : entity) : entity :=
  if has_config (CONF_FAULT_DP (_config self))
  then
    let self := set_attr self FAULT (dp_value (dps_conf self (CONF_FAULT_DP (_config self)))) in
    if negb (py_eqb (default PNone (_attrs self !! FAULT)) (PInt 0))
    then set_state self (Some STATE_ERROR)
    else self
  else self.

(** Lines 330-354 in their order. *)
Definition update_attributes (self : entity) : entity :=
  let self := update_battery_level self in
  let self := update_cleaning_mode self in
  let self := update_fan_speed self in
  let self := update_clean_attr CLEAN_TIME CONF_CLEAN_TIME_DP self in
  let self := update_clean_attr CLEAN_AREA CONF_CLEAN_AREA_DP self in
  let self := update_clean_attr CLEAN_RECORD CONF_CLEAN_RECORD_DP self in
  update_fault self.

(** Lines 360-371: the body of the [try]. *)
Definition decode_position (self : entity) (position : pyval) : outcome :=
  match b64decode position ≫= json_loads with
  | Raise e => (self, Raise e)
  | Ok decoded_json =>
      match py_get decoded_json "data" (PDict []) ≫= fun data =>
            py_get data "posArray" (PList []) with
      | Raise e => (self, Raise e)
      | Ok PNone => (self, Ok tt)
      | Ok position_array =>
          match py_len position_array with
          | Raise e => (self, Raise e)
          | Ok n =>
              if n =? 1 then
                let last_position := default PNone (_attrs self !! POSITION) in
                match py_getitem position_array 0 with
                | Raise e => (self, Raise e)
                | Ok new_position =>
                    if negb (py_eqb last_position new_position) then
                      let self := set_attr self POSITION new_position in
                      match get_relative_position self with
                      | Raise e => (self, Raise e)
                      | Ok None => (self, Ok tt)
                      | Ok (Some relative_position) =>
                          (set_attr self RELATIVE_POSITION relative_position, Ok tt)
                      end
                    else (self, Ok tt)
                end
              else (self, Ok tt)
          end
      end
  end.

(** The exception classes of the [except] clause, line 372. *)
Definition position_except (e : exn) : bool :=
  match e with
  | JSONDecodeError | TypeError | IndexError | BinasciiError => true
  | _ => false
  end.

(** [str(self._config.get(key))] for a datapoint option. *)
Definition str_config_get (o : option Z) : string :=
  match o with
  | Some dp => pretty dp
  | None => "None"
  end.

(** Lines 356-374: the position datapoint, when it is configured and the
    update carries it. *)
Definition update_position (self : entity) (status : gmap string dpval) : outcome :=
  if has_config (CONF_POSITION_BASE64_DP (_config self)) then
    if bool_decide (is_Some (status !! str_config_get (CONF_POSITION_BASE64_DP (_config self))))
    then
      let position := dp_value (dps_conf self (CONF_POSITION_BASE64_DP (_config self))) in
      match decode_position self position with
      | (self, Raise e) => if position_except e then (self, Ok tt) else (self, Raise e)
      | done => done
      end
    else (self, Ok tt)
  else (self, Ok tt).

(** [status_updated(status)]. *)
Definition status_updated (self : entity) (status : gmap string dpval) : outcome :=
  let state_value := py_str (dps self (_dp_id self)) in
  let previous_state := _state self in
  match resolve_state self state_value with
  | Raise e => (self, Raise e)
  | Ok new_state =>
      let self := set_state self (Some new_state) in
      let self := reset_path previous_state self in
      let self := update_attributes self in
      update_position self status
  end.

(** *** Commands *)

(** What [set_dp] is given as value: a Python value, or the base64 text
    of the JSON serialisation of a command, kept as the structure that is
    serialised ([base64.b64encode(json.dumps(p).encode()).decode()]). *)
Inductive wire :=
| WValue (v : pyval)
| WBase64Json (command_params : pyval).

(** One call [self._device.set_dp(value, dp_index)]. *)
Record write := SetDp { dp_wire : wire; dp_index : Z }.

(** The [params] argument: [None], a [dict] or a [list]. *)
Inductive params_arg :=
| ParamsNone
| ParamsDict (d : gmap string pyval)
| ParamsList (l : list pyval).

(** [key in params]. *)
Definition params_contains (params : params_arg) (key : string) : bool :=
  match params with
  | ParamsNone => false
  | ParamsDict d => bool_decide (is_Some (d !! key))
  | ParamsList l => existsb (py_eqb (PStr key)) l
  end.

(** [params[key]] for a string key. *)
Definition params_item (params : params_arg) (key : string) : result pyval :=
  match params with
  | ParamsNone => Raise KeyError
  | ParamsDict d =>
      match d !! key with
      | Some v => Ok v
      | None => Raise KeyError
      end
  | ParamsList _ => Raise TypeError
  end.

(** [params.get(key, default)]: a [list] has no such method. *)
Definition params_get (params : params_arg) (key : string) (dflt : pyval) : result pyval :=
  match params with
  | ParamsNone => Ok dflt
  | ParamsDict d => Ok (default dflt (d !! key))
  | ParamsList _ => Raise AttributeError
  end.

(** [get_command_params_clean]; [ts] is [int(time.time() * 1000)]. *)
Definition get_command_params_clean (ts : Z) (vertices map_id : pyval) : pyval :=
  PDict [
    ("dInfo", PDict [("ts", PInt ts); ("userId", PStr "0")]);
    ("data", PDict [
       ("cmds", PList [
          PDict [
            ("data", PDict [
               ("cleanId", PList [PInt (-3)]);
               ("extraAreas", PList [
                  PDict [("active", PStr "depth"); ("id", PInt 100);
                         ("mode", PStr "point"); ("name", PStr "aa");
                         ("tag", PStr "room"); ("vertexs", vertices)]]);
               ("mapId", map_id);
               ("segmentId", PList [])]);
            ("infoType", PInt 21023)];
          PDict [
            ("data", PDict [("mode", PStr "reAppointClean")]);
            ("infoType", PInt 21005)]]);
       ("mainCmds", PList [PInt 21005])]);
    ("infoType", PInt 30000);
    ("message", PStr "ok")].

(** The envelope of [clean_room], lines 245-248. *)
Definition command_params_clean_room (ts : Z) (room_id map_id : pyval) : pyval :=
  PDict [
    ("dInfo", PDict [("ts", PInt ts); ("userId", PStr "0")]);
    ("data", PDict [
       ("cmds", PList [
          PDict [
            ("data", PDict [
               ("cleanId", PList [PInt (-3)]);
               ("extraAreas", PList []);
               ("mapId", map_id);
               ("segmentId", PList [room_id])]);
            ("infoType", PInt 21023)];
          PDict [
            ("data", PDict [("mode", PStr "reAppointClean")]);
            ("infoType", PInt 21005)]]);
       ("mainCmds", PList [PInt 21005])]);
    ("infoType", PInt 30000);
    ("message", PStr "ok")].

Definition DEFAULT_MAP_ID : Z := 1695662532.

(** The loop of lines 270-272 over the items of [relative_vertices]. *)
Fixpoint absolute_vertices (self : entity) (items : list pyval) : result (list pyval) :=
  match items with
  | [] => Ok []
  | item :: rest =>
      '(x, y) ← py_unpack2 item;
      '(x, y) ← calculate_absolute_position self x y;
      vertices ← absolute_vertices self rest;
      Ok (PList [x; y] :: vertices)
  end.

(** [x op size / 2], as each corner of the square of [clean_spot]
    evaluates it. *)
Definition half_size_off (op : pyval -> pyval -> result pyval) (x size : pyval)
  : result pyval :=
  h ← py_truediv size (PInt 2); op x h.

(** [async_send_command(command, params)]: the writes made on the device
    when no exception is raised.  In every branch [set_dp] is the last
    statement, so an exception means that nothing was written.  [now] is
    the clock reading [int(time.time() * 1000)]. *)
Definition async_send_command (self : entity) (command : string)
    (params : params_arg) (now : Z) : result (list write) :=
  if String.eqb command "set_mode" && params_contains params "mode" then
    mode ← params_item params "mode";
    dp ← config_item (CONF_MODE_DP (_config self));
    Ok [SetDp (WValue mode) dp]
  else if String.eqb command "clean_room" then
    room_id ← params_get params "room" (PInt 4);
    map_id ← params_get params "map_id" (PInt DEFAULT_MAP_ID);
    Ok [SetDp (WBase64Json (command_params_clean_room now room_id map_id)) 127]
  else if String.eqb command "clean_spot" then
    x ← params_get params "x" (PFloat (F64.of_decimal 5 (-1)));
    y ← params_get params "y" (PFloat (F64.of_decimal 5 (-1)));
    size ← params_get params "size" (PInt 300);
    '(x, y) ← calculate_absolute_position self x y;
    map_id ← params_get params "map_id" (PInt DEFAULT_MAP_ID);
    x1 ← half_size_off py_sub x size; y1 ← half_size_off py_sub y size;
    x2 ← half_size_off py_sub x size; y2 ← half_size_off py_add y size;
    x3 ← half_size_off py_add x size; y3 ← half_size_off py_add y size;
    x4 ← half_size_off py_add x size; y4 ← half_size_off py_sub y size;
    let vertices := PList [PList [x1; y1]; PList [x2; y2]; PList [x3; y3]; PList [x4; y4]] in
    Ok [SetDp (WBase64Json (get_command_params_clean now vertices map_id)) 127]
  else if String.eqb command "clean_area" then
    vertices ←
      (if params_contains params "vertices" then params_item params "vertices"
       else
         relative_vertices ← params_get params "relative_vertices" (PList []);
         items ← py_iter relative_vertices;
         PList <$> absolute_vertices self items);
    map_id ← params_get params "map_id" (PInt DEFAULT_MAP_ID);
    Ok [SetDp (WBase64Json (get_command_params_clean now vertices map_id)) 127]
  else Ok [].

(** The lifecycle commands. *)
Definition async_start (self : entity) : result (list write) :=
  dp ← config_item (CONF_POWERGO_DP (_config self)); Ok [SetDp (WValue (PBool true)) dp].

Definition async_pause (self : entity) : result (list write) :=
  dp ← config_item (CONF_POWERGO_DP (_config self)); Ok [SetDp (WValue (PBool false)) dp].

Definition async_return_to_base (self : entity) : result (list write) :=
  if has_config (CONF_RETURN_MODE (_config self)) then
    mode ← config_item (CONF_RETURN_MODE (_config self));
    dp ← config_item (CONF_MODE_DP (_config self));
    Ok [SetDp (WValue (PStr mode)) dp]
  else Ok [].

Definition async_stop (self : entity) : result (list write) :=
  dp ← config_item (CONF_POWERGO_DP (_config self)); Ok [SetDp (WValue (PBool false)) dp].

Definition async_clean_spot (self : entity) : result (list write) := Ok [].

Definition async_locate (self : entity) : result (list write) :=
  if has_config (CONF_LOCATE_DP (_config self)) then
    dp ← config_item (CONF_LOCATE_DP (_config self));
    Ok [SetDp (WValue (PStr EmptyString)) dp]
  else Ok [].

Definition async_set_fan_speed (self : entity) (fan_speed : pyval) : result (list write) :=
  dp ← config_item (CONF_FAN_SPEED_DP (_config self)); Ok [SetDp (WValue fan_speed) dp].

End Methods.

(** ** Runs of an entity *)

(** What the host calls on an entity after its construction. *)
Inductive call :=
| StatusUpdated (cache status : gmap string dpval)
| SendCommand (command : string) (params : params_arg) (now : Z)
| Start
| Pause
| ReturnToBase
| Stop
| CleanSpot
| Locate
| SetFanSpeed (fan_speed : pyval).

Section Runs.
Context {lib : PyLib}.

(** Modelled from the spec: the update handler of the base class
    [LocalTuyaEntity] (common.py) is not among the sources.  On a device
    update the host stores the current datapoint values in the cache that
    [dps] reads and calls [status_updated] with the update.  The commands
    only write to the device: none of them assigns to [self]. *)
Definition step (self : entity) (c : call) : entity :=
  match c with
  | StatusUpdated cache status => (status_updated (set_status self cache) status).1
  | _ => self
  end.

Definition run (self : entity) (calls : list call) : entity :=
  foldl step self calls.

End Runs.

(** The condition of the fault override: a fault datapoint is configured
    and its value is not zero. *)
Definition fault_nonzero (self : entity) : bool :=
  match CONF_FAULT_DP (_config self) with
  | Some dp => negb (py_eqb (dp_value (dps self dp)) (PInt 0))
  | None => false
  end.

(** ** Sample data *)

(** The defaults of [flow_schema], with the battery datapoint 6, the
    fault datapoint 28 and the position datapoint 121; the mode options
    and the geometry options are as given. *)
Definition make_config (modes : option string) (mode_dp : option Z)
    (scale : option spec_float) (origin : option string) (rotation : option Z)
  : config :=
  {| CONF_IDLE_STATUS_VALUE := Some "standby,sleep";
     CONF_POWERGO_DP := Some 2;
     CONF_DOCKED_STATUS_VALUE := Some "charging,chargecompleted";
     CONF_RETURNING_STATUS_VALUE := Some "docking";
     CONF_BATTERY_DP := Some 6;
     CONF_MODE_DP := mode_dp;
     CONF_MODES := modes;
     CONF_RETURN_MODE := Some "chargego";
     CONF_FAN_SPEED_DP := None;
     CONF_FAN_SPEEDS := Some "low,normal,high";
     CONF_CLEAN_TIME_DP := None;
     CONF_CLEAN_AREA_DP := None;
     CONF_CLEAN_RECORD_DP := None;
     CONF_LOCATE_DP := None;
     CONF_FAULT_DP := Some 28;
     CONF_PAUSED_STATE := Some "paused";
     CONF_STOP_STATUS := Some "standby";
     CONF_POSITION_BASE64_DP := Some 121;
     CONF_POSITION_RELATIVE_SCALE := scale;
     CONF_POSITION_RELATIVE_ORIGIN := origin;
     CONF_POSITION_AXIS_ROTATION := rotation |}.

(** The default list of modes and no mode datapoint. *)
Definition geometry_config (scale : option spec_float) (origin : option string)
    (rotation : option Z) : config :=
  make_config (Some "smart,wall_follow,spiral,single") None scale origin rotation.

(** No geometry option: scale 1, origin [0, 0], rotation 0. *)
Definition sample_config : config := geometry_config None None None.

(** The float literals [0.5] and [0.6]. *)
Definition float_0_5 : spec_float := F64.of_decimal 5 (-1).
Definition float_0_6 : spec_float := F64.of_decimal 6 (-1).

(** The parameters [relative_vertices=[[0.5, 0.5], [0.6, 0.5]]]. *)
Definition half_vertices : params_arg :=
  ParamsDict {[ "relative_vertices" :=
    PList [PList [PFloat float_0_5; PFloat float_0_5];
           PList [PFloat float_0_6; PFloat float_0_5]] ]}.

(** An entity in a given state, path and position, with the lists that
    [__init__] derives from [sample_config] and the default geometry. *)
Definition sample_entity (cache : gmap string dpval) (state : option vacuum_state)
    (attrs : gmap string pyval) : entity :=
  {| _config := sample_config;
     _dp_id := 5;
     _status := cache;
     _state := state;
     _battery_level := PNone;
     _attrs := attrs;
     _idle_status_list := ["standby"; "sleep"];
     _modes_list := ["smart"; "wall_follow"; "spiral"; "single"];
     _docked_status_list := ["charging"; "chargecompleted"];
     _fan_speed_list := ["low"; "normal"; "high"];
     _position_relative_scale := PInt 1;
     _position_relative_origin := PList [PInt 0; PInt 0];
     _position_axis_rotation := 0;
     _fan_speed := PStr EmptyString;
     _cleaning_mode := PStr EmptyString |}.

(** The entity that [__init__] builds from [config_entry] for the
    primary datapoint 5, after the calls [calls]. *)
Definition started (config_entry : config) (calls : list call) : entity :=
  match __init__ (lib := ref_lib) config_entry 5 with
  | Ok self => run (lib := ref_lib) self calls
  | Raise _ => sample_entity ∅ None ∅
  end.

(** The entity with the given geometry options, after one status update
    that carries the position blob [blob]. *)
Definition positioned (scale : option spec_float) (origin : option string)
    (rotation : option Z) (blob : string) : entity :=
  started (geometry_config scale origin rotation)
    [StatusUpdated {[ "5" := DStr "smart"; "121" := DStr blob ]}
       {[ "121" := DStr blob ]}].

(** The part of an entity that [status_updated] never assigns. *)
Definition same_setup (self self' : entity) : Prop :=
  _config self' = _config self /\
  _status self' = _status self /\
  _dp_id self' = _dp_id self /\
  _idle_status_list self' = _idle_status_list self /\
  _docked_status_list self' = _docked_status_list self /\
  _position_relative_scale self' = _position_relative_scale self /\
  _position_relative_origin self' = _position_relative_origin self /\
  _position_axis_rotation self' = _position_axis_rotation self.

(** ** The advertised features *)

(** The members of [homeassistant.components.vacuum.VacuumEntityFeature]
    that the module names. *)
Inductive feature :=
| START
| PAUSE
| STOP
| STATUS
| STATE
| SEND_COMMAND
| RETURN_HOME
| FAN_SPEED
| BATTERY
| LOCATE.

#[global] Instance feature_eq_dec : EqDecision feature.
Proof. solve_decision. Defined.

(** The integer value of each member of the [IntFlag]. *)
Class FeatureFlags := { flag : feature -> Z }.

(** As in every [IntFlag], the members are distinct single bits. *)
Definition distinct_bits (flags : FeatureFlags) : Prop :=
  exists bit : feature -> Z,
    (forall f, 0 <= bit f /\ flag f = 2 ^ bit f) /\
    (forall f g, bit f = bit g -> f = g).

(** The values that Home Assistant gives the members. *)
Definition ha_flags : FeatureFlags :=
  {| flag f :=
       match f with
       | PAUSE => 4
       | STOP => 8
       | RETURN_HOME => 16
       | FAN_SPEED => 32
       | BATTERY => 64
       | STATUS => 128
       | SEND_COMMAND => 256
       | LOCATE => 512
       | STATE => 4096
       | START => 8192
       end |}.

(** [f in features]: all bits of the member are set. *)
Definition in_features {flags : FeatureFlags} (f : feature) (features : Z) : bool :=
  Z.land features (flag f) =? flag f.

(** The property [supported_features]. *)
Definition supported_features {flags : FeatureFlags} (self : entity) : Z :=
  let supported_features :=
    Z.lor (Z.lor (Z.lor (Z.lor (Z.lor (flag START) (flag PAUSE)) (flag STOP))
                    (flag STATUS)) (flag STATE)) (flag SEND_COMMAND) in
  let supported_features :=
    if has_config (CONF_RETURN_MODE (_config self))
    then Z.lor supported_features (flag RETURN_HOME) else supported_features in
  let supported_features :=
    if has_config (CONF_FAN_SPEED_DP (_config self))
    then Z.lor supported_features (flag FAN_SPEED) else supported_features in
  let supported_features :=
    if has_config (CONF_BATTERY_DP (_config self))
    then Z.lor supported_features (flag BATTERY) else supported_features in
  let supported_features :=
    if has_config (CONF_LOCATE_DP (_config self))
    then Z.lor supported_features (flag LOCATE) else supported_features in
  supported_features.

(** ** What a call writes *)

(** The writes that a call of the host makes on the device; a status
    update makes none. *)
Definition perform (self : entity) (c : call) : result (list write) :=
  match c with
  | StatusUpdated _ _ => Ok []
  | SendCommand command params now => async_send_command self command params now
  | Start => async_start self
  | Pause => async_pause self
  | ReturnToBase => async_return_to_base self
  | Stop => async_stop self
  | CleanSpot => async_clean_spot self
  | Locate => async_locate self
  | SetFanSpeed fan_speed => async_set_fan_speed self fan_speed
  end.

(** ** Notions used in the statements *)

(** An [int] or a [float]. *)
Definition is_number (v : pyval) : bool :=
  match v with
  | PInt _ | PFloat _ => true
  | _ => false
  end.

(** The four axis rotations on integers; any other mode is the
    identity. *)
Definition rotate_Z (rotation px py : Z) : Z * Z :=
  if rotation =? 0 then (px, - py)
  else if rotation =? 1 then (py, px)
  else if rotation =? 2 then (- px, py)
  else if rotation =? 3 then (- px, - py)
  else (px, py).

(** The string has a comma. *)
Fixpoint has_comma (s : string) : bool :=
  match s with
  | EmptyString => false
  | String c r => Ascii.eqb c ","%char || has_comma r
  end.

(** [",".join(pieces)]. *)
Fixpoint join_comma (pieces : list string) : string :=
  match pieces with
  | [] => EmptyString
  | [p] => p
  | p :: rest => String.append p (String ","%char (join_comma rest))
  end.

(** The data that [__init__] derives from the configuration. *)
Definition same_configuration (self self' : entity) : Prop :=
  _config self' = _config self /\
  _dp_id self' = _dp_id self /\
  _idle_status_list self' = _idle_status_list self /\
  _modes_list self' = _modes_list self /\
  _docked_status_list self' = _docked_status_list self /\
  _fan_speed_list self' = _fan_speed_list self /\
  _position_relative_scale self' = _position_relative_scale self /\
  _position_relative_origin self' = _position_relative_origin self /\
  _position_axis_rotation self' = _position_axis_rotation self /\
  _attrs self' !! MODES_LIST = _attrs self !! MODES_LIST.

(** One converted vertex of [clean_area]: the item unpacks to a pair
    whose absolute position is the vertex. *)
Definition converted_vertex (self : entity) (item vertex : pyval) : Prop :=
  exists x y ax ay,
    py_unpack2 item = Ok (x, y) /\
    calculate_absolute_position self x y = Ok (PInt ax, PInt ay) /\
    vertex = PList [PInt ax; PInt ay].


(** A configuration with the three required options only, as an entry
    that was not filled in through [flow_schema] has it: no returning
    value, no paused value and no datapoint but the primary one. *)
Definition required_config : config :=
  {| CONF_IDLE_STATUS_VALUE := Some "standby,sleep";
     CONF_POWERGO_DP := Some 2;
     CONF_DOCKED_STATUS_VALUE := Some "charging,chargecompleted";
     CONF_RETURNING_STATUS_VALUE := None;
     CONF_BATTERY_DP := None;
     CONF_MODE_DP := None;
     CONF_MODES := None;
     CONF_RETURN_MODE := None;
     CONF_FAN_SPEED_DP := None;
     CONF_FAN_SPEEDS := None;
     CONF_CLEAN_TIME_DP := None;
     CONF_CLEAN_AREA_DP := None;
     CONF_CLEAN_RECORD_DP := None;
     CONF_LOCATE_DP := None;
     CONF_FAULT_DP := None;
     CONF_PAUSED_STATE := None;
     CONF_STOP_STATUS := None;
     CONF_POSITION_BASE64_DP := None;
     CONF_POSITION_RELATIVE_SCALE := None;
     CONF_POSITION_RELATIVE_ORIGIN := None;
     CONF_POSITION_AXIS_ROTATION := None |}.

(** ** The position block in two parts *)

Section PositionParts.
Context {lib : PyLib}.

(** Lines 360-365 of [status_updated], the part of the [try] body that
    does not look at the entity: the element of a decoded array of
    length one; [Ok None] when the array is [None] or has another
    length. *)
Definition decoded_element (position : pyval) : result (option pyval) :=
  decoded_json ← b64decode position ≫= json_loads;
  position_array ←
    (py_get decoded_json "data" (PDict []) ≫= fun data =>
     py_get data "posArray" (PList []));
  match position_array with
  | PNone => Ok None
  | _ =>
      n ← py_len position_array;
      if n =? 1 then Some <$> py_getitem position_array 0 else Ok None
  end.

(** Lines 364 and 366-370: the comparison with the stored position and
    the two assignments. *)
Definition store_position (self : entity) (new_position : pyval) : outcome :=
  let last_position := default PNone (_attrs self !! POSITION) in
  if negb (py_eqb last_position new_position) then
    let self := set_attr self POSITION new_position in
    match get_relative_position self with
    | Raise e => (self, Raise e)
    | Ok None => (self, Ok tt)
    | Ok (Some relative_position) =>
        (set_attr self RELATIVE_POSITION relative_position, Ok tt)
    end
  else (self, Ok tt).

End PositionParts.

(** ** Magnitudes of numbers *)

(** [2^k <= |v|], for an [int] or a finite [float]. *)
Definition at_least_pow2 (v : pyval) (k : Z) : bool :=
  match v with
  | PInt z => if k <? 0 then negb (z =? 0) else 2 ^ k <=? Z.abs z
  | PFloat (S754_finite _ m e) => k <? Z.pos (digits2_pos m) + e
  | _ => false
  end.

(** [|v| < 2^k], for an [int] or a finite [float]. *)
Definition below_pow2 (v : pyval) (k : Z) : bool :=
  match v with
  | PInt z => if k <? 0 then z =? 0 else Z.abs z <? 2 ^ k
  | PFloat (S754_zero _) => true
  | PFloat (S754_finite _ m e) => Z.pos (digits2_pos m) + e <=? k
  | _ => false
  end.

(** A finite [float], or an [int] that a [float] holds exactly. *)
Definition exact_double (v : pyval) : bool :=
  match v with
  | PInt z => Z.abs z <? 2 ^ 53
  | PFloat (S754_zero _) | PFloat (S754_finite _ _ _) => true
  | _ => false
  end.

(** ** Floats as real numbers

    The notions in which the rounding errors of the float operations are
    measured: the real number that a float stands for, the unit
    roundoff, and the location of a number between two integers that
    the rounding functions of [SpecFloat] maintain. *)

Module F64R.
Local Abbreviation pynum := num (only parsing).
Import Reals.
Local Open Scope R_scope.

(** Powers of two. *)
Definition bpow (e : Z) : R := powerRZ 2 e.

(** What a location says about the fractional part. *)
Definition loc_ok (l : location) (f : R) : Prop :=
  match l with
  | loc_Exact => f = 0
  | loc_Inexact Lt => 0 < f < / 2
  | loc_Inexact Eq => f = / 2
  | loc_Inexact Gt => / 2 < f < 1
  end.

(** The record holds the integer part of [x] and the location of its
    fractional part. *)
Definition repr (x : R) (mrs : shr_record) : Prop :=
  (0 <= shr_m mrs)%Z /\ loc_ok (loc_of_shr_record mrs) (x - IZR (shr_m mrs)).

Definition finite (f : spec_float) : bool :=
  match f with
  | S754_zero _ | S754_finite _ _ _ => true
  | _ => false
  end.

Definition sgn (s : bool) (x : R) : R := if s then - x else x.

(** The real number that a finite float stands for. *)
Definition B2R (f : spec_float) : R :=
  match f with
  | S754_finite s m e => sgn s (IZR (Z.pos m) * bpow e)
  | _ => 0
  end.

(** The unit roundoff and the largest error of a subnormal result. *)
Definition u : R := bpow (-53).
Definition eta : R := bpow (-1075).

(** An [int], or a [float] that is finite. *)
Definition num_ok (v : pyval) : bool :=
  match v with
  | PInt _ => true
  | PFloat f => finite f
  | _ => false
  end.

Definition floaty (v : pyval) : bool :=
  match v with
  | PFloat _ => true
  | _ => false
  end.

(** The value of a number. *)
Definition V (v : pyval) : R :=
  match v with
  | PInt z => IZR z
  | PFloat f => B2R f
  | _ => 0
  end.

Definition Vn (n : pynum) : R :=
  match n with
  | NInt z => IZR z
  | NFloat f => B2R f
  end.

Definition numn_ok (n : pynum) : bool :=
  match n with
  | NInt _ => true
  | NFloat f => finite f
  end.

(** The divisor of the way back: an integer other than zero that a float
    holds exactly, or a float other than a zero. *)
Definition divisor_ok (s : pyval) : bool :=
  match s with
  | PInt z => negb (z =? 0)%Z && (Z.abs z <? 2 ^ 53)%Z
  | PFloat (S754_finite _ _ _) => true
  | _ => false
  end.

(** The float is within a quarter of the integer. *)
Definition near (q : spec_float) (c : Z) : Prop :=
  finite q = true /\ Rabs (B2R q - IZR c) <= / 4.

End F64R.

(** * Properties *)

(** ** Attribute assignments *)

Lemma state_set_state self v : _state (set_state self v) = v.
Proof. by destruct self. Qed.
Lemma state_set_battery_level self v : _state (set_battery_level self v) = _state self.
Proof. by destruct self. Qed.
Lemma state_set_attrs self v : _state (set_attrs self v) = _state self.
Proof. by destruct self. Qed.
Lemma state_set_fan_speed self v : _state (set_fan_speed self v) = _state self.
Proof. by destruct self. Qed.
Lemma state_set_cleaning_mode self v : _state (set_cleaning_mode self v) = _state self.
Proof. by destruct self. Qed.

Lemma attrs_set_state self v : _attrs (set_state self v) = _attrs self.
Proof. by destruct self. Qed.
Lemma attrs_set_battery_level self v : _attrs (set_battery_level self v) = _attrs self.
Proof. by destruct self. Qed.
Lemma attrs_set_attrs self v : _attrs (set_attrs self v) = v.
Proof. by destruct self. Qed.
Lemma attrs_set_fan_speed self v : _attrs (set_fan_speed self v) = _attrs self.
Proof. by destruct self. Qed.
Lemma attrs_set_cleaning_mode self v : _attrs (set_cleaning_mode self v) = _attrs self.
Proof. by destruct self. Qed.
Lemma attrs_set_status self v : _attrs (set_status self v) = _attrs self.
Proof. by destruct self. Qed.

Lemma config_set_state self v : _config (set_state self v) = _config self.
Proof. by destruct self. Qed.
Lemma config_set_battery_level self v : _config (set_battery_level self v) = _config self.
Proof. by destruct self. Qed.
Lemma config_set_attrs self v : _config (set_attrs self v) = _config self.
Proof. by destruct self. Qed.
Lemma config_set_fan_speed self v : _config (set_fan_speed self v) = _config self.
Proof. by destruct self. Qed.
Lemma config_set_cleaning_mode self v : _config (set_cleaning_mode self v) = _config self.
Proof. by destruct self. Qed.

Lemma status_set_state self v : _status (set_state self v) = _status self.
Proof. by destruct self. Qed.
Lemma status_set_battery_level self v : _status (set_battery_level self v) = _status self.
Proof. by destruct self. Qed.
Lemma status_set_attrs self v : _status (set_attrs self v) = _status self.
Proof. by destruct self. Qed.
Lemma status_set_fan_speed self v : _status (set_fan_speed self v) = _status self.
Proof. by destruct self. Qed.
Lemma status_set_cleaning_mode self v : _status (set_cleaning_mode self v) = _status self.
Proof. by destruct self. Qed.

Create Rewrite HintDb entity.
#[global] Hint Rewrite
  state_set_state state_set_battery_level state_set_attrs state_set_fan_speed
  state_set_cleaning_mode
  attrs_set_state attrs_set_battery_level attrs_set_attrs attrs_set_fan_speed
  attrs_set_cleaning_mode attrs_set_status
  config_set_state config_set_battery_level config_set_attrs config_set_fan_speed
  config_set_cleaning_mode
  status_set_state status_set_battery_level status_set_attrs status_set_fan_speed
  status_set_cleaning_mode : entity.

(** Reading a datapoint only looks at the cache. *)
Lemma dps_eq self self' dp :
  _status self' = _status self -> dps self' dp = dps self dp.
Proof. unfold dps. by intros ->. Qed.

Lemma dps_conf_eq self self' o :
  _status self' = _status self -> dps_conf self' o = dps_conf self o.
Proof. intros H. destruct o as [dp|]; [apply (dps_eq _ _ _ H) | done]. Qed.

Lemma set_attrs_id self : set_attrs self (_attrs self) = self.
Proof. by destruct self. Qed.

(** ** What a status update leaves alone *)

Lemma same_setup_refl self : same_setup self self.
Proof. by repeat split. Qed.

Lemma same_setup_trans a b c : same_setup a b -> same_setup b c -> same_setup a c.
Proof. unfold same_setup. intros. destruct_and!. repeat split; congruence. Qed.

Ltac by_cases_on self := repeat case_match; destruct self; repeat split; done.

Lemma setup_update_battery_level self : same_setup self (update_battery_level self).
Proof. unfold update_battery_level. by_cases_on self. Qed.

Lemma setup_update_cleaning_mode self : same_setup self (update_cleaning_mode self).
Proof. unfold update_cleaning_mode. by_cases_on self. Qed.

Lemma setup_update_fan_speed self : same_setup self (update_fan_speed self).
Proof. unfold update_fan_speed. by_cases_on self. Qed.

Lemma setup_update_clean_attr key conf self :
  same_setup self (update_clean_attr key conf self).
Proof. unfold update_clean_attr. by_cases_on self. Qed.

Lemma setup_update_fault self : same_setup self (update_fault self).
Proof. unfold update_fault. by_cases_on self. Qed.

Lemma setup_reset_path prev self : same_setup self (reset_path prev self).
Proof. unfold reset_path. by_cases_on self. Qed.

Lemma setup_set_state self v : same_setup self (set_state self v).
Proof. by_cases_on self. Qed.

Lemma setup_set_attrs self v : same_setup self (set_attrs self v).
Proof. by_cases_on self. Qed.

Ltac setup_chain :=
  repeat (eapply same_setup_trans;
    [| first [ apply setup_update_fault | apply setup_update_clean_attr
             | apply setup_update_fan_speed | apply setup_update_cleaning_mode
             | apply setup_update_battery_level | apply setup_reset_path
             | apply setup_set_state | apply setup_set_attrs ] ]);
  apply same_setup_refl.

Lemma setup_update_attributes self : same_setup self (update_attributes self).
Proof. unfold update_attributes. setup_chain. Qed.

Lemma fault_nonzero_setup self self' :
  same_setup self self' -> fault_nonzero self' = fault_nonzero self.
Proof.
  intros (Hc & Hs & _). unfold fault_nonzero. rewrite Hc.
  destruct (CONF_FAULT_DP _); [|done]. by rewrite (dps_eq _ _ _ Hs).
Qed.

(** The position block only assigns entries of the attribute dictionary. *)
Lemma decode_position_attrs_only {lib : PyLib} self position :
  exists attrs, (decode_position self position).1 = set_attrs self attrs.
Proof.
  unfold decode_position.
  repeat case_match; simpl;
    first [ by exists (_attrs self); rewrite set_attrs_id
          | destruct self; by eexists ].
Qed.

Lemma update_position_attrs_only {lib : PyLib} self status :
  exists attrs, (update_position self status).1 = set_attrs self attrs.
Proof.
  unfold update_position.
  destruct (has_config _); [|by exists (_attrs self); rewrite set_attrs_id].
  case_bool_decide; [|by exists (_attrs self); rewrite set_attrs_id].
  destruct (decode_position_attrs_only self
    (dp_value (dps_conf self (CONF_POSITION_BASE64_DP (_config self))))) as [a Ha].
  destruct (decode_position _ _) as [self' [[]|e]]; simpl in *; subst;
    try destruct (position_except e); by exists a.
Qed.

(** ** The state after a status update *)

Lemma state_update_position {lib : PyLib} self status :
  _state (update_position self status).1 = _state self.
Proof.
  destruct (update_position_attrs_only self status) as [a ->]. by destruct self.
Qed.

Lemma state_reset_path prev self : _state (reset_path prev self) = _state self.
Proof. unfold reset_path. by_cases_on self. Qed.

Lemma state_update_battery_level self :
  _state (update_battery_level self) = _state self.
Proof. unfold update_battery_level. by_cases_on self. Qed.

Lemma state_update_cleaning_mode self :
  _state (update_cleaning_mode self) = _state self.
Proof. unfold update_cleaning_mode. by_cases_on self. Qed.

Lemma state_update_fan_speed self : _state (update_fan_speed self) = _state self.
Proof. unfold update_fan_speed. by_cases_on self. Qed.

Lemma state_update_clean_attr key conf self :
  _state (update_clean_attr key conf self) = _state self.
Proof. unfold update_clean_attr. by_cases_on self. Qed.

Lemma state_update_fault self :
  _state (update_fault self) =
    if fault_nonzero self then Some STATE_ERROR else _state self.
Proof.
  unfold update_fault, fault_nonzero, set_attr, dps_conf.
  destruct (CONF_FAULT_DP (_config self)) as [dp|]; simpl; [|done].
  rewrite attrs_set_attrs, lookup_insert_eq. simpl.
  destruct (negb _); by destruct self.
Qed.

Lemma state_update_attributes self :
  _state (update_attributes self) =
    if fault_nonzero self then Some STATE_ERROR else _state self.
Proof.
  unfold update_attributes. rewrite state_update_fault.
  rewrite !state_update_clean_attr, state_update_fan_speed,
    state_update_cleaning_mode, state_update_battery_level.
  rewrite (fault_nonzero_setup self); [done | setup_chain].
Qed.

(** The state that [status_updated] leaves, when the resolution of lines
    315-324 does not fail on a missing option. *)
Lemma state_status_updated {lib : PyLib} self status resolved :
  resolve_state self (py_str (dps self (_dp_id self))) = Ok resolved ->
  _state (status_updated self status).1 =
    Some (if fault_nonzero self then STATE_ERROR else resolved).
Proof.
  intros Hres. unfold status_updated. rewrite Hres.
  rewrite state_update_position, state_update_attributes, state_reset_path,
    state_set_state.
  rewrite (fault_nonzero_setup self); [by destruct (fault_nonzero self) | setup_chain].
Qed.

(** With the returning and paused values configured (the schema gives
    both a default) the resolution never fails, and it is by first
    match. *)
Lemma resolve_state_first_match self (state_value returning paused : string) :
  CONF_RETURNING_STATUS_VALUE (_config self) = Some returning ->
  CONF_PAUSED_STATE (_config self) = Some paused ->
  exists resolved : vacuum_state,
    resolve_state self state_value = Ok resolved /\
    (state_value ∈ _idle_status_list self -> resolved = STATE_IDLE) /\
    (state_value ∉ _idle_status_list self ->
     state_value ∈ _docked_status_list self -> resolved = STATE_DOCKED) /\
    (state_value ∉ _idle_status_list self ->
     state_value ∉ _docked_status_list self ->
     state_value = returning -> resolved = STATE_RETURNING) /\
    (state_value ∉ _idle_status_list self ->
     state_value ∉ _docked_status_list self ->
     state_value <> returning -> state_value = paused -> resolved = STATE_PAUSED) /\
    (state_value ∉ _idle_status_list self ->
     state_value ∉ _docked_status_list self ->
     state_value <> returning -> state_value <> paused ->
     resolved = STATE_CLEANING).
Proof.
  intros Hret Hpau. unfold resolve_state. rewrite Hret, Hpau. simpl.
  case_bool_decide as Hidle; [eexists; split; [done|]; naive_solver|].
  case_bool_decide as Hdock; [eexists; split; [done|]; naive_solver|].
  destruct (String.eqb_spec state_value returning) as [Hr|Hr];
    [eexists; split; [done|]; naive_solver|].
  destruct (String.eqb_spec state_value paused) as [Hp|Hp];
    eexists; (split; [done|]); naive_solver.
Qed.

(** C1: the state is resolved from the string form of the primary
    datapoint by first match: Idle when the value is in the idle list,
    else Docked when it is in the docked list, else Returning when it is
    the returning value, else Paused when it is the paused value, else
    Cleaning.  The state that the update leaves is this one, unless the
    fault override replaces it by Error. *)
Theorem status_updated_first_match {lib : PyLib} (self : entity)
    (status : gmap string dpval) (returning paused : string) :
  CONF_RETURNING_STATUS_VALUE (_config self) = Some returning ->
  CONF_PAUSED_STATE (_config self) = Some paused ->
  let state_value := py_str (dps self (_dp_id self)) in
  exists resolved : vacuum_state,
    resolve_state self state_value = Ok resolved /\
    _state (status_updated self status).1 =
      Some (if fault_nonzero self then STATE_ERROR else resolved) /\
    (state_value ∈ _idle_status_list self -> resolved = STATE_IDLE) /\
    (state_value ∉ _idle_status_list self ->
     state_value ∈ _docked_status_list self -> resolved = STATE_DOCKED) /\
    (state_value ∉ _idle_status_list self ->
     state_value ∉ _docked_status_list self ->
     state_value = returning -> resolved = STATE_RETURNING) /\
    (state_value ∉ _idle_status_list self ->
     state_value ∉ _docked_status_list self ->
     state_value <> returning -> state_value = paused -> resolved = STATE_PAUSED) /\
    (state_value ∉ _idle_status_list self ->
     state_value ∉ _docked_status_list self ->
     state_value <> returning -> state_value <> paused ->
     resolved = STATE_CLEANING).
Proof.
  intros Hret Hpau state_value.
  destruct (resolve_state_first_match self state_value returning paused Hret Hpau)
    as (resolved & Hres & Hcases).
  exists resolved. split; [done|]. split; [|done].
  by apply state_status_updated.
Qed.

(** A docked vacuum reports "docking": the update resolves Returning. *)
Lemma status_updated_first_match_witness :
  let self := sample_entity {[ "5" := DStr "docking"; "28" := DInt 0 ]}
                (Some STATE_DOCKED) {[ PATH := PList [] ]} in
  exists resolved : vacuum_state,
    resolve_state self "docking" = Ok resolved /\
    _state (status_updated (lib := ref_lib) self ∅).1 = Some resolved /\
    resolved = STATE_RETURNING.
Proof.
  intros self.
  destruct (status_updated_first_match (lib := ref_lib) self ∅ "docking" "paused"
              eq_refl eq_refl) as (resolved & Hres & Hst & _ & _ & Hret & _).
  exists resolved. split; [exact Hres|]. split; [exact Hst|].
  apply Hret; [| | reflexivity]; vm_compute; intros H; by repeat (inversion H as [|? ? ? H']; clear H; rename H' into H).
Defined.

(** C2: when a fault datapoint is configured and its value is not zero
    (in Python's sense of [!= 0]), the update leaves the state Error,
    whatever state the first-match resolution selected. *)
Theorem fault_forces_error {lib : PyLib} (self : entity)
    (status : gmap string dpval) (returning paused : string) (dp : Z) :
  CONF_RETURNING_STATUS_VALUE (_config self) = Some returning ->
  CONF_PAUSED_STATE (_config self) = Some paused ->
  CONF_FAULT_DP (_config self) = Some dp ->
  py_eqb (dp_value (dps self dp)) (PInt 0) = false ->
  _state (status_updated self status).1 = Some STATE_ERROR.
Proof.
  intros Hret Hpau Hdp Hne.
  destruct (resolve_state_first_match self (py_str (dps self (_dp_id self)))
              returning paused Hret Hpau) as (resolved & Hres & _).
  rewrite (state_status_updated self status resolved Hres).
  unfold fault_nonzero. by rewrite Hdp, Hne.
Qed.

(** The vacuum reports "charging" (Docked by first match) together with
    the fault code 4. *)
Lemma fault_forces_error_witness :
  _state (status_updated (lib := ref_lib)
            (sample_entity {[ "5" := DStr "charging"; "28" := DInt 4 ]}
               (Some STATE_DOCKED) {[ PATH := PList [] ]}) ∅).1
  = Some STATE_ERROR.
Proof.
  apply (fault_forces_error (lib := ref_lib) _ _ "docking" "paused" 28);
    reflexivity.
Defined.

(** ** The attribute dictionary after a status update *)

Lemma config_update_battery_level self :
  _config (update_battery_level self) = _config self.
Proof. apply setup_update_battery_level. Qed.
Lemma config_update_cleaning_mode self :
  _config (update_cleaning_mode self) = _config self.
Proof. apply setup_update_cleaning_mode. Qed.
Lemma config_update_fan_speed self : _config (update_fan_speed self) = _config self.
Proof. apply setup_update_fan_speed. Qed.
Lemma config_update_clean_attr key conf self :
  _config (update_clean_attr key conf self) = _config self.
Proof. apply setup_update_clean_attr. Qed.
Lemma config_reset_path prev self : _config (reset_path prev self) = _config self.
Proof. apply setup_reset_path. Qed.

Lemma dps_conf_setup self self' o :
  same_setup self self' -> dps_conf self' o = dps_conf self o.
Proof. intros (_ & Hs & _). by apply dps_conf_eq. Qed.

Lemma dps_conf_update_battery_level self o :
  dps_conf (update_battery_level self) o = dps_conf self o.
Proof. apply dps_conf_setup, setup_update_battery_level. Qed.
Lemma dps_conf_update_cleaning_mode self o :
  dps_conf (update_cleaning_mode self) o = dps_conf self o.
Proof. apply dps_conf_setup, setup_update_cleaning_mode. Qed.
Lemma dps_conf_update_fan_speed self o :
  dps_conf (update_fan_speed self) o = dps_conf self o.
Proof. apply dps_conf_setup, setup_update_fan_speed. Qed.
Lemma dps_conf_update_clean_attr key conf self o :
  dps_conf (update_clean_attr key conf self) o = dps_conf self o.
Proof. apply dps_conf_setup, setup_update_clean_attr. Qed.
Lemma dps_conf_reset_path prev self o :
  dps_conf (reset_path prev self) o = dps_conf self o.
Proof. apply dps_conf_setup, setup_reset_path. Qed.
Lemma dps_conf_set_state self v o : dps_conf (set_state self v) o = dps_conf self o.
Proof. apply dps_conf_setup, setup_set_state. Qed.

#[global] Hint Rewrite
  config_update_battery_level config_update_cleaning_mode config_update_fan_speed
  config_update_clean_attr config_reset_path
  dps_conf_update_battery_level dps_conf_update_cleaning_mode
  dps_conf_update_fan_speed dps_conf_update_clean_attr dps_conf_reset_path
  dps_conf_set_state : entity.

Ltac key_ne :=
  first [ done | by apply not_eq_sym | by compute ].

Lemma attrs_update_battery_level self :
  _attrs (update_battery_level self) = _attrs self.
Proof. unfold update_battery_level. by_cases_on self. Qed.

Lemma attrs_update_fan_speed self : _attrs (update_fan_speed self) = _attrs self.
Proof. unfold update_fan_speed. by_cases_on self. Qed.

Lemma attrs_update_cleaning_mode self :
  _attrs (update_cleaning_mode self) =
    if has_config (CONF_MODES (_config self))
    then <[ MODE := dp_value (dps_conf self (CONF_MODE_DP (_config self))) ]> (_attrs self)
    else _attrs self.
Proof.
  unfold update_cleaning_mode, set_attr. destruct self; simpl. by case_match.
Qed.

Lemma attrs_update_clean_attr key conf self :
  _attrs (update_clean_attr key conf self) =
    if has_config (conf (_config self))
    then <[ key := dp_value (dps_conf self (conf (_config self))) ]> (_attrs self)
    else _attrs self.
Proof. unfold update_clean_attr, set_attr. by_cases_on self. Qed.

Lemma attrs_update_fault self :
  _attrs (update_fault self) =
    if has_config (CONF_FAULT_DP (_config self))
    then <[ FAULT := dp_value (dps_conf self (CONF_FAULT_DP (_config self))) ]> (_attrs self)
    else _attrs self.
Proof. unfold update_fault, set_attr. by_cases_on self. Qed.

Lemma attrs_reset_path prev self :
  _attrs (reset_path prev self) =
    if bool_decide (prev = Some STATE_DOCKED)
       && negb (bool_decide (_state self = Some STATE_DOCKED))
    then <[ PATH := PList [] ]> (_attrs self)
    else _attrs self.
Proof. unfold reset_path, set_attr. by_cases_on self. Qed.

(** The entry that lines 330-354 leave under [key]: each block assigns
    its own key when its gate is configured. *)
Lemma attrs_update_attributes self key :
  _attrs (update_attributes self) !! key =
    let config := _config self in
    if has_config (CONF_FAULT_DP config) && bool_decide (key = FAULT)
    then Some (dp_value (dps_conf self (CONF_FAULT_DP config)))
    else if has_config (CONF_CLEAN_RECORD_DP config) && bool_decide (key = CLEAN_RECORD)
    then Some (dp_value (dps_conf self (CONF_CLEAN_RECORD_DP config)))
    else if has_config (CONF_CLEAN_AREA_DP config) && bool_decide (key = CLEAN_AREA)
    then Some (dp_value (dps_conf self (CONF_CLEAN_AREA_DP config)))
    else if has_config (CONF_CLEAN_TIME_DP config) && bool_decide (key = CLEAN_TIME)
    then Some (dp_value (dps_conf self (CONF_CLEAN_TIME_DP config)))
    else if has_config (CONF_MODES config) && bool_decide (key = MODE)
    then Some (dp_value (dps_conf self (CONF_MODE_DP config)))
    else _attrs self !! key.
Proof.
  unfold update_attributes. cbv zeta.
  rewrite attrs_update_fault, !attrs_update_clean_attr, attrs_update_fan_speed,
    attrs_update_cleaning_mode, attrs_update_battery_level.
  autorewrite with entity.
  repeat match goal with
  | |- context [has_config ?o] => destruct (has_config o); simpl
  | |- context [bool_decide (key = ?k)] =>
      destruct (bool_decide_reflect (key = k)); subst; simpl
  end;
  repeat first [ rewrite lookup_insert_eq
               | rewrite lookup_insert_ne by key_ne ];
  done.
Qed.

Lemma attrs_decode_position {lib : PyLib} self position key :
  key <> POSITION -> key <> RELATIVE_POSITION ->
  _attrs (decode_position self position).1 !! key = _attrs self !! key.
Proof.
  intros H1 H2. unfold decode_position.
  repeat case_match; simpl; unfold set_attr;
    rewrite ?attrs_set_attrs;
    repeat (rewrite lookup_insert_ne by key_ne); done.
Qed.

Lemma attrs_update_position {lib : PyLib} self status key :
  key <> POSITION -> key <> RELATIVE_POSITION ->
  _attrs (update_position self status).1 !! key = _attrs self !! key.
Proof.
  intros H1 H2. unfold update_position.
  destruct (has_config _); [|done]. case_bool_decide; [|done].
  pose proof (attrs_decode_position self
    (dp_value (dps_conf self (CONF_POSITION_BASE64_DP (_config self)))) key H1 H2) as Hd.
  destruct (decode_position _ _) as [self' [[]|e]]; simpl in *;
    try destruct (position_except e); done.
Qed.

(** The path after a status update: reset when the previous state was
    Docked and the resolved state is not, as it was otherwise. *)
Lemma path_status_updated {lib : PyLib} self status resolved :
  resolve_state self (py_str (dps self (_dp_id self))) = Ok resolved ->
  _attrs (status_updated self status).1 !! PATH =
    if bool_decide (_state self = Some STATE_DOCKED)
       && negb (bool_decide (resolved = STATE_DOCKED))
    then Some (PList [])
    else _attrs self !! PATH.
Proof.
  intros Hres. unfold status_updated. rewrite Hres.
  rewrite attrs_update_position by done.
  rewrite attrs_update_attributes. cbv zeta.
  rewrite !andb_false_r by done. simpl.
  rewrite attrs_reset_path, state_set_state, attrs_set_state.
  destruct (bool_decide_reflect (_state self = Some STATE_DOCKED)); simpl; [|done].
  destruct (bool_decide_reflect (Some resolved = Some STATE_DOCKED)) as [E|E];
    destruct (bool_decide_reflect (resolved = STATE_DOCKED)) as [E'|E']; simpl;
    try done; try congruence.
  by rewrite lookup_insert_eq.
Qed.

(** ** Battery level, cleaning mode and fan speed after a status update *)

Lemma levels_update_clean_attr key conf self :
  _battery_level (update_clean_attr key conf self) = _battery_level self /\
  _cleaning_mode (update_clean_attr key conf self) = _cleaning_mode self /\
  _fan_speed (update_clean_attr key conf self) = _fan_speed self.
Proof. unfold update_clean_attr. by_cases_on self. Qed.

Lemma levels_update_fault self :
  _battery_level (update_fault self) = _battery_level self /\
  _cleaning_mode (update_fault self) = _cleaning_mode self /\
  _fan_speed (update_fault self) = _fan_speed self.
Proof. unfold update_fault. by_cases_on self. Qed.

Lemma levels_update_fan_speed self :
  _battery_level (update_fan_speed self) = _battery_level self /\
  _cleaning_mode (update_fan_speed self) = _cleaning_mode self /\
  _fan_speed (update_fan_speed self) =
    if has_config (CONF_FAN_SPEEDS (_config self))
    then dp_value (dps_conf self (CONF_FAN_SPEED_DP (_config self)))
    else PStr EmptyString.
Proof. unfold update_fan_speed. destruct self; simpl. by case_match. Qed.

Lemma levels_update_cleaning_mode self :
  _battery_level (update_cleaning_mode self) = _battery_level self /\
  _cleaning_mode (update_cleaning_mode self) =
    if has_config (CONF_MODES (_config self))
    then dp_value (dps_conf self (CONF_MODE_DP (_config self)))
    else PStr EmptyString.
Proof. unfold update_cleaning_mode. destruct self; simpl. by case_match. Qed.

Lemma levels_update_battery_level self :
  _battery_level (update_battery_level self) =
    if has_config (CONF_BATTERY_DP (_config self))
    then dp_value (dps_conf self (CONF_BATTERY_DP (_config self)))
    else _battery_level self.
Proof. unfold update_battery_level. destruct self; simpl. by case_match. Qed.

Lemma levels_update_attributes self :
  let config := _config self in
  _battery_level (update_attributes self) =
    (if has_config (CONF_BATTERY_DP config)
     then dp_value (dps_conf self (CONF_BATTERY_DP config))
     else _battery_level self) /\
  _cleaning_mode (update_attributes self) =
    (if has_config (CONF_MODES config)
     then dp_value (dps_conf self (CONF_MODE_DP config))
     else PStr EmptyString) /\
  _fan_speed (update_attributes self) =
    (if has_config (CONF_FAN_SPEEDS config)
     then dp_value (dps_conf self (CONF_FAN_SPEED_DP config))
     else PStr EmptyString).
Proof.
  unfold update_attributes. cbv zeta.
  repeat match goal with
  | |- context [update_fault ?s] =>
      destruct (levels_update_fault s) as (-> & -> & ->)
  | |- context [update_clean_attr ?k ?c ?s] =>
      destruct (levels_update_clean_attr k c s) as (-> & -> & ->)
  end.
  destruct (levels_update_fan_speed (update_cleaning_mode (update_battery_level self)))
    as (-> & -> & ->).
  destruct (levels_update_cleaning_mode (update_battery_level self)) as (-> & ->).
  rewrite levels_update_battery_level.
  by autorewrite with entity.
Qed.

Lemma levels_set_attrs self v :
  _battery_level (set_attrs self v) = _battery_level self /\
  _cleaning_mode (set_attrs self v) = _cleaning_mode self /\
  _fan_speed (set_attrs self v) = _fan_speed self.
Proof. by destruct self. Qed.

Lemma levels_set_state self v :
  _battery_level (set_state self v) = _battery_level self /\
  _cleaning_mode (set_state self v) = _cleaning_mode self /\
  _fan_speed (set_state self v) = _fan_speed self.
Proof. by destruct self. Qed.

Lemma levels_reset_path prev self :
  _battery_level (reset_path prev self) = _battery_level self /\
  _cleaning_mode (reset_path prev self) = _cleaning_mode self /\
  _fan_speed (reset_path prev self) = _fan_speed self.
Proof. unfold reset_path. by_cases_on self. Qed.

(** What a status update leaves in every derived attribute. *)
Lemma derived_status_updated {lib : PyLib} self status resolved :
  resolve_state self (py_str (dps self (_dp_id self))) = Ok resolved ->
  let config := _config self in
  let self' := (status_updated self status).1 in
  _battery_level self' =
    (if has_config (CONF_BATTERY_DP config)
     then dp_value (dps_conf self (CONF_BATTERY_DP config))
     else _battery_level self) /\
  _cleaning_mode self' =
    (if has_config (CONF_MODES config)
     then dp_value (dps_conf self (CONF_MODE_DP config))
     else PStr EmptyString) /\
  _fan_speed self' =
    (if has_config (CONF_FAN_SPEEDS config)
     then dp_value (dps_conf self (CONF_FAN_SPEED_DP config))
     else PStr EmptyString) /\
  forall key, key <> POSITION -> key <> RELATIVE_POSITION -> key <> PATH ->
    _attrs self' !! key = _attrs (update_attributes self) !! key.
Proof.
  intros Hres config self'. subst self'. unfold status_updated. rewrite Hres.
  set (self1 := reset_path (_state self) (set_state self (Some resolved))).
  assert (Hsetup : same_setup self self1) by (unfold self1; setup_chain).
  destruct (update_position_attrs_only (update_attributes self1) status) as [a Ha].
  rewrite Ha.
  destruct (levels_set_attrs (update_attributes self1) a) as (-> & -> & ->).
  destruct (levels_update_attributes self1) as (-> & -> & ->).
  destruct (levels_reset_path (_state self) (set_state self (Some resolved)))
    as (Hb & _ & _). fold self1 in Hb. rewrite Hb.
  destruct (levels_set_state self (Some resolved)) as (-> & _ & _).
  destruct Hsetup as (Hc & Hs & _). rewrite Hc.
  rewrite !(dps_conf_eq _ _ _ Hs).
  repeat split; try done.
  intros key H1 H2 H3. rewrite <- Ha, attrs_update_position by done.
  rewrite !attrs_update_attributes. cbv zeta. rewrite Hc.
  rewrite !(dps_conf_eq _ _ _ Hs).
  unfold self1. rewrite attrs_reset_path, attrs_set_state.
  repeat case_match; try done; by rewrite lookup_insert_ne by key_ne.
Qed.

Ltac decide_keys :=
  repeat match goal with
  | |- context [bool_decide (?a = ?b)] =>
      first [ rewrite (bool_decide_eq_true_2 (a = b)) by reflexivity
            | rewrite (bool_decide_eq_false_2 (a = b)) by (by compute) ]
  end;
  rewrite ?andb_true_r, ?andb_false_r.

(** C7 (as amended): battery level, clean time, clean area, clean record
    and fault code are assigned exactly when their own datapoint option
    is configured, and are left untouched otherwise.  The cleaning mode
    is gated on the option that lists the modes, and the fan speed on the
    option that lists the fan speeds, not on their datapoint options:
    with the list configured the attribute is assigned the value read
    through the datapoint option ([None] when that one is not
    configured); without it the mode entry is left untouched and both
    fields are the empty string. *)
Theorem derived_attributes_gates {lib : PyLib} (self : entity)
    (status : gmap string dpval) (resolved : vacuum_state) :
  resolve_state self (py_str (dps self (_dp_id self))) = Ok resolved ->
  let config := _config self in
  let self' := (status_updated self status).1 in
  let value conf := dp_value (dps_conf self (conf config)) in
  _battery_level self' =
    (if has_config (CONF_BATTERY_DP config) then value CONF_BATTERY_DP
     else _battery_level self) /\
  _cleaning_mode self' =
    (if has_config (CONF_MODES config) then value CONF_MODE_DP
     else PStr EmptyString) /\
  _attrs self' !! MODE =
    (if has_config (CONF_MODES config) then Some (value CONF_MODE_DP)
     else _attrs self !! MODE) /\
  _fan_speed self' =
    (if has_config (CONF_FAN_SPEEDS config) then value CONF_FAN_SPEED_DP
     else PStr EmptyString) /\
  _attrs self' !! CLEAN_TIME =
    (if has_config (CONF_CLEAN_TIME_DP config) then Some (value CONF_CLEAN_TIME_DP)
     else _attrs self !! CLEAN_TIME) /\
  _attrs self' !! CLEAN_AREA =
    (if has_config (CONF_CLEAN_AREA_DP config) then Some (value CONF_CLEAN_AREA_DP)
     else _attrs self !! CLEAN_AREA) /\
  _attrs self' !! CLEAN_RECORD =
    (if has_config (CONF_CLEAN_RECORD_DP config) then Some (value CONF_CLEAN_RECORD_DP)
     else _attrs self !! CLEAN_RECORD) /\
  _attrs self' !! FAULT =
    (if has_config (CONF_FAULT_DP config) then Some (value CONF_FAULT_DP)
     else _attrs self !! FAULT).
Proof.
  intros Hres config self' value.
  destruct (derived_status_updated self status resolved Hres)
    as (Hb & Hm & Hf & Hattrs).
  fold config in Hb, Hm, Hf. fold self' in Hb, Hm, Hf, Hattrs.
  split; [exact Hb|]. split; [exact Hm|].
  rewrite !Hattrs by (by compute).
  rewrite !attrs_update_attributes. cbv zeta. fold config. unfold value.
  decide_keys.
  split; [done|]. split; [exact Hf|].
  repeat split; repeat case_match; done.
Qed.

(** With the defaults of the schema and the battery datapoint 6: the
    battery level is the value of datapoint 6, and no clean-time entry
    appears because that datapoint is not configured. *)
Lemma derived_attributes_gates_witness :
  let self := sample_entity {[ "5" := DStr "standby"; "6" := DInt 87 ]} None
                {[ PATH := PList [] ]} in
  let self' := (status_updated (lib := ref_lib) self {[ "6" := DInt 87 ]}).1 in
  _battery_level self' = PInt 87 /\ _attrs self' !! CLEAN_TIME = None.
Proof.
  intros self self'.
  destruct (derived_attributes_gates (lib := ref_lib) self {[ "6" := DInt 87 ]}
              STATE_IDLE eq_refl) as (Hb & _ & _ & _ & Ht & _).
  split; [exact Hb | exact Ht].
Defined.

(** C7 as stated fails for the cleaning mode, in both directions.  With
    the mode list of the schema's default and no mode datapoint
    configured, the update emits the cleaning-mode attribute all the
    same, with the value [None].  With the mode datapoint 3 configured
    and carrying "smart", but no mode list, the attribute is not
    emitted. *)
Lemma cleaning_mode_gate_counterexample :
  let cache : gmap string dpval := {[ "5" := DStr "standby"; "3" := DStr "smart" ]} in
  let updated (config_entry : config) :=
    started config_entry [StatusUpdated cache cache] in
  let listed := make_config (Some "smart,wall_follow,spiral,single") None None None None in
  let bound := make_config None (Some 3) None None None in
  (CONF_MODE_DP listed = None /\ _attrs (updated listed) !! MODE = Some PNone) /\
  (CONF_MODE_DP bound = Some 3 /\ _attrs (updated bound) !! MODE = None).
Proof. vm_compute. by repeat split. Qed.

(** ** The path across a run *)

Lemma path_step {lib : PyLib} self c :
  _attrs self !! PATH = Some (PList []) ->
  _attrs (step self c) !! PATH = Some (PList []).
Proof.
  intros Hpath. destruct c as [cache status| | | | | | | |]; simpl; try done.
  set (self0 := set_status self cache).
  assert (H0 : _attrs self0 !! PATH = Some (PList []))
    by (unfold self0; by rewrite attrs_set_status).
  destruct (resolve_state self0 (py_str (dps self0 (_dp_id self0)))) as [resolved|e] eqn:Hres.
  - rewrite (path_status_updated _ _ _ Hres). by case_match.
  - unfold status_updated. by rewrite Hres.
Qed.

Lemma path_init {lib : PyLib} config_entry switchid self :
  __init__ config_entry switchid = Ok self ->
  _attrs self !! PATH = Some (PList []).
Proof.
  unfold __init__. intros H.
  repeat match type of H with
  | (?r ≫= _) = Ok _ => destruct r; simpl in H; [|discriminate]
  end.
  injection H as <-. simpl. by rewrite lookup_insert_eq.
Qed.

(** C10: the path attribute is the empty list after construction and
    after every sequence of status updates and commands: the only
    assignment to it resets it, and nothing appends to it. *)
Theorem path_always_empty {lib : PyLib} (config_entry : config) (switchid : Z)
    (self : entity) (calls : list call) :
  __init__ config_entry switchid = Ok self ->
  _attrs (run self calls) !! PATH = Some (PList []).
Proof.
  intros Hinit. apply path_init in Hinit. unfold run.
  revert self Hinit. induction calls as [|c calls IH]; intros self Hpath; simpl.
  - exact Hpath.
  - apply IH. by apply path_step.
Qed.

(** A docked vacuum leaves the dock, reports a position and is sent a
    command. *)
Lemma path_always_empty_witness :
  exists self,
    __init__ (lib := ref_lib) sample_config 5 = Ok self /\
    _attrs (run (lib := ref_lib) self
              [ StatusUpdated {[ "5" := DStr "charging" ]} {[ "5" := DStr "charging" ]};
                StatusUpdated
                  {[ "5" := DStr "smart"; "121" := DStr "eyJkYXRhIjp7InBvc0FycmF5IjpbWzEsMl1dfX0=" ]}
                  {[ "121" := DStr "eyJkYXRhIjp7InBvc0FycmF5IjpbWzEsMl1dfX0=" ]};
                SendCommand "clean_spot" ParamsNone 1000 ]) !! PATH
    = Some (PList []).
Proof.
  eexists. split; [reflexivity|].
  apply (path_always_empty (lib := ref_lib) sample_config 5). reflexivity.
Defined.




(** ** The command dispatcher *)

(** C8: [set_mode] without a [mode] parameter, and every command name
    other than the four that the dispatcher knows, writes nothing to the
    device and raises nothing. *)
Theorem unknown_command_is_noop (self : entity) (command : string)
    (params : params_arg) (now : Z) :
  (command = "set_mode" /\ params_contains params "mode" = false) \/
  command ∉ ["set_mode"; "clean_room"; "clean_spot"; "clean_area"] ->
  async_send_command self command params now = Ok [].
Proof.
  intros [[-> Hno] | Hother]; unfold async_send_command.
  - rewrite Hno. reflexivity.
  - repeat match goal with
    | |- context [String.eqb command ?name] =>
        destruct (String.eqb_spec command name) as [->|_];
          [exfalso; apply Hother; set_solver|]
    end.
    reflexivity.
Qed.

(** [set_mode] with parameters that have no mode, on the sample entity. *)
Lemma unknown_command_is_noop_witness :
  async_send_command (sample_entity ∅ None ∅) "set_mode"
    (ParamsDict {[ "speed" := PInt 3 ]}) 1000 = Ok [].
Proof.
  apply unknown_command_is_noop. left. split; reflexivity.
Defined.

(** ** Failures of the position decode *)

(** C5 fails on the code: the [except] clause of line 372 lists four
    exception classes, and a payload of the wrong shape can raise others.
    With the position datapoint holding the base64 text of the JSON
    object whose "data" member is an empty array, [.get] is called on a
    list and the [AttributeError] leaves [status_updated].  With the
    base64 text of a "posArray" that holds the number 5, nothing is
    raised, but the position attribute, [1, 2] before, is overwritten by
    5 before the [TypeError] of the unpacking is caught. *)
Theorem position_decode_failures_escape :
  let before : gmap string pyval :=
    {[ PATH := PList []; POSITION := PList [PInt 1; PInt 2] ]} in
  let run (blob : string) :=
    status_updated (lib := ref_lib)
      (sample_entity {[ "5" := DStr "smart"; "121" := DStr blob ]}
         (Some STATE_CLEANING) before)
      {[ "121" := DStr blob ]} in
  (run "eyJkYXRhIjpbXX0=").2 = Raise AttributeError /\
  (run "eyJkYXRhIjp7InBvc0FycmF5IjpbNV19fQ==").2 = Ok tt /\
  _attrs (run "eyJkYXRhIjp7InBvc0FycmF5IjpbNV19fQ==").1 !! POSITION = Some (PInt 5).
Proof. vm_compute. by repeat split. Qed.

(** ** Position failures that the [except] clause does catch *)

(** X1: when the base64 or JSON decoding of a configured, updated
    position datapoint raises one of the four classes that line 372
    lists, [status_updated] raises nothing and leaves the position and
    the relative position as they were. *)
Theorem caught_position_failure_is_skipped {lib : PyLib} (self : entity)
    (status : gmap string dpval) (resolved : vacuum_state) (dp : Z) (e : exn) :
  resolve_state self (py_str (dps self (_dp_id self))) = Ok resolved ->
  CONF_POSITION_BASE64_DP (_config self) = Some dp ->
  is_Some (status !! pretty dp) ->
  b64decode (dp_value (dps self dp)) ≫= json_loads = Raise e ->
  position_except e = true ->
  (status_updated self status).2 = Ok tt /\
  _attrs (status_updated self status).1 !! POSITION = _attrs self !! POSITION /\
  _attrs (status_updated self status).1 !! RELATIVE_POSITION
    = _attrs self !! RELATIVE_POSITION.
Proof.
  intros Hres Hdp Hin Hraise Hcaught. unfold status_updated. rewrite Hres.
  set (self1 := reset_path (_state self) (set_state self (Some resolved))).
  set (self2 := update_attributes self1).
  assert (Hsetup : same_setup self self2).
  { eapply same_setup_trans; [|apply setup_update_attributes].
    unfold self1. setup_chain. }
  assert (Hkeep : forall key, key = POSITION \/ key = RELATIVE_POSITION ->
    _attrs self2 !! key = _attrs self !! key).
  { intros key Hkey. unfold self2. rewrite attrs_update_attributes. cbv zeta.
    destruct Hkey as [-> | ->]; decide_keys;
      unfold self1; rewrite attrs_reset_path, attrs_set_state;
      case_match; try done; by rewrite lookup_insert_ne by key_ne. }
  destruct Hsetup as (Hc & Hs & _).
  unfold update_position, has_config, str_config_get. rewrite Hc, Hdp.
  rewrite bool_decide_eq_true_2 by done.
  change (dps_conf self2 (Some dp)) with (dps self2 dp).
  unfold decode_position. rewrite (dps_eq _ _ _ Hs), Hraise. cbv beta iota.
  rewrite Hcaught. split; [done|]. split; apply Hkeep; auto.
Qed.

(** The blob "not-base64!!" of the spec: nine data characters, which is
    a [binascii.Error]. *)
Lemma caught_position_failure_is_skipped_witness :
  let cache : gmap string dpval :=
    {[ "5" := DStr "smart"; "121" := DStr "not-base64!!" ]} in
  let self := sample_entity cache (Some STATE_CLEANING)
                {[ PATH := PList []; POSITION := PList [PInt 1; PInt 2] ]} in
  (status_updated (lib := ref_lib) self cache).2 = Ok tt /\
  _attrs (status_updated (lib := ref_lib) self cache).1 !! POSITION
    = Some (PList [PInt 1; PInt 2]).
Proof.
  intros cache self.
  destruct (caught_position_failure_is_skipped (lib := ref_lib) self cache
              STATE_CLEANING 121 BinasciiError) as (Hok & Hpos & _);
    [reflexivity | reflexivity | by eexists | vm_compute; reflexivity
    | reflexivity |].
  split; [exact Hok | exact Hpos].
Defined.

(** ** A scale of zero *)

Lemma truediv_zero_raises (d : pyval) (scale : spec_float) :
  F64.is_zero scale = true -> exists e, py_truediv d (PFloat scale) = Raise e.
Proof.
  intros Hz. unfold py_truediv, num_truediv. simpl.
  destruct (as_num d) as [[x|f]|]; simpl; [| |by eexists].
  - destruct (F64.of_Z x); simpl; try rewrite Hz; by eexists.
  - rewrite Hz. by eexists.
Qed.

Lemma to_absolute_axis_zero_raises self i x (scale : spec_float) :
  _position_relative_scale self = PFloat scale -> F64.is_zero scale = true ->
  exists e, to_absolute_axis self i x = Raise e.
Proof.
  intros Hs Hz. unfold to_absolute_axis. rewrite Hs.
  destruct (py_getitem _ i); simpl; [|by eexists].
  destruct (py_sub x _) as [d|]; simpl; [|by eexists].
  by apply truediv_zero_raises.
Qed.

Lemma absolute_position_zero_raises self x y (scale : spec_float) :
  _position_relative_scale self = PFloat scale -> F64.is_zero scale = true ->
  exists e, calculate_absolute_position self x y = Raise e.
Proof.
  intros Hs Hz. unfold calculate_absolute_position.
  destruct (to_absolute_axis_zero_raises self 0 x scale Hs Hz) as [e ->].
  by eexists.
Qed.

Lemma clean_spot_zero_raises self params now (scale : spec_float) :
  _position_relative_scale self = PFloat scale -> F64.is_zero scale = true ->
  exists e, async_send_command self "clean_spot" params now = Raise e.
Proof.
  intros Hs Hz. unfold async_send_command.
  change (String.eqb "clean_spot" "set_mode") with false.
  change (String.eqb "clean_spot" "clean_room") with false.
  change (String.eqb "clean_spot" "clean_spot") with true.
  cbv iota. rewrite andb_false_l. cbv iota.
  destruct (params_get params "x" _) as [x|]; [|by eexists].
  destruct (params_get params "y" _) as [y|]; [|by eexists].
  destruct (params_get params "size" _) as [size|]; [|by eexists].
  destruct (absolute_position_zero_raises self x y scale Hs Hz) as [e He].
  exists e. unfold mbind, result_bind at 1 2 3. by rewrite He.
Qed.

Lemma clean_area_zero_raises self params now (scale : spec_float) item rest :
  _position_relative_scale self = PFloat scale -> F64.is_zero scale = true ->
  params_contains params "vertices" = false ->
  params_get params "relative_vertices" (PList []) = Ok (PList (item :: rest)) ->
  exists e, async_send_command self "clean_area" params now = Raise e.
Proof.
  intros Hs Hz Hv Hr. unfold async_send_command.
  change (String.eqb "clean_area" "set_mode") with false.
  change (String.eqb "clean_area" "clean_room") with false.
  change (String.eqb "clean_area" "clean_spot") with false.
  change (String.eqb "clean_area" "clean_area") with true.
  cbv iota. rewrite andb_false_l. cbv iota. rewrite Hv, Hr. simpl.
  destruct (py_unpack2 item) as [[x y]|]; simpl; [|by eexists].
  destruct (absolute_position_zero_raises self x y scale Hs Hz) as [e ->].
  by eexists.
Qed.

(** Construction succeeds whenever the origin option, if there is one,
    is valid JSON; the scale option is stored as it is. *)
Lemma init_stores_scale {lib : PyLib} config_entry switchid (scale : spec_float) :
  CONF_POSITION_RELATIVE_SCALE config_entry = Some scale ->
  (forall origin, CONF_POSITION_RELATIVE_ORIGIN config_entry = Some origin ->
     exists o, json_loads_str origin = Ok o) ->
  exists self,
    __init__ config_entry switchid = Ok self /\
    _position_relative_scale self = PFloat scale /\
    (CONF_POSITION_RELATIVE_ORIGIN config_entry = None ->
     _position_relative_origin self = PList [PInt 0; PInt 0]).
Proof.
  intros Hs Ho. unfold __init__. rewrite Hs.
  destruct (CONF_POSITION_RELATIVE_ORIGIN config_entry) as [origin|].
  - destruct (Ho origin eq_refl) as [o Hparse].
    destruct (CONF_IDLE_STATUS_VALUE config_entry), (CONF_MODES config_entry),
      (CONF_DOCKED_STATUS_VALUE config_entry), (CONF_FAN_SPEEDS config_entry),
      (CONF_POSITION_AXIS_ROTATION config_entry); simpl; rewrite Hparse; simpl;
      eexists; (split; [reflexivity|]); by split.
  - destruct (CONF_IDLE_STATUS_VALUE config_entry), (CONF_MODES config_entry),
      (CONF_DOCKED_STATUS_VALUE config_entry), (CONF_FAN_SPEEDS config_entry),
      (CONF_POSITION_AXIS_ROTATION config_entry); simpl;
      eexists; (split; [reflexivity|]); by split.
Qed.

(** C6 (as amended): a scale of zero is not refused at construction.
    Whenever the origin option, if there is one, is valid JSON, the
    entity is constructed and holds the zero scale; after that every
    conversion to absolute coordinates raises instead of returning, so
    [clean_spot], and [clean_area] with at least one relative vertex,
    raise and write nothing; for [clean_spot] with the default origin
    and the default centre the exception is [ZeroDivisionError]. *)
Theorem zero_scale_fails_at_run_time {lib : PyLib} (config_entry : config)
    (switchid : Z) (scale : spec_float) :
  CONF_POSITION_RELATIVE_SCALE config_entry = Some scale ->
  F64.is_zero scale = true ->
  (forall origin, CONF_POSITION_RELATIVE_ORIGIN config_entry = Some origin ->
     exists o, json_loads_str origin = Ok o) ->
  exists self,
    __init__ config_entry switchid = Ok self /\
    _position_relative_scale self = PFloat scale /\
    (forall x y, exists e, calculate_absolute_position self x y = Raise e) /\
    (forall params now, exists e,
       async_send_command self "clean_spot" params now = Raise e) /\
    (forall params now item rest,
       params_contains params "vertices" = false ->
       params_get params "relative_vertices" (PList []) = Ok (PList (item :: rest)) ->
       exists e, async_send_command self "clean_area" params now = Raise e) /\
    (CONF_POSITION_RELATIVE_ORIGIN config_entry = None ->
     forall now,
       async_send_command self "clean_spot" ParamsNone now = Raise ZeroDivisionError).
Proof.
  intros Hs Hz Ho.
  destruct (init_stores_scale config_entry switchid scale Hs Ho)
    as (self & Hinit & Hscale & Horigin).
  exists self. split; [exact Hinit|]. split; [exact Hscale|].
  split; [intros x y; by apply (absolute_position_zero_raises _ x y scale)|].
  split; [intros params now; by apply (clean_spot_zero_raises _ _ _ scale)|].
  split; [intros params now item rest Hv Hr;
          by apply (clean_area_zero_raises _ _ _ scale item rest)|].
  intros Hnone now. specialize (Horigin Hnone).
  unfold async_send_command, calculate_absolute_position, to_absolute_axis.
  rewrite Hscale, Horigin.
  destruct scale; try discriminate Hz. reflexivity.
Qed.

(** The scale option is 0.0 and the origin option is the text [0,0]. *)
Lemma zero_scale_fails_at_run_time_witness :
  exists self,
    __init__ (lib := ref_lib)
      (geometry_config (Some (S754_zero false)) (Some "[0,0]") (Some 0)) 5 = Ok self /\
    forall x y, exists e, calculate_absolute_position self x y = Raise e.
Proof.
  destruct (zero_scale_fails_at_run_time (lib := ref_lib)
              (geometry_config (Some (S754_zero false)) (Some "[0,0]") (Some 0)) 5
              (S754_zero false) eq_refl eq_refl) as (self & Hinit & _ & Hcalc & _).
  - intros origin [= <-]. eexists. vm_compute. reflexivity.
  - exists self. split; [exact Hinit | exact Hcalc].
Defined.

(** C6 as stated fails: with the scale option 0.0 the construction
    returns an entity, and the division by zero happens later, inside
    [clean_spot]. *)
Lemma zero_scale_is_accepted :
  exists self,
    __init__ (lib := ref_lib) (geometry_config (Some (S754_zero false)) None None) 5
      = Ok self /\
    async_send_command self "clean_spot" ParamsNone 1000 = Raise ZeroDivisionError /\
    async_send_command self "clean_area" half_vertices 1000 = Raise ZeroDivisionError.
Proof. eexists. split; [reflexivity|]. vm_compute. by split. Qed.

(** ** The geometry transform *)

(** *** Rounding errors of the float operations *)

Module FloatBounds.
Local Abbreviation pynum := num (only parsing).
Import Reals Lra.
Import F64R.
Local Open Scope R_scope.

Local Abbreviation prec := 53%Z (only parsing).
Local Abbreviation emax := 1024%Z (only parsing).


Lemma bpow_pos e : 0 < bpow e.
Proof. apply powerRZ_lt. lra. Qed.

Lemma bpow_add a b : bpow (a + b) = bpow a * bpow b.
Proof. apply powerRZ_add. lra. Qed.

Lemma bpow_IZR n : (0 <= n)%Z -> bpow n = IZR (2 ^ n).
Proof.
  intros Hn. unfold bpow. rewrite <- (Z2Nat.id n) at 1 by done.
  rewrite <- pow_powerRZ. rewrite <- (Z2Nat.id n) at 2 by done.
  by rewrite <- pow_IZR.
Qed.

Lemma bpow_ge_1 n : (0 <= n)%Z -> 1 <= bpow n.
Proof.
  intros Hn. rewrite bpow_IZR by done. apply IZR_le.
  pose proof (Z.pow_pos_nonneg 2 n). lia.
Qed.

Lemma bpow_le a b : (a <= b)%Z -> bpow a <= bpow b.
Proof.
  intros H. replace b with (a + (b - a))%Z by lia. rewrite bpow_add.
  pose proof (bpow_ge_1 (b - a) ltac:(lia)). pose proof (bpow_pos a). nra.
Qed.

Lemma bpow_lt a b : (a < b)%Z -> bpow a < bpow b.
Proof.
  intros H. replace b with (a + (b - a))%Z by lia. rewrite bpow_add.
  assert (H1 : 2 <= bpow (b - a)).
  { rewrite bpow_IZR by lia. apply IZR_le.
    assert (2 ^ 1 <= 2 ^ (b - a))%Z by (apply Z.pow_le_mono_r; lia). lia. }
  pose proof (bpow_pos a). nra.
Qed.

Lemma bpow_lt_inv a b : bpow a < bpow b -> (a < b)%Z.
Proof.
  intros H. destruct (Z.lt_ge_cases a b) as [|Hge]; [done|].
  apply bpow_le in Hge. lra.
Qed.

Lemma bpow_opp a : bpow (- a) = / bpow a.
Proof. unfold bpow. apply powerRZ_neg'. Qed.

Lemma bpow_0 : bpow 0 = 1.
Proof. reflexivity. Qed.

Lemma bpow_1 : bpow 1 = 2.
Proof. unfold bpow. simpl. lra. Qed.

Lemma bpow_m1 : bpow (-1) = / 2.
Proof. unfold bpow. simpl. f_equal. lra. Qed.

Lemma bpow_half e : / 2 * bpow e = bpow (e - 1).
Proof.
  replace (e - 1)%Z with (e + -1)%Z by lia. rewrite bpow_add, bpow_m1. lra.
Qed.

(** Number of binary digits. *)
Lemma digits2_pos_bounds (p : positive) :
  (2 ^ (Z.pos (digits2_pos p) - 1) <= Z.pos p < 2 ^ Z.pos (digits2_pos p))%Z.
Proof.
  induction p as [p IH|p IH|]; simpl digits2_pos.
  - rewrite Pos2Z.inj_succ, (Pos2Z.inj_xI p).
    replace (Z.succ (Z.pos (digits2_pos p)) - 1)%Z
      with (Z.succ (Z.pos (digits2_pos p) - 1))%Z by lia.
    rewrite !Z.pow_succ_r by lia. lia.
  - rewrite Pos2Z.inj_succ, (Pos2Z.inj_xO p).
    replace (Z.succ (Z.pos (digits2_pos p)) - 1)%Z
      with (Z.succ (Z.pos (digits2_pos p) - 1))%Z by lia.
    rewrite !Z.pow_succ_r by lia. lia.
  - simpl. lia.
Qed.

Lemma Zdigits2_nonneg m : (0 <= m)%Z -> (0 <= Zdigits2 m)%Z.
Proof. destruct m; simpl; lia. Qed.

Lemma Zdigits2_upper m : (0 <= m)%Z -> (m < 2 ^ Zdigits2 m)%Z.
Proof.
  destruct m as [|p|p]; simpl; [lia | | lia]. intros _.
  apply digits2_pos_bounds.
Qed.

Lemma Zdigits2_lower m : (0 < m)%Z -> (2 ^ (Zdigits2 m - 1) <= m)%Z.
Proof.
  destruct m as [|p|p]; simpl; [lia | | lia]. intros _.
  apply digits2_pos_bounds.
Qed.

(** [m < 2^k] bounds the digits by [k]. *)
Lemma Zdigits2_le m k : (0 <= m)%Z -> (0 <= k)%Z -> (m < 2 ^ k)%Z -> (Zdigits2 m <= k)%Z.
Proof.
  intros Hm Hk Hlt. destruct (Z.eq_dec m 0) as [->|Hne]; [simpl; lia|].
  pose proof (Zdigits2_lower m ltac:(lia)) as Hl.
  destruct (Z.le_gt_cases (Zdigits2 m) k) as [|Hgt]; [done|].
  assert (2 ^ k <= 2 ^ (Zdigits2 m - 1))%Z by (apply Z.pow_le_mono_r; lia). lia.
Qed.

(** [2^k <= m] bounds the digits from below. *)
Lemma Zdigits2_gt m k : (0 <= k)%Z -> (2 ^ k <= m)%Z -> (k < Zdigits2 m)%Z.
Proof.
  intros Hk Hle.
  assert (Hm : (0 < m)%Z) by (pose proof (Z.pow_pos_nonneg 2 k); lia).
  pose proof (Zdigits2_upper m ltac:(lia)) as Hu.
  destruct (Z.lt_ge_cases k (Zdigits2 m)) as [|Hge]; [done|].
  assert (2 ^ Zdigits2 m <= 2 ^ k)%Z
    by (apply Z.pow_le_mono_r; [lia | done]). lia.
Qed.

(** ** Shifting with a rounding location *)

Lemma loc_ok_range l f : loc_ok l f -> 0 <= f < 1.
Proof. destruct l as [|[]]; simpl; lra. Qed.

Lemma repr_of_loc m l x :
  (0 <= m)%Z -> loc_ok l (x - IZR m) -> repr x (shr_record_of_loc m l).
Proof. intros Hm Hl. split; destruct l as [|[]]; simpl; done. Qed.

Lemma IZR_xI p : IZR (Z.pos p~1) = 2 * IZR (Z.pos p) + 1.
Proof. rewrite (Pos2Z.inj_xI p), plus_IZR, mult_IZR. lra. Qed.

Lemma IZR_xO p : IZR (Z.pos p~0) = 2 * IZR (Z.pos p).
Proof. rewrite (Pos2Z.inj_xO p), mult_IZR. lra. Qed.

Lemma repr_shr_1 x mrs : repr x mrs -> repr (x / 2) (shr_1 mrs).
Proof.
  destruct mrs as [m r s]. unfold repr. cbn [shr_m]. intros [Hm Hl].
  destruct m as [|[p|p|]|p]; try lia.
  - destruct r, s; cbn [shr_1 orb shr_m loc_of_shr_record loc_ok] in *;
      (split; [lia | lra]).
  - pose proof (IZR_xI p).
    destruct r, s; cbn [shr_1 orb shr_m loc_of_shr_record loc_ok] in *;
      (split; [lia | lra]).
  - pose proof (IZR_xO p).
    destruct r, s; cbn [shr_1 orb shr_m loc_of_shr_record loc_ok] in *;
      (split; [lia | lra]).
  - destruct r, s; cbn [shr_1 orb shr_m loc_of_shr_record loc_ok] in *;
      (split; [lia | lra]).
Qed.

Lemma repr_iter_pos p : forall x mrs,
  repr x mrs -> repr (x * bpow (- Z.pos p)) (SpecFloat.iter_pos shr_1 p mrs).
Proof.
  induction p as [p IH|p IH|]; intros x mrs H; cbn [SpecFloat.iter_pos].
  - replace (x * bpow (- Z.pos p~1))
      with (x / 2 * bpow (- Z.pos p) * bpow (- Z.pos p)).
    + apply IH, IH. by apply repr_shr_1.
    + replace (- Z.pos p~1)%Z with (-1 + (- Z.pos p + - Z.pos p))%Z by lia.
      rewrite !bpow_add, bpow_m1. lra.
  - replace (x * bpow (- Z.pos p~0))
      with (x * bpow (- Z.pos p) * bpow (- Z.pos p)).
    + by apply IH, IH.
    + replace (- Z.pos p~0)%Z with (- Z.pos p + - Z.pos p)%Z by lia.
      rewrite !bpow_add. lra.
  - replace (x * bpow (- Z.pos 1)) with (x / 2)
      by (change (- Z.pos 1)%Z with (-1)%Z; rewrite bpow_m1; lra).
    by apply repr_shr_1.
Qed.

(** A shift by [n >= 0] places. *)
Lemma repr_shr x mrs e n :
  (0 <= n)%Z -> repr x mrs ->
  repr (x * bpow (- n)) (shr mrs e n).1 /\ (shr mrs e n).2 = (e + n)%Z.
Proof.
  intros Hn H. destruct n as [|p|p]; cbn [shr fst snd]; try lia.
  - change (- 0)%Z with 0%Z. rewrite bpow_0, Rmult_1_r. split; [done | lia].
  - split; [by apply repr_iter_pos | done].
Qed.

Lemma round_nearest_even_spec x mrs :
  repr x mrs ->
  let z := round_nearest_even (shr_m mrs) (loc_of_shr_record mrs) in
  Rabs (IZR z - x) <= / 2 /\ (shr_m mrs <= z <= shr_m mrs + 1)%Z.
Proof.
  intros [Hm Hl]. destruct (loc_of_shr_record mrs) as [|[]]; simpl in *.
  - split; [|lia]. apply Rabs_le. lra.
  - destruct (Z.even (shr_m mrs)); (split; [|lia]);
      rewrite ?plus_IZR; apply Rabs_le; lra.
  - split; [|lia]. apply Rabs_le. lra.
  - split; [|lia]. rewrite plus_IZR. apply Rabs_le. lra.
Qed.

(** ** Values of floats *)

Lemma sgn_sub s a b : Rabs (sgn s a - sgn s b) = Rabs (a - b).
Proof.
  destruct s; simpl; [|done].
  replace (- a - - b) with (- (a - b)) by lra. apply Rabs_Ropp.
Qed.

Lemma fexp_eq e : fexp prec emax e = Z.max (e - 53) (-1074).
Proof. reflexivity. Qed.

(** ** Rounding to nearest, ties to even *)

(** [binary_round_aux] on the number [x0 * 2^ex], whose integer part is
    [mx] and whose fractional part is located by [lx], when the exponent
    is at most the one of the format: the result is the float
    [z * 2^fe] for an integer [z] within a half of [x0 * 2^(ex - fe)]. *)
Lemma binary_round_aux_spec sx mx ex lx x0 :
  (0 <= mx)%Z ->
  loc_ok lx (x0 - IZR mx) ->
  (ex <= fexp prec emax (Zdigits2 mx + ex))%Z ->
  x0 * bpow ex < bpow 1023 ->
  let fe := fexp prec emax (Zdigits2 mx + ex) in
  let r := binary_round_aux prec emax sx mx ex lx in
  exists z : Z,
    (0 <= z)%Z /\
    Rabs (IZR z - x0 * bpow (ex - fe)) <= / 2 /\
    finite r = true /\
    B2R r = sgn sx (IZR z * bpow fe).
Proof.
  intros Hm Hl Hn Hov fe r. subst r.
  pose proof (loc_ok_range _ _ Hl) as Hfrac.
  assert (Hx0 : 0 <= x0) by (pose proof (IZR_le 0 mx Hm); lra).
  set (d := Zdigits2 mx) in *.
  assert (Hd : (0 <= d)%Z) by (by apply Zdigits2_nonneg).
  assert (Hfe : fe = Z.max (d + ex - 53) (-1074)) by reflexivity.
  (* no overflow: the exponent of the result *)
  assert (Hfe970 : (fe <= 970)%Z).
  { destruct (Z.eq_dec mx 0) as [->|Hne].
    - subst d. simpl in Hfe, Hn. rewrite fexp_eq in Hn. lia.
    - pose proof (Zdigits2_lower mx ltac:(lia)) as Hlow. fold d in Hlow.
      destruct (Z.le_gt_cases d 1023) as [Hle|Hgt].
      + destruct (Z.le_gt_cases (d - 1 + ex) 1022) as [|Hbig]; [lia|].
        exfalso.
        assert (H1 : bpow (d - 1) <= x0).
        { rewrite bpow_IZR by lia. apply IZR_le in Hlow. lra. }
        assert (H2 : bpow 1023 <= bpow (d - 1 + ex)) by (apply bpow_le; lia).
        rewrite bpow_add in H2. pose proof (bpow_pos ex). nra.
      + destruct (Z.le_gt_cases (d - 1 + ex) 1022) as [|Hbig]; [lia|].
        exfalso.
        assert (H1 : bpow (d - 1) <= x0).
        { rewrite bpow_IZR by lia. apply IZR_le in Hlow. lra. }
        assert (H2 : bpow 1023 <= bpow (d - 1 + ex)) by (apply bpow_le; lia).
        rewrite bpow_add in H2. pose proof (bpow_pos ex). nra. }
  unfold binary_round_aux, shr_fexp. fold d. fold fe.
  destruct (repr_shr x0 (shr_record_of_loc mx lx) ex (fe - ex) ltac:(lia)
              (repr_of_loc mx lx x0 Hm Hl)) as [Hrepr He].
  destruct (shr (shr_record_of_loc mx lx) ex (fe - ex)) as [mrs' e'].
  cbn [fst snd] in Hrepr, He. subst e'.
  replace (ex + (fe - ex))%Z with fe by lia.
  replace (- (fe - ex))%Z with (ex - fe)%Z in Hrepr by lia.
  destruct (round_nearest_even_spec _ _ Hrepr) as [Hz Hzb].
  set (z := round_nearest_even (shr_m mrs') (loc_of_shr_record mrs')) in *.
  destruct Hrepr as [Hfloor Hloc]. apply loc_ok_range in Hloc.
  (* the shifted number is below 2^53 *)
  assert (Hx1 : x0 * bpow (ex - fe) < bpow 53).
  { pose proof (Zdigits2_upper mx Hm) as Hup. fold d in Hup.
    assert (H1 : x0 < bpow d).
    { rewrite bpow_IZR by done.
      assert (IZR (mx + 1) <= IZR (2 ^ d)) by (apply IZR_le; lia).
      rewrite plus_IZR in *. lra. }
    assert (H2 : bpow (d + (ex - fe)) <= bpow 53) by (apply bpow_le; lia).
    rewrite bpow_add in H2. pose proof (bpow_pos (ex - fe)). nra. }
  assert (Hfl : (shr_m mrs' < 2 ^ 53)%Z).
  { apply lt_IZR. rewrite <- bpow_IZR by lia. lra. }
  exists z. split; [lia|]. split; [exact Hz|].
  destruct (Z.eq_dec z (2 ^ 53)) as [Hcarry|Hnc].
  - rewrite Hcarry. change (2 ^ 53)%Z with 9007199254740992%Z.
    replace (fexp prec emax (Zdigits2 9007199254740992 + fe) - fe)%Z with 1%Z
      by (rewrite fexp_eq; change (Zdigits2 9007199254740992) with 54%Z; lia).
    cbn. change (1024 - 53)%Z with 971%Z.
    replace (fe + 1 <=? 971)%Z with true by (symmetry; apply Z.leb_le; lia).
    split; [done|]. cbn [B2R]. f_equal.
    rewrite bpow_add, bpow_1. lra.
  - assert (Hd2 : (Zdigits2 z <= 53)%Z) by (apply Zdigits2_le; lia).
    assert (Hn2 : (fexp prec emax (Zdigits2 z + fe) - fe <= 0)%Z)
      by (rewrite fexp_eq; lia).
    assert (Hshr2 : shr (shr_record_of_loc z loc_Exact) fe
                      (fexp prec emax (Zdigits2 z + fe) - fe)
                    = (shr_record_of_loc z loc_Exact, fe)).
    { destruct (fexp prec emax (Zdigits2 z + fe) - fe)%Z; try done; lia. }
    rewrite Hshr2. cbn [shr_record_of_loc shr_m].
    destruct z as [|p|p]; try lia.
    + split; [done|]. cbn [B2R sgn]. destruct sx; simpl; lra.
    + change (1024 - 53)%Z with 971%Z.
      replace (fe <=? 971)%Z with true by (symmetry; apply Z.leb_le; lia).
      split; done.
Qed.

(** The error of the rounding: at most the unit roundoff times the
    number, or a half of the smallest subnormal. *)
Lemma binary_round_aux_error sx mx ex lx x0 :
  (0 <= mx)%Z ->
  loc_ok lx (x0 - IZR mx) ->
  (ex <= fexp prec emax (Zdigits2 mx + ex))%Z ->
  x0 * bpow ex < bpow 1023 ->
  let r := binary_round_aux prec emax sx mx ex lx in
  finite r = true /\
  Rabs (B2R r - sgn sx (x0 * bpow ex)) <= u * (x0 * bpow ex) + eta.
Proof.
  intros Hm Hl Hn Hov r.
  destruct (binary_round_aux_spec sx mx ex lx x0 Hm Hl Hn Hov)
    as (z & Hz & Herr & Hfin & Hval).
  fold r in Hfin, Hval. split; [exact Hfin|].
  rewrite Hval, sgn_sub.
  set (fe := fexp prec emax (Zdigits2 mx + ex)) in *.
  pose proof (loc_ok_range _ _ Hl) as Hfrac.
  assert (Hx0 : 0 <= x0) by (pose proof (IZR_le 0 mx Hm); lra).
  assert (Hscaled : Rabs (IZR z * bpow fe - x0 * bpow ex) <= bpow (fe - 1)).
  { replace (IZR z * bpow fe - x0 * bpow ex)
      with ((IZR z - x0 * bpow (ex - fe)) * bpow fe).
    - rewrite Rabs_mult, (Rabs_pos_eq (bpow fe)) by (pose proof (bpow_pos fe); lra).
      rewrite <- bpow_half. pose proof (bpow_pos fe). nra.
    - replace ex with ((ex - fe) + fe)%Z at 2 by lia. rewrite bpow_add. lra. }
  assert (Hbound : bpow (fe - 1) <= u * (x0 * bpow ex) + eta).
  { pose proof (bpow_pos ex). unfold u, eta.
    assert (Hv : 0 <= x0 * bpow ex) by nra.
    assert (Huv : 0 <= bpow (-53) * (x0 * bpow ex))
      by (apply Rmult_le_pos; [pose proof (bpow_pos (-53)); lra | done]).
    assert (Hfe : fe = Z.max (Zdigits2 mx + ex - 53) (-1074)) by reflexivity.
    destruct (Z.eq_dec fe (-1074)) as [Heq|Hne].
    - replace (fe - 1)%Z with (-1075)%Z by lia. lra.
    - assert (Hfe' : fe = (Zdigits2 mx + ex - 53)%Z) by lia.
      assert (Hmx : (0 < mx)%Z).
      { destruct (Z.eq_dec mx 0) as [Hz0|]; [|lia].
        rewrite Hz0 in Hfe'. change (Zdigits2 0) with 0%Z in Hfe'. lia. }
      pose proof (Zdigits2_lower mx Hmx) as Hlow.
      pose proof (Zdigits2_nonneg mx ltac:(lia)) as Hd.
      assert (Hdpos : (0 < Zdigits2 mx)%Z) by (destruct mx; simpl in *; lia).
      assert (H1 : bpow (Zdigits2 mx - 1) <= x0).
      { rewrite bpow_IZR by lia. apply IZR_le in Hlow. lra. }
      replace (fe - 1)%Z with (-53 + ((Zdigits2 mx - 1) + ex))%Z by lia.
      rewrite !bpow_add. pose proof (bpow_pos (-53)). pose proof (bpow_pos (-1075)).
      assert (bpow (Zdigits2 mx - 1) * bpow ex <= x0 * bpow ex) by nra.
      assert (bpow (-53) * (bpow (Zdigits2 mx - 1) * bpow ex)
              <= bpow (-53) * (x0 * bpow ex)) by nra.
      lra. }
  lra.
Qed.

(** ** Alignment and [binary_normalize] *)

Lemma iter_xO_value m k : Z.pos (Pos.iter xO m k) = (Z.pos m * 2 ^ Z.pos k)%Z.
Proof.
  induction k as [|k IH] using Pos.peano_ind.
  - simpl. lia.
  - rewrite Pos.iter_succ, (Pos2Z.inj_xO (Pos.iter xO m k)), IH, Pos2Z.inj_succ.
    rewrite Z.pow_succ_r by lia. lia.
Qed.

Lemma iter_xO_digits m k :
  Z.pos (digits2_pos (Pos.iter xO m k)) = (Z.pos (digits2_pos m) + Z.pos k)%Z.
Proof.
  induction k as [|k IH] using Pos.peano_ind.
  - simpl. lia.
  - rewrite Pos.iter_succ. cbn [digits2_pos]. rewrite Pos2Z.inj_succ, IH. lia.
Qed.

Lemma shl_align_spec m e e2 :
  IZR (Z.pos (shl_align m e e2).1) * bpow (shl_align m e e2).2
    = IZR (Z.pos m) * bpow e /\
  (Z.pos (digits2_pos (shl_align m e e2).1) + (shl_align m e e2).2
    = Z.pos (digits2_pos m) + e)%Z /\
  (shl_align m e e2).2 = Z.min e e2.
Proof.
  unfold shl_align. destruct (e2 - e)%Z as [|d|d] eqn:Hd; cbn [fst snd].
  - split; [done|]. split; lia.
  - split; [done|]. split; lia.
  - rewrite iter_xO_value, iter_xO_digits, mult_IZR.
    rewrite <- bpow_IZR by lia.
    split; [|split; lia].
    replace (bpow e) with (bpow (Z.pos d) * bpow e2)
      by (rewrite <- bpow_add; f_equal; lia).
    lra.
Qed.

Lemma binary_round_error s m e :
  IZR (Z.pos m) * bpow e < bpow 1023 ->
  let r := binary_round prec emax s m e in
  finite r = true /\
  Rabs (B2R r - sgn s (IZR (Z.pos m) * bpow e))
    <= u * (IZR (Z.pos m) * bpow e) + eta.
Proof.
  intros Hov r. subst r. unfold binary_round.
  destruct (shl_align_spec m e (fexp prec emax (Z.pos (digits2_pos m) + e)))
    as (Hval & Hdig & Hmin).
  destruct (shl_align m e _) as [mz ez]. cbn [fst snd] in *.
  rewrite <- Hval in *.
  apply binary_round_aux_error; try done.
  - simpl. lra.
  - cbn [Zdigits2]. rewrite Hdig. lia.
Qed.

Lemma IZR_neg p : IZR (Z.neg p) = - IZR (Z.pos p).
Proof. change (Z.neg p) with (- Z.pos p)%Z. apply opp_IZR. Qed.

Lemma binary_normalize_error z e sz :
  Rabs (IZR z * bpow e) < bpow 1023 ->
  let r := binary_normalize prec emax z e sz in
  finite r = true /\
  Rabs (B2R r - IZR z * bpow e) <= u * Rabs (IZR z * bpow e) + eta.
Proof.
  intros Hov r. subst r. pose proof (bpow_pos e) as He.
  assert (Heta : 0 < eta) by apply bpow_pos.
  destruct z as [|p|p]; cbn [binary_normalize].
  - split; [done|]. simpl. rewrite Rmult_0_l, Rminus_0_r, Rabs_R0. lra.
  - assert (Hp : 0 < IZR (Z.pos p)) by (apply IZR_lt; lia).
    assert (Hv : 0 < IZR (Z.pos p) * bpow e) by nra.
    rewrite (Rabs_pos_eq _ (Rlt_le _ _ Hv)) in Hov |- *.
    apply (binary_round_error false p e Hov).
  - assert (Hp : 0 < IZR (Z.pos p)) by (apply IZR_lt; lia).
    assert (Hv : 0 < IZR (Z.pos p) * bpow e) by nra.
    rewrite IZR_neg in Hov |- *.
    replace (- IZR (Z.pos p) * bpow e) with (- (IZR (Z.pos p) * bpow e))
      in Hov |- * by lra.
    rewrite Rabs_Ropp, (Rabs_pos_eq _ (Rlt_le _ _ Hv)) in Hov |- *.
    apply (binary_round_error true p e Hov).
Qed.

(** ** Addition and subtraction *)

Lemma IZR_cond_Zopp s z : IZR (cond_Zopp s z) = sgn s (IZR z).
Proof. destruct s; simpl; [apply opp_IZR | done]. Qed.

Lemma sgn_mult s a b : sgn s a * b = sgn s (a * b).
Proof. destruct s; simpl; lra. Qed.

(** The aligned mantissa of an operand of a sum. *)
Lemma aligned_value s m e ez :
  (ez <= e)%Z ->
  IZR (cond_Zopp s (Z.pos (shl_align m e ez).1)) * bpow ez
    = B2R (S754_finite s m e).
Proof.
  intros Hle. destruct (shl_align_spec m e ez) as (Hval & _ & Hmin).
  rewrite Z.min_r in Hmin by done. rewrite Hmin in Hval.
  rewrite IZR_cond_Zopp, sgn_mult, Hval. done.
Qed.

Lemma SFadd_error x y :
  finite x = true -> finite y = true ->
  Rabs (B2R x + B2R y) < bpow 1023 ->
  let r := SFadd prec emax x y in
  finite r = true /\
  Rabs (B2R r - (B2R x + B2R y)) <= u * Rabs (B2R x + B2R y) + eta.
Proof.
  intros Hx Hy Hov r. subst r.
  assert (Heta : 0 < eta) by apply bpow_pos.
  assert (Hu : 0 < u) by apply bpow_pos.
  assert (Hexact : forall r v : R, r = v -> Rabs (r - v) <= u * Rabs v + eta).
  { intros r v ->. rewrite Rminus_diag, Rabs_R0.
    pose proof (Rabs_pos v). nra. }
  destruct x as [sx|sx| |sx mx ex], y as [sy|sy| |sy my ey]; try discriminate.
  - split; [by destruct sx, sy|]. apply Hexact. destruct sx, sy; simpl; lra.
  - split; [done|]. apply Hexact. cbn [SFadd B2R]. lra.
  - split; [done|]. apply Hexact. cbn [SFadd B2R]. lra.
  - cbn [SFadd].
    set (ez := Z.min ex ey) in *.
    rewrite <- (aligned_value sx mx ex ez), <- (aligned_value sy my ey ez) in *
      by lia.
    rewrite <- Rmult_plus_distr_r, <- plus_IZR in *.
    by apply binary_normalize_error.
Qed.

Lemma SFsub_error x y :
  finite x = true -> finite y = true ->
  Rabs (B2R x - B2R y) < bpow 1023 ->
  let r := SFsub prec emax x y in
  finite r = true /\
  Rabs (B2R r - (B2R x - B2R y)) <= u * Rabs (B2R x - B2R y) + eta.
Proof.
  intros Hx Hy Hov r. subst r.
  assert (Heta : 0 < eta) by apply bpow_pos.
  assert (Hu : 0 < u) by apply bpow_pos.
  assert (Hexact : forall r v : R, r = v -> Rabs (r - v) <= u * Rabs v + eta).
  { intros r v ->. rewrite Rminus_diag, Rabs_R0.
    pose proof (Rabs_pos v). nra. }
  destruct x as [sx|sx| |sx mx ex], y as [sy|sy| |sy my ey]; try discriminate.
  - split; [by destruct sx, sy|]. apply Hexact. destruct sx, sy; simpl; lra.
  - split; [done|]. apply Hexact. cbn [SFsub B2R].
    destruct sy; simpl; lra.
  - split; [done|]. apply Hexact. cbn [SFsub B2R]. lra.
  - cbn [SFsub].
    set (ez := Z.min ex ey) in *.
    rewrite <- (aligned_value sx mx ex ez), <- (aligned_value sy my ey ez) in *
      by lia.
    rewrite <- Rmult_minus_distr_r, <- minus_IZR in *.
    by apply binary_normalize_error.
Qed.

(** ** Multiplication *)

Lemma sgn_sgn_mult s t a b : sgn s a * sgn t b = sgn (xorb s t) (a * b).
Proof. destruct s, t; simpl; lra. Qed.

Lemma Rabs_sgn s a : Rabs (sgn s a) = Rabs a.
Proof. destruct s; simpl; [apply Rabs_Ropp | done]. Qed.

(** The product with a float whose mantissa has all 53 digits. *)
Lemma SFmul_error x y :
  finite x = true -> finite y = true ->
  (forall s m e, x = S754_finite s m e -> Z.pos (digits2_pos m) = 53%Z) ->
  Rabs (B2R x * B2R y) < bpow 1023 ->
  let r := SFmul prec emax x y in
  finite r = true /\
  Rabs (B2R r - B2R x * B2R y) <= u * Rabs (B2R x * B2R y) + eta.
Proof.
  intros Hx Hy Hdig Hov r. subst r.
  assert (Heta : 0 < eta) by apply bpow_pos.
  destruct x as [sx|sx| |sx mx ex], y as [sy|sy| |sy my ey]; try discriminate;
    try (split; [done|]; cbn [SFmul B2R];
         rewrite ?Rmult_0_l, ?Rmult_0_r, Rminus_diag, Rabs_R0; lra).
  cbn [SFmul B2R] in *.
  rewrite sgn_sgn_mult in *. rewrite Rabs_sgn in *.
  assert (Hmx : 0 < IZR (Z.pos mx)) by (apply IZR_lt; lia).
  assert (Hmy : 0 < IZR (Z.pos my)) by (apply IZR_lt; lia).
  pose proof (bpow_pos ex). pose proof (bpow_pos ey).
  replace (IZR (Z.pos mx) * bpow ex * (IZR (Z.pos my) * bpow ey))
    with (IZR (Z.pos (mx * my)) * bpow (ex + ey)) in *
    by (rewrite Pos2Z.inj_mul, mult_IZR, bpow_add; lra).
  assert (Hp : 0 < IZR (Z.pos (mx * my))) by (apply IZR_lt; lia).
  pose proof (bpow_pos (ex + ey)).
  assert (Hv : 0 < IZR (Z.pos (mx * my)) * bpow (ex + ey)) by nra.
  rewrite (Rabs_pos_eq _ (Rlt_le _ _ Hv)) in Hov |- *.
  apply binary_round_aux_error; try done.
  - simpl. lra.
  - specialize (Hdig sx mx ex eq_refl).
    pose proof (digits2_pos_bounds mx) as Hb. rewrite Hdig in Hb.
    assert (Hge : (2 ^ 52 <= Z.pos (mx * my))%Z).
    { change (53 - 1)%Z with 52%Z in Hb. rewrite Pos2Z.inj_mul. nia. }
    pose proof (Zdigits2_gt _ 52 ltac:(lia) Hge). rewrite fexp_eq. lia.
Qed.

(** ** Division *)

Lemma div_lt_iff a b M : 0 < M -> a < b * M -> a / M < b.
Proof.
  intros HM H. apply (Rmult_lt_reg_r M); [done|].
  unfold Rdiv. rewrite Rmult_assoc, Rinv_l by lra. lra.
Qed.

Lemma div_gt_iff a b M : 0 < M -> b * M < a -> b < a / M.
Proof.
  intros HM H. apply (Rmult_lt_reg_r M); [done|].
  unfold Rdiv. rewrite Rmult_assoc, Rinv_l by lra. lra.
Qed.

Lemma new_location_spec m2 r :
  (0 <= r < m2)%Z -> loc_ok (new_location m2 r) (IZR r / IZR m2).
Proof.
  intros Hr. assert (HM : 0 < IZR m2) by (apply IZR_lt; lia).
  assert (H0 : (r = 0)%Z -> IZR r / IZR m2 = 0).
  { intros ->. unfold Rdiv. lra. }
  assert (Hpos : (r <> 0)%Z -> 0 < IZR r / IZR m2).
  { intros Hne. apply div_gt_iff; [done|]. rewrite Rmult_0_l.
    apply IZR_lt. lia. }
  assert (Hlt1 : IZR r / IZR m2 < 1).
  { apply div_lt_iff; [done|]. rewrite Rmult_1_l. apply IZR_lt. lia. }
  assert (Hlo : (2 * r < m2)%Z -> IZR r / IZR m2 < / 2).
  { intros H. apply div_lt_iff; [done|]. apply IZR_lt in H.
    rewrite mult_IZR in H. lra. }
  assert (Hhi : (m2 < 2 * r)%Z -> / 2 < IZR r / IZR m2).
  { intros H. apply div_gt_iff; [done|]. apply IZR_lt in H.
    rewrite mult_IZR in H. lra. }
  assert (Heq : (2 * r = m2)%Z -> IZR r / IZR m2 = / 2).
  { intros H. assert (0 < IZR r) by (apply IZR_lt; lia).
    rewrite <- H, mult_IZR. field. lra. }
  unfold new_location, new_location_even, new_location_odd.
  destruct (Z.even m2) eqn:Heven.
  - destruct (Z.eqb_spec r 0) as [Hz|Hnz]; [by apply H0|].
    destruct (Z.compare_spec (2 * r) m2); simpl; auto.
  - assert (Hodd : (2 * r <> m2)%Z).
    { intros <-. rewrite Z.even_mul in Heven. done. }
    destruct (Z.eqb_spec r 0) as [Hz|Hnz]; [by apply H0|].
    destruct (Z.compare_spec (2 * r + 1) m2); simpl.
    + split; [by apply Hpos | apply Hlo; lia].
    + split; [by apply Hpos | apply Hlo; lia].
    + split; [apply Hhi; lia | done].
Qed.

Lemma div_core_spec m1 e1 m2 e2 :
  (0 < m1)%Z -> (0 < m2)%Z ->
  exists x0 : R,
    let '(q, e', l) := SFdiv_core_binary prec emax m1 e1 m2 e2 in
    (0 <= q)%Z /\
    loc_ok l (x0 - IZR q) /\
    x0 * bpow e' = IZR m1 * bpow e1 / (IZR m2 * bpow e2) /\
    (e' <= fexp prec emax (Zdigits2 q + e'))%Z.
Proof.
  intros H1 H2. unfold SFdiv_core_binary.
  set (d1 := Zdigits2 m1). set (d2 := Zdigits2 m2).
  set (e' := Z.min (fexp prec emax (d1 + e1 - (d2 + e2))) (e1 - e2)).
  set (s := (e1 - e2 - e')%Z).
  assert (Hs : (0 <= s)%Z) by (unfold s, e'; lia).
  set (m' := match s with
             | 0%Z => m1
             | Z.pos _ => Z.shiftl m1 s
             | Z.neg _ => 0%Z
             end).
  assert (Hm' : m' = (m1 * 2 ^ s)%Z).
  { unfold m'. destruct s as [|p|p] eqn:Hsp; try lia.
    by rewrite Z.shiftl_mul_pow2. }
  pose proof (Z_div_mod m' m2 ltac:(lia)) as Hdiv.
  destruct (Z.div_eucl m' m2) as [q r]. destruct Hdiv as [Hqr Hr].
  assert (HM2 : 0 < IZR m2) by (apply IZR_lt; lia).
  assert (Hpow : (0 < 2 ^ s)%Z) by (apply Z.pow_pos_nonneg; lia).
  assert (Hq : (0 <= q)%Z) by nia.
  exists (IZR m' / IZR m2).
  split; [done|]. split; [|split].
  - replace (IZR m' / IZR m2 - IZR q) with (IZR r / IZR m2).
    + by apply new_location_spec.
    + rewrite Hqr, plus_IZR, mult_IZR. field. lra.
  - rewrite Hm', mult_IZR, <- bpow_IZR by done.
    replace (bpow e1) with (bpow s * bpow e' * bpow e2)
      by (rewrite <- !bpow_add; f_equal; lia).
    field. pose proof (bpow_pos e2). lra.
  - rewrite fexp_eq.
    assert (Hdef : e' = Z.min (Z.max (d1 + e1 - (d2 + e2) - 53) (-1074)) (e1 - e2))
      by reflexivity.
    destruct (Z.le_gt_cases e' (-1074)) as [|Hbig]; [lia|].
    assert (He' : (e' <= d1 + e1 - (d2 + e2) - 53)%Z) by lia.
    assert (Hq52 : (2 ^ 52 <= q)%Z).
    { pose proof (Zdigits2_lower m1 H1) as Hl1. fold d1 in Hl1.
      pose proof (Zdigits2_upper m2 ltac:(lia)) as Hu2. fold d2 in Hu2.
      assert (Hd1 : (0 < d1)%Z) by (unfold d1; destruct m1; simpl in *; lia).
      assert (Hd2 : (0 < d2)%Z) by (unfold d2; destruct m2; simpl in *; lia).
      assert (Hmono : (2 ^ (52 + d2) <= 2 ^ (d1 - 1 + s))%Z)
        by (apply Z.pow_le_mono_r; lia).
      rewrite !Z.pow_add_r in Hmono by lia.
      destruct (Z.le_gt_cases (2 ^ 52) q) as [|Hsmall]; [done|]. exfalso.
      assert (0 < 2 ^ (d1 - 1))%Z by (apply Z.pow_pos_nonneg; lia).
      assert (0 < 2 ^ d2)%Z by (apply Z.pow_pos_nonneg; lia).
      assert (Hlow : (2 ^ (d1 - 1) * 2 ^ s <= m')%Z) by (rewrite Hm'; nia).
      assert (Hupp : (m' < 2 ^ 52 * 2 ^ d2)%Z) by nia.
      lia. }
    pose proof (Zdigits2_gt q 52 ltac:(lia) Hq52). lia.
Qed.

Lemma SFdiv_error x sy my ey :
  finite x = true ->
  Rabs (B2R x / B2R (S754_finite sy my ey)) < bpow 1023 ->
  let r := SFdiv prec emax x (S754_finite sy my ey) in
  finite r = true /\
  Rabs (B2R r - B2R x / B2R (S754_finite sy my ey))
    <= u * Rabs (B2R x / B2R (S754_finite sy my ey)) + eta.
Proof.
  intros Hx Hov r. subst r.
  assert (Heta : 0 < eta) by apply bpow_pos.
  assert (Hmy : 0 < IZR (Z.pos my)) by (apply IZR_lt; lia).
  pose proof (bpow_pos ey) as Hey.
  assert (Hy : 0 < IZR (Z.pos my) * bpow ey) by nra.
  destruct x as [sx|sx| |sx mx ex]; try discriminate.
  - split; [done|]. cbn [SFdiv B2R]. unfold Rdiv.
    rewrite Rmult_0_l, Rminus_diag, Rabs_R0. lra.
  - cbn [SFdiv].
    destruct (div_core_spec (Z.pos mx) ex (Z.pos my) ey ltac:(lia) ltac:(lia))
      as (x0 & Hcore).
    destruct (SFdiv_core_binary prec emax (Z.pos mx) ex (Z.pos my) ey)
      as [[mz ez] lz].
    destruct Hcore as (Hq & Hloc & Hval & Hn).
    assert (Hmx : 0 < IZR (Z.pos mx)) by (apply IZR_lt; lia).
    pose proof (bpow_pos ex) as Hex.
    assert (Hquot : B2R (S754_finite sx mx ex) / B2R (S754_finite sy my ey)
                    = sgn (xorb sx sy) (x0 * bpow ez)).
    { rewrite Hval. cbn [B2R]. destruct sx, sy; simpl; field; lra. }
    rewrite Hquot in *. rewrite Rabs_sgn in *.
    assert (Hv : 0 <= x0 * bpow ez).
    { rewrite Hval. apply Rlt_le, Rdiv_lt_0_compat; nra. }
    rewrite (Rabs_pos_eq _ Hv) in Hov |- *.
    by apply binary_round_aux_error.
Qed.

(** ** Python numbers as reals *)

Lemma u_val : u = / 9007199254740992.
Proof.
  unfold u. change (-53)%Z with (Z.opp 53). rewrite bpow_opp, bpow_IZR by lia.
  reflexivity.
Qed.

Lemma eta_small : eta <= / 9007199254740992.
Proof.
  rewrite <- u_val. unfold eta, u. apply bpow_le. lia.
Qed.

Lemma eta_pos : 0 < eta.
Proof. apply bpow_pos. Qed.

(** Conversion of an [int] to a [float]. *)
Lemma to_float_int z :
  Rabs (IZR z) < bpow 1023 ->
  exists f, to_float (NInt z) = Ok f /\ finite f = true /\
    Rabs (B2R f - IZR z) <= u * Rabs (IZR z) + eta.
Proof.
  intros Hov. exists (F64.of_Z z).
  destruct (binary_normalize_error z 0 false) as [Hfin Herr].
  { by rewrite bpow_0, Rmult_1_r. }
  rewrite bpow_0, Rmult_1_r in Herr.
  split; [|split; [exact Hfin | exact Herr]].
  unfold to_float, F64.of_Z, F64.prec, F64.emax.
  by destruct (binary_normalize 53 1024 z 0 false).
Qed.

(** A nonzero integer below 2^53 is converted exactly, to a float whose
    mantissa has 53 digits. *)
Lemma binary_round_small s p :
  (Z.pos p < 2 ^ 53)%Z ->
  exists m e,
    binary_round prec emax s p 0 = S754_finite s m e /\
    Z.pos (digits2_pos m) = 53%Z /\
    IZR (Z.pos m) * bpow e = IZR (Z.pos p).
Proof.
  intros Hp. unfold binary_round.
  pose proof (digits2_pos_bounds p) as Hb.
  assert (Hd : (Z.pos (digits2_pos p) <= 53)%Z).
  { apply (Zdigits2_le (Z.pos p) 53); lia. }
  destruct (shl_align_spec p 0 (fexp prec emax (Z.pos (digits2_pos p) + 0)))
    as (Hval & Hdig & Hmin).
  rewrite fexp_eq in *.
  destruct (shl_align p 0 _) as [mz ez]. cbn [fst snd] in *.
  rewrite bpow_0, Rmult_1_r in Hval.
  assert (Hez : ez = (Z.pos (digits2_pos p) - 53)%Z) by lia.
  assert (Hdz : Z.pos (digits2_pos mz) = 53%Z) by lia.
  exists mz, ez. split; [|done].
  unfold binary_round_aux, shr_fexp. cbn [Zdigits2].
  rewrite Hdz, fexp_eq.
  replace (Z.max (53 + ez - 53) (-1074) - ez)%Z with 0%Z by lia.
  cbn [shr shr_record_of_loc shr_m loc_of_shr_record round_nearest_even].
  cbn [Zdigits2]. rewrite Hdz, fexp_eq.
  replace (Z.max (53 + ez - 53) (-1074) - ez)%Z with 0%Z by lia.
  cbn [shr shr_record_of_loc shr_m].
  change (1024 - 53)%Z with 971%Z.
  replace (ez <=? 971)%Z with true by (symmetry; apply Z.leb_le; lia).
  done.
Qed.

Lemma of_Z_small z :
  (z <> 0)%Z -> (Z.abs z < 2 ^ 53)%Z ->
  exists s m e,
    F64.of_Z z = S754_finite s m e /\
    Z.pos (digits2_pos m) = 53%Z /\
    B2R (S754_finite s m e) = IZR z.
Proof.
  intros Hz Hlt. unfold F64.of_Z.
  destruct z as [|p|p]; [done| |]; cbn [binary_normalize].
  - destruct (binary_round_small false p Hlt) as (m & e & Hr & Hd & Hv).
    exists false, m, e. split; [exact Hr|]. split; [exact Hd|]. exact Hv.
  - destruct (binary_round_small true p Hlt) as (m & e & Hr & Hd & Hv).
    exists true, m, e. split; [exact Hr|]. split; [exact Hd|].
    cbn [B2R sgn]. rewrite Hv, IZR_neg. done.
Qed.

(** ** The arithmetic operators on numbers *)

Lemma bpow_1023 : bpow 1023 = 8388608 * bpow 1000.
Proof.
  change 1023%Z with (23 + 1000)%Z. rewrite bpow_add, (bpow_IZR 23) by lia.
  reflexivity.
Qed.

Lemma bpow_1000_ge : 1 <= bpow 1000.
Proof. apply bpow_ge_1. lia. Qed.

Ltac triangle x y z :=
  let H := fresh "Htri" in
  pose proof (Rabs_triang y z) as H;
  replace (y + z) with x in H by lra.

(** An operand, converted to a float. *)
Lemma operand_error (n : pynum) :
  numn_ok n = true -> Rabs (Vn n) < bpow 1000 ->
  exists f, to_float n = Ok f /\ finite f = true /\
    Rabs (B2R f - Vn n) <= u * Rabs (Vn n) + eta.
Proof.
  intros Hok Hlt. destruct n as [z|f]; cbn [Vn numn_ok] in *.
  - apply to_float_int. rewrite bpow_1023. pose proof bpow_1000_ge. lra.
  - exists f. split; [done|]. split; [done|].
    rewrite Rminus_diag, Rabs_R0. pose proof eta_pos. pose proof (Rabs_pos (B2R f)).
    rewrite u_val. lra.
Qed.

Lemma float_add_error (a b : pynum) :
  numn_ok a = true -> numn_ok b = true ->
  Rabs (Vn a) < bpow 1000 -> Rabs (Vn b) < bpow 1000 ->
  exists r,
    (fa ← to_float a; fb ← to_float b; Ok (PFloat (F64.add fa fb))) = Ok (PFloat r) /\
    finite r = true /\
    Rabs (B2R r - (Vn a + Vn b)) <= 3 * u * (Rabs (Vn a) + Rabs (Vn b)) + 4 * eta.
Proof.
  intros Ha Hb Hla Hlb.
  destruct (operand_error a Ha Hla) as (fa & -> & Hfa & Hea).
  destruct (operand_error b Hb Hlb) as (fb & -> & Hfb & Heb).
  cbn [mbind result_bind].
  pose proof eta_pos. pose proof eta_small. pose proof bpow_1000_ge.
  pose proof bpow_1023. rewrite u_val in *.
  triangle (B2R fa) (Vn a) (B2R fa - Vn a).
  triangle (B2R fb) (Vn b) (B2R fb - Vn b).
  triangle (B2R fa + B2R fb) (B2R fa) (B2R fb).
  destruct (SFadd_error fa fb Hfa Hfb) as [Hfr Her]; [lra|].
  exists (F64.add fa fb). split; [done|]. split; [exact Hfr|].
  change (F64.add fa fb) with (SFadd 53 1024 fa fb).
  rewrite u_val in Her.
  triangle (B2R (SFadd 53 1024 fa fb) - (Vn a + Vn b))
           (B2R (SFadd 53 1024 fa fb) - (B2R fa + B2R fb))
           ((B2R fa - Vn a) + (B2R fb - Vn b)).
  triangle ((B2R fa - Vn a) + (B2R fb - Vn b)) (B2R fa - Vn a) (B2R fb - Vn b).
  pose proof (Rabs_pos (Vn a)). pose proof (Rabs_pos (Vn b)). lra.
Qed.

Lemma float_sub_error (a b : pynum) :
  numn_ok a = true -> numn_ok b = true ->
  Rabs (Vn a) < bpow 1000 -> Rabs (Vn b) < bpow 1000 ->
  exists r,
    (fa ← to_float a; fb ← to_float b; Ok (PFloat (F64.sub fa fb))) = Ok (PFloat r) /\
    finite r = true /\
    Rabs (B2R r - (Vn a - Vn b)) <= 3 * u * (Rabs (Vn a) + Rabs (Vn b)) + 4 * eta.
Proof.
  intros Ha Hb Hla Hlb.
  destruct (operand_error a Ha Hla) as (fa & -> & Hfa & Hea).
  destruct (operand_error b Hb Hlb) as (fb & -> & Hfb & Heb).
  cbn [mbind result_bind].
  pose proof eta_pos. pose proof eta_small. pose proof bpow_1000_ge.
  pose proof bpow_1023. rewrite u_val in *.
  triangle (B2R fa) (Vn a) (B2R fa - Vn a).
  triangle (B2R fb) (Vn b) (B2R fb - Vn b).
  triangle (B2R fa - B2R fb) (B2R fa) (- B2R fb).
  rewrite Rabs_Ropp in *.
  destruct (SFsub_error fa fb Hfa Hfb) as [Hfr Her]; [lra|].
  exists (F64.sub fa fb). split; [done|]. split; [exact Hfr|].
  change (F64.sub fa fb) with (SFsub 53 1024 fa fb).
  rewrite u_val in Her.
  triangle (B2R (SFsub 53 1024 fa fb) - (Vn a - Vn b))
           (B2R (SFsub 53 1024 fa fb) - (B2R fa - B2R fb))
           ((B2R fa - Vn a) + - (B2R fb - Vn b)).
  triangle ((B2R fa - Vn a) + - (B2R fb - Vn b)) (B2R fa - Vn a) (- (B2R fb - Vn b)).
  rewrite Rabs_Ropp in *.
  pose proof (Rabs_pos (Vn a)). pose proof (Rabs_pos (Vn b)). lra.
Qed.

Lemma py_add_error a b :
  num_ok a = true -> num_ok b = true ->
  Rabs (V a) < bpow 1000 -> Rabs (V b) < bpow 1000 ->
  exists r, py_add a b = Ok r /\ num_ok r = true /\
    (floaty a || floaty b = true -> floaty r = true) /\
    Rabs (V r - (V a + V b)) <= 3 * u * (Rabs (V a) + Rabs (V b)) + 4 * eta.
Proof.
  intros Ha Hb Hla Hlb.
  pose proof eta_pos. pose proof (Rabs_pos (V a)). pose proof (Rabs_pos (V b)).
  destruct a as [|?|x|f|?|?|?], b as [|?|y|g|?|?|?]; try discriminate.
  - exists (PInt (x + y)). split; [done|]. split; [done|]. split; [done|].
    cbn [V] in *. rewrite plus_IZR, Rminus_diag, Rabs_R0, u_val. lra.
  - destruct (float_add_error (NInt x) (NFloat g)) as (r & Hr & Hf & He); try done.
    exists (PFloat r). split; [exact Hr|]. split; [exact Hf|]. split; done.
  - destruct (float_add_error (NFloat f) (NInt y)) as (r & Hr & Hf & He); try done.
    exists (PFloat r). split; [exact Hr|]. split; [exact Hf|]. split; done.
  - destruct (float_add_error (NFloat f) (NFloat g)) as (r & Hr & Hf & He); try done.
    exists (PFloat r). split; [exact Hr|]. split; [exact Hf|]. split; done.
Qed.

Lemma py_sub_error a b :
  num_ok a = true -> num_ok b = true ->
  Rabs (V a) < bpow 1000 -> Rabs (V b) < bpow 1000 ->
  exists r, py_sub a b = Ok r /\ num_ok r = true /\
    (floaty a || floaty b = true -> floaty r = true) /\
    (floaty a || floaty b = false -> exists z, r = PInt z) /\
    Rabs (V r - (V a - V b)) <= 3 * u * (Rabs (V a) + Rabs (V b)) + 4 * eta.
Proof.
  intros Ha Hb Hla Hlb.
  pose proof eta_pos. pose proof (Rabs_pos (V a)). pose proof (Rabs_pos (V b)).
  destruct a as [|?|x|f|?|?|?], b as [|?|y|g|?|?|?]; try discriminate.
  - exists (PInt (x - y)). split; [done|]. split; [done|]. split; [done|].
    split; [by eexists|].
    cbn [V] in *. rewrite minus_IZR, Rminus_diag, Rabs_R0, u_val. lra.
  - destruct (float_sub_error (NInt x) (NFloat g)) as (r & Hr & Hf & He); try done.
    exists (PFloat r). split; [exact Hr|]. split; [exact Hf|]. repeat split; done.
  - destruct (float_sub_error (NFloat f) (NInt y)) as (r & Hr & Hf & He); try done.
    exists (PFloat r). split; [exact Hr|]. split; [exact Hf|]. repeat split; done.
  - destruct (float_sub_error (NFloat f) (NFloat g)) as (r & Hr & Hf & He); try done.
    exists (PFloat r). split; [exact Hr|]. split; [exact Hf|]. repeat split; done.
Qed.

Lemma of_Z_exact c :
  (Z.abs c < 2 ^ 53)%Z ->
  finite (F64.of_Z c) = true /\
  (forall s m e, F64.of_Z c = S754_finite s m e -> Z.pos (digits2_pos m) = 53%Z) /\
  B2R (F64.of_Z c) = IZR c.
Proof.
  intros Hc. destruct (Z.eq_dec c 0) as [->|Hne].
  - change (F64.of_Z 0) with (S754_zero false). repeat split; done.
  - destruct (of_Z_small c Hne Hc) as (s & m & e & -> & Hd & Hv).
    split; [done|]. split; [|exact Hv]. by intros s' m' e' [= _ <- _].
Qed.

Lemma to_float_exact c :
  (Z.abs c < 2 ^ 53)%Z -> to_float (NInt c) = Ok (F64.of_Z c).
Proof.
  intros Hc. destruct (of_Z_exact c Hc) as (Hfin & _).
  unfold to_float. by destruct (F64.of_Z c).
Qed.

(** [p * scale] for an integer coordinate [p]. *)
Lemma py_mul_int_error (c : Z) (s : pyval) :
  (Z.abs c < 2 ^ 53)%Z -> num_ok s = true ->
  Rabs (IZR c * V s) < bpow 1023 ->
  exists r, py_mul (PInt c) s = Ok r /\ num_ok r = true /\
    floaty r = floaty s /\
    Rabs (V r - IZR c * V s) <= u * Rabs (IZR c * V s) + eta.
Proof.
  intros Hc Hs Hov. pose proof eta_pos. pose proof (Rabs_pos (IZR c * V s)).
  destruct s as [|?|z|f|?|?|?]; try discriminate.
  - exists (PInt (c * z)). split; [done|]. split; [done|]. split; [done|].
    cbn [V] in *. rewrite mult_IZR, Rminus_diag, Rabs_R0, u_val. lra.
  - destruct (of_Z_exact c Hc) as (Hfin & Hdig & Hval).
    cbn [V num_ok] in *. rewrite <- Hval in *.
    destruct (SFmul_error (F64.of_Z c) f Hfin Hs Hdig Hov) as [Hfr Herr].
    exists (PFloat (F64.mul (F64.of_Z c) f)).
    split; [|split; [exact Hfr | split; [done | exact Herr]]].
    unfold py_mul. cbn [as_num num_mul]. rewrite (to_float_exact c Hc). done.
Qed.

Lemma IZR_abs_sgn z : IZR z = sgn (z <? 0)%Z (IZR (Z.abs z)).
Proof.
  destruct (Z.ltb_spec z 0); cbn [sgn].
  - rewrite Z.abs_neq, opp_IZR by lia. lra.
  - by rewrite Z.abs_eq by lia.
Qed.

(** The quotient of two integers. *)
Lemma of_ratio_error a b :
  (b <> 0)%Z -> Rabs (IZR a / IZR b) < bpow 1023 ->
  finite (F64.of_ratio a b) = true /\
  Rabs (B2R (F64.of_ratio a b) - IZR a / IZR b)
    <= u * Rabs (IZR a / IZR b) + eta.
Proof.
  intros Hb Hov. pose proof eta_pos.
  assert (HB : 0 < IZR (Z.abs b)) by (apply IZR_lt; lia).
  unfold F64.of_ratio, F64.prec, F64.emax.
  destruct (Z.abs a) as [|p|p] eqn:Ha; [| |lia].
  - assert (a = 0%Z) as -> by lia. split; [done|].
    cbn [B2R]. unfold Rdiv. rewrite Rmult_0_l, Rminus_diag, Rabs_R0. lra.
  - destruct (div_core_spec (Z.pos p) 0 (Z.abs b) 0 ltac:(lia) ltac:(lia))
      as (x0 & Hcore).
    destruct (SFdiv_core_binary 53 1024 (Z.pos p) 0 (Z.abs b) 0) as [[mz ez] lz].
    destruct Hcore as (Hq & Hloc & Hval & Hn).
    rewrite bpow_0, !Rmult_1_r in Hval.
    assert (HA : 0 < IZR (Z.pos p)) by (apply IZR_lt; lia).
    assert (Hquot : IZR a / IZR b
                    = sgn (xorb (a <? 0)%Z (b <? 0)%Z) (x0 * bpow ez)).
    { rewrite Hval, (IZR_abs_sgn a), (IZR_abs_sgn b), Ha.
      destruct (a <? 0)%Z, (b <? 0)%Z; cbn [xorb sgn]; field; lra. }
    rewrite Hquot in *. rewrite Rabs_sgn in *.
    assert (Hv : 0 <= x0 * bpow ez).
    { rewrite Hval. apply Rlt_le, Rdiv_lt_0_compat; lra. }
    rewrite (Rabs_pos_eq _ Hv) in Hov |- *.
    by apply binary_round_aux_error.
Qed.

Lemma py_truediv_error (a s : pyval) :
  num_ok a = true -> divisor_ok s = true ->
  (floaty s = true -> floaty a = true) ->
  Rabs (V a / V s) < bpow 1023 ->
  exists q, py_truediv a s = Ok (PFloat q) /\ finite q = true /\
    Rabs (B2R q - V a / V s) <= u * Rabs (V a / V s) + eta.
Proof.
  intros Ha Hs Hfl Hov.
  destruct a as [|?|x|f|?|?|?]; try discriminate;
    destruct s as [|?|z|[| | |sg mg eg]|?|?|?]; try discriminate;
    try (by specialize (Hfl eq_refl)).
  - (* int / int *)
    cbn [divisor_ok] in Hs. apply andb_true_iff in Hs as [Hz _].
    apply negb_true_iff, Z.eqb_neq in Hz.
    destruct (of_ratio_error x z Hz Hov) as [Hfin Herr].
    exists (F64.of_ratio x z). split; [|done].
    unfold py_truediv. cbn [as_num num_truediv].
    rewrite (proj2 (Z.eqb_neq z 0) Hz). by destruct (F64.of_ratio x z).
  - (* float / int *)
    cbn [divisor_ok] in Hs. apply andb_true_iff in Hs as [Hz Hlt].
    apply negb_true_iff, Z.eqb_neq in Hz. apply Z.ltb_lt in Hlt.
    destruct (of_Z_small z Hz Hlt) as (sg & mg & eg & Hof & _ & Hval).
    cbn [V num_ok] in *. rewrite <- Hval in *.
    destruct (SFdiv_error f sg mg eg Ha Hov) as [Hfin Herr].
    exists (F64.div f (S754_finite sg mg eg)). split; [|done].
    unfold py_truediv. cbn [as_num num_truediv].
    rewrite (to_float_exact z Hlt), Hof. done.
  - (* float / float *)
    cbn [V num_ok] in *.
    destruct (SFdiv_error f sg mg eg Ha Hov) as [Hfin Herr].
    by exists (F64.div f (S754_finite sg mg eg)).
Qed.

(** ** Rounding to an integer *)

Lemma Z_close (a b : Z) : Rabs (IZR a - IZR b) < 1 -> a = b.
Proof.
  rewrite <- minus_IZR. intros H. apply Rabs_def2 in H as [H1 H2].
  apply lt_IZR in H1. rewrite <- (opp_IZR 1) in H2. apply lt_IZR in H2. lia.
Qed.

Lemma round_half_even_shift_error (m k : Z) :
  (0 <= m)%Z -> (0 < k)%Z ->
  Rabs (IZR (F64.round_half_even_shift m k) - IZR m * bpow (- k)) <= / 2.
Proof.
  intros Hm Hk. unfold F64.round_half_even_shift.
  rewrite Z.shiftr_div_pow2, !Z.shiftl_mul_pow2 by lia.
  set (q := (m / 2 ^ k)%Z). set (P := (2 ^ k)%Z).
  assert (HP : (0 < P)%Z) by (apply Z.pow_pos_nonneg; lia).
  assert (Hh : (2 * (1 * 2 ^ (k - 1)) = P)%Z).
  { unfold P. replace k with (Z.succ (k - 1)) at 2 by lia.
    rewrite Z.pow_succ_r by lia. lia. }
  set (h := (1 * 2 ^ (k - 1))%Z) in *.
  assert (Hdm : m = (P * q + m mod P)%Z)
    by (unfold q, P; apply Z.div_mod; unfold P in HP; lia).
  pose proof (Z.mod_pos_bound m P HP) as Hmod.
  set (r := (m - q * P)%Z).
  assert (Hr : (0 <= r < P)%Z) by (unfold r; lia).
  assert (HPR : IZR P = bpow k) by (unfold P; by rewrite bpow_IZR by lia).
  pose proof (bpow_pos k) as Hbk.
  assert (Hval : IZR m * bpow (- k) = IZR q + IZR r / bpow k).
  { rewrite bpow_opp. replace m with (q * P + r)%Z at 1 by (unfold r; lia).
    rewrite plus_IZR, mult_IZR, HPR. field. lra. }
  rewrite Hval.
  assert (Hfr : forall a b : Z, (a < b)%Z -> IZR a < IZR b) by apply IZR_lt.
  assert (H2h : 2 * IZR h = bpow k) by (rewrite <- HPR, <- Hh, mult_IZR; done).
  assert (Hlt1 : IZR r / bpow k < 1).
  { apply div_lt_iff; [done|]. rewrite <- HPR.
    assert (IZR r < IZR P) by (apply IZR_lt; lia). lra. }
  assert (Hge0 : 0 <= IZR r / bpow k).
  { apply Rmult_le_pos; [apply IZR_le; lia | apply Rlt_le, Rinv_0_lt_compat; done]. }
  destruct (Z.ltb_spec r h) as [Hlo|Hge].
  - assert (IZR r / bpow k < / 2).
    { apply div_lt_iff; [done|]. apply Hfr in Hlo. lra. }
    apply Rabs_le. lra.
  - destruct (Z.ltb_spec h r) as [Hhi|Hle].
    + assert (/ 2 < IZR r / bpow k).
      { apply div_gt_iff; [done|]. apply Hfr in Hhi. lra. }
      rewrite plus_IZR. apply Rabs_le. lra.
    + assert (r = h) as Heq by lia.
      assert (IZR r / bpow k = / 2).
      { rewrite Heq, <- H2h. field.
        assert (0 < IZR h) by (apply (IZR_lt 0); lia). lra. }
      destruct (Z.even q); rewrite ?plus_IZR; apply Rabs_le; lra.
Qed.

Lemma round_finite_error s m e :
  Rabs (IZR (F64.round_finite s m e) - B2R (S754_finite s m e)) <= / 2.
Proof.
  unfold F64.round_finite. cbn [B2R].
  assert (Hsgn : forall a v : R, Rabs (a - v) <= / 2 ->
            Rabs ((if s then - a else a) - sgn s v) <= / 2).
  { intros a v H. destruct s; simpl; [|done].
    replace (- a - - v) with (- (a - v)) by lra. by rewrite Rabs_Ropp. }
  destruct (Z.leb_spec 0 e) as [He|He].
  - replace (IZR (if s then - Z.shiftl (Z.pos m) e else Z.shiftl (Z.pos m) e))
      with (if s then - IZR (Z.shiftl (Z.pos m) e) else IZR (Z.shiftl (Z.pos m) e))
      by (destruct s; [by rewrite opp_IZR | done]).
    apply Hsgn. rewrite Z.shiftl_mul_pow2, mult_IZR, <- bpow_IZR by done.
    rewrite Rminus_diag, Rabs_R0. lra.
  - replace (IZR (if s then - F64.round_half_even_shift (Z.pos m) (- e)
                  else F64.round_half_even_shift (Z.pos m) (- e)))
      with (if s then - IZR (F64.round_half_even_shift (Z.pos m) (- e))
            else IZR (F64.round_half_even_shift (Z.pos m) (- e)))
      by (destruct s; [by rewrite opp_IZR | done]).
    apply Hsgn.
    pose proof (round_half_even_shift_error (Z.pos m) (- e) ltac:(lia) ltac:(lia)) as H.
    by rewrite Z.opp_involutive in H.
Qed.

(** A float within a quarter of the integer [c] rounds to [c]. *)
Lemma py_round_near (q : spec_float) (c : Z) :
  finite q = true -> Rabs (B2R q - IZR c) <= / 4 ->
  py_round (PFloat q) = Ok (PInt c).
Proof.
  intros Hfin Hq. unfold py_round. cbn [as_num].
  destruct q as [s|s| |s m e]; try discriminate; cbn [num_round].
  - cbn [B2R] in Hq. assert (c = 0%Z) as ->; [|done].
    symmetry. apply Z_close.
    replace (IZR 0 - IZR c) with (0 - IZR c) by done. lra.
  - pose proof (round_finite_error s m e) as Hr.
    assert (F64.round_finite s m e = c) as ->; [|done].
    apply Z_close.
    pose proof (Rabs_triang (IZR (F64.round_finite s m e) - B2R (S754_finite s m e))
                  (B2R (S754_finite s m e) - IZR c)) as Ht.
    replace (IZR (F64.round_finite s m e) - B2R (S754_finite s m e) +
             (B2R (S754_finite s m e) - IZR c))
      with (IZR (F64.round_finite s m e) - IZR c) in Ht by lra.
    lra.
Qed.

Lemma py_neg_float (q : spec_float) :
  finite q = true ->
  py_neg (PFloat q) = Ok (PFloat (F64.opp q)) /\
  finite (F64.opp q) = true /\ B2R (F64.opp q) = - B2R q.
Proof.
  intros Hfin. split; [done|].
  destruct q as [s|s| |s m e]; try discriminate; cbn [F64.opp SFopp finite B2R].
  - split; [done | lra].
  - split; [done|]. destruct s; simpl; lra.
Qed.

(** ** Magnitudes *)

Lemma Rabs_finite s m e :
  Rabs (B2R (S754_finite s m e)) = IZR (Z.pos m) * bpow e.
Proof.
  cbn [B2R]. rewrite Rabs_sgn. apply Rabs_pos_eq.
  apply Rmult_le_pos; [apply IZR_le; lia | apply Rlt_le, bpow_pos].
Qed.

Lemma at_least_pow2_spec v k :
  at_least_pow2 v k = true -> num_ok v = true /\ bpow k <= Rabs (V v).
Proof.
  destruct v as [|?|z|[| | |s m e]|?|?|?]; try discriminate; cbn [at_least_pow2 V num_ok].
  - intros H. split; [done|]. rewrite <- abs_IZR.
    destruct (Z.ltb_spec k 0) as [Hk|Hk].
    + apply negb_true_iff, Z.eqb_neq in H.
      assert (bpow k <= bpow 0) by (apply bpow_le; lia).
      assert (IZR 1 <= IZR (Z.abs z)) by (apply IZR_le; lia).
      rewrite bpow_0 in *. lra.
    + apply Z.leb_le in H. rewrite bpow_IZR by done. by apply IZR_le.
  - intros H%Z.ltb_lt. split; [done|]. rewrite Rabs_finite.
    pose proof (digits2_pos_bounds m) as [Hlo _].
    assert (H1 : bpow (Z.pos (digits2_pos m) - 1) <= IZR (Z.pos m))
      by (rewrite bpow_IZR by lia; by apply IZR_le).
    assert (H2 : bpow k <= bpow (Z.pos (digits2_pos m) - 1 + e))
      by (apply bpow_le; lia).
    rewrite bpow_add in H2. pose proof (bpow_pos e). nra.
Qed.

Lemma below_pow2_spec v k :
  below_pow2 v k = true -> num_ok v = true /\ Rabs (V v) < bpow k.
Proof.
  destruct v as [|?|z|[| | |s m e]|?|?|?]; try discriminate; cbn [below_pow2 V num_ok].
  - intros H. split; [done|]. rewrite <- abs_IZR.
    destruct (Z.ltb_spec k 0) as [Hk|Hk].
    + apply Z.eqb_eq in H. subst z. simpl. apply bpow_pos.
    + apply Z.ltb_lt in H. rewrite bpow_IZR by done. by apply IZR_lt.
  - intros _. split; [done|]. cbn [B2R]. rewrite Rabs_R0. apply bpow_pos.
  - intros H%Z.leb_le. split; [done|]. rewrite Rabs_finite.
    pose proof (digits2_pos_bounds m) as [_ Hhi].
    assert (H1 : IZR (Z.pos m) < bpow (Z.pos (digits2_pos m)))
      by (rewrite bpow_IZR by lia; by apply IZR_lt).
    assert (H2 : bpow (Z.pos (digits2_pos m) + e) <= bpow k)
      by (apply bpow_le; lia).
    rewrite bpow_add in H2. pose proof (bpow_pos e). nra.
Qed.

Lemma divisor_ok_of v k :
  exact_double v = true -> at_least_pow2 v k = true -> divisor_ok v = true.
Proof.
  destruct v as [|?|z|[| | |s m e]|?|?|?]; try discriminate; cbn; [|done].
  intros H1 H2. rewrite H1, andb_true_r.
  destruct (Z.ltb_spec k 0); [done|].
  apply Z.leb_le in H2. apply negb_true_iff, Z.eqb_neq.
  pose proof (Z.pow_pos_nonneg 2 k). lia.
Qed.

(** ** One axis, there and back *)

Lemma near_round q c : near q c -> py_round (PFloat q) = Ok (PInt c).
Proof. intros [Hf Hq]. by apply py_round_near. Qed.

Lemma near_neg q c :
  near q c ->
  exists q', py_neg (PFloat q) = Ok (PFloat q') /\ near q' (- c).
Proof.
  intros [Hf Hq]. destruct (py_neg_float q Hf) as (Hn & Hf' & Hv).
  exists (F64.opp q). split; [exact Hn|]. split; [exact Hf'|].
  rewrite Hv, opp_IZR.
  replace (- B2R q - - IZR c) with (- (B2R q - IZR c)) by lra.
  by rewrite Rabs_Ropp.
Qed.

Lemma Rabs_div_le (D S d : R) :
  0 < Rabs S -> Rabs D <= d * Rabs S -> Rabs (D / S) <= d.
Proof.
  intros HS HD.
  assert (S <> 0) by (intros ->; rewrite Rabs_R0 in HS; lra).
  unfold Rdiv. rewrite Rabs_mult, Rabs_inv.
  apply (Rmult_le_reg_r (Rabs S)); [done|].
  rewrite Rmult_assoc, Rinv_l by lra. lra.
Qed.

Lemma bpow_1000 : bpow 1000 = 1267650600228229401496703205376 * bpow 900.
Proof.
  change 1000%Z with (100 + 900)%Z. rewrite bpow_add, (bpow_IZR 100) by lia.
  reflexivity.
Qed.

Lemma bpow_45 k : bpow (k + 45) = 35184372088832 * bpow k.
Proof. rewrite bpow_add, (bpow_IZR 45) by lia. change (2 ^ 45)%Z with 35184372088832%Z. lra. Qed.

Lemma eta_against k : (-900 <= k)%Z -> eta <= / 1152921504606846976 * bpow k.
Proof.
  intros Hk.
  assert (H : eta <= bpow (-60 + k)) by (apply bpow_le; lia).
  rewrite bpow_add in H. change (-60)%Z with (Z.opp 60) in H.
  rewrite bpow_opp, (bpow_IZR 60) in H by lia. exact H.
Qed.

(** An integer coordinate is scaled and moved by the origin, moved back
    and divided by the scale: the quotient is within a quarter of the
    coordinate. *)
Lemma axis_round_trip (self : entity) (i : Z) (o : pyval) (c k : Z) :
  py_getitem (_position_relative_origin self) i = Ok o ->
  (Z.abs c <= 2 ^ 45)%Z ->
  exact_double (_position_relative_scale self) = true ->
  at_least_pow2 (_position_relative_scale self) k = true ->
  (-900 <= k)%Z ->
  below_pow2 (_position_relative_scale self) 900 = true ->
  below_pow2 o (k + 45) = true ->
  exists rel q,
    to_relative_axis self i (PInt c) = Ok rel /\
    to_absolute_axis self i rel = Ok (PFloat q) /\
    near q c.
Proof.
  intros Hitem Hc Hexact Hlow Hk Hhigh Ho.
  unfold to_relative_axis, to_absolute_axis. rewrite Hitem.
  set (s := _position_relative_scale self) in *.
  pose proof (divisor_ok_of s k Hexact Hlow) as Hdiv.
  destruct (at_least_pow2_spec s k Hlow) as [Hsok HSlo].
  destruct (below_pow2_spec s 900 Hhigh) as [_ HShi].
  destruct (below_pow2_spec o (k + 45) Ho) as [Hook HO].
  rewrite bpow_45 in HO.
  pose proof (eta_against k Hk) as Heta.
  pose proof eta_pos as Heta0. pose proof eta_small as Heta1.
  pose proof (bpow_pos k) as Hbk.
  pose proof bpow_1000 as Hb1000. pose proof bpow_1023 as Hb1023.
  assert (HC : Rabs (IZR c) <= 35184372088832).
  { rewrite <- abs_IZR. change 35184372088832 with (IZR (2 ^ 45)).
    by apply IZR_le. }
  set (S := V s) in *. set (C := IZR c) in *. set (O := V o) in *.
  assert (HX : Rabs (C * S) <= 35184372088832 * Rabs S).
  { rewrite Rabs_mult. pose proof (Rabs_pos S). nra. }
  pose proof (Rabs_pos (C * S)) as HX0.
  pose proof (Rabs_pos O) as HO0.
  (* the product *)
  destruct (py_mul_int_error c s) as (t1 & Hmul & Ht1ok & Ht1fl & Ht1);
    [lia | done | fold S C; lra |].
  fold S C in Ht1. rewrite Hmul. cbn [mbind result_bind].
  rewrite u_val in Ht1.
  triangle (V t1) (C * S) (V t1 - C * S).
  (* the sum *)
  destruct (py_add_error t1 o) as (t2 & Hadd & Ht2ok & Ht2fl & Ht2);
    [done | done | lra | fold O; lra |].
  fold O in Ht2. rewrite Hadd. rewrite u_val in Ht2.
  triangle (V t2) (V t1 + O) (V t2 - (V t1 + O)).
  triangle (V t1 + O) (V t1) O.
  (* the difference *)
  destruct (py_sub_error t2 o) as (t3 & Hsub & Ht3ok & Ht3fl & _ & Ht3);
    [done | done | lra | fold O; lra |].
  fold O in Ht3. rewrite u_val in Ht3.
  set (D := V t3 - C * S).
  assert (HDdef : D = V t3 - C * S) by reflexivity. clearbody D.
  triangle D (V t3 - (V t2 - O)) ((V t2 - (V t1 + O)) + (V t1 - C * S)).
  triangle ((V t2 - (V t1 + O)) + (V t1 - C * S)) (V t2 - (V t1 + O)) (V t1 - C * S).
  assert (HD : Rabs D <= / 8 * Rabs S) by lra.
  assert (HS0 : 0 < Rabs S) by lra.
  assert (HSne : S <> 0) by (intros E; rewrite E, Rabs_R0 in HS0; lra).
  pose proof (Rabs_div_le D S (/ 8) HS0 HD) as HDS.
  assert (Hquot : V t3 / S = C + D / S) by (rewrite HDdef; field; done).
  pose proof (Rabs_triang C (D / S)) as Htq. rewrite <- Hquot in Htq.
  (* the quotient *)
  destruct (py_truediv_error t3 s) as (q & Hq & Hqfin & Hqerr).
  - done.
  - done.
  - intros Hfs. apply Ht3fl. rewrite Ht2fl; [done|]. by rewrite Ht1fl, Hfs.
  - fold S. pose proof (bpow_ge_1 900 ltac:(lia)). lra.
  - exists t2, q. split; [done|].
    split; [cbn [mbind result_bind]; rewrite Hsub; exact Hq|].
    split; [exact Hqfin|]. change (IZR c) with C.
    fold S in Hqerr. rewrite u_val in Hqerr.
    pose proof (Rabs_triang (B2R q - V t3 / S) (D / S)) as Hfinal.
    replace (B2R q - V t3 / S + D / S) with (B2R q - C) in Hfinal
      by (rewrite Hquot; lra).
    lra.
Qed.

End FloatBounds.

(** C3 (as amended): for every rotation mode, converting an integer
    position to relative coordinates and back returns the position
    itself, when the numbers are within the reach of double precision:
    both coordinates are at most 2^45 in magnitude; the scale is a
    finite float, or an integer below 2^53, with 2^k <= |scale| < 2^900
    for some k >= -900; and both entries of the origin are integers or
    finite floats below 2^45 * 2^k in magnitude.  Under these bounds
    the rounding errors of the four float operations of an axis add up
    to less than a quarter, so that [round] gives the coordinate back. *)
Theorem relative_absolute_round_trip (self : entity) (px py k : Z)
    (ox oy : pyval) :
  _attrs self !! POSITION = Some (PList [PInt px; PInt py]) ->
  Z.abs px <= 2 ^ 45 ->
  Z.abs py <= 2 ^ 45 ->
  exact_double (_position_relative_scale self) = true ->
  at_least_pow2 (_position_relative_scale self) k = true ->
  -900 <= k ->
  below_pow2 (_position_relative_scale self) 900 = true ->
  _position_relative_origin self = PList [ox; oy] ->
  below_pow2 ox (k + 45) = true ->
  below_pow2 oy (k + 45) = true ->
  exists rx ry,
    get_relative_position self = Ok (Some (PList [rx; ry])) /\
    calculate_absolute_position self rx ry = Ok (PInt px, PInt py).
Proof.
  intros Hpos Hpx Hpy Hexact Hlow Hk Hhigh Horigin Hox Hoy.
  assert (Hitem0 : py_getitem (_position_relative_origin self) 0 = Ok ox)
    by (by rewrite Horigin).
  assert (Hitem1 : py_getitem (_position_relative_origin self) 1 = Ok oy)
    by (by rewrite Horigin).
  assert (Haxis0 : forall c, Z.abs c <= 2 ^ 45 ->
    exists rel q, to_relative_axis self 0 (PInt c) = Ok rel /\
      to_absolute_axis self 0 rel = Ok (PFloat q) /\ F64R.near q c).
  { intros c Hc. by apply (FloatBounds.axis_round_trip self 0 ox c k). }
  assert (Haxis1 : forall c, Z.abs c <= 2 ^ 45 ->
    exists rel q, to_relative_axis self 1 (PInt c) = Ok rel /\
      to_absolute_axis self 1 rel = Ok (PFloat q) /\ F64R.near q c).
  { intros c Hc. by apply (FloatBounds.axis_round_trip self 1 oy c k). }
  assert (Hthere : forall cx cy rx ry,
    rotate_coordinates self (PInt px) (PInt py) = Ok (PInt cx, PInt cy) ->
    to_relative_axis self 0 (PInt cx) = Ok rx ->
    to_relative_axis self 1 (PInt cy) = Ok ry ->
    get_relative_position self = Ok (Some (PList [rx; ry]))).
  { intros cx cy rx ry Hrot Hrx Hry. unfold get_relative_position.
    rewrite Hpos.
    change (default PNone (Some (PList [PInt px; PInt py])))
      with (PList [PInt px; PInt py]).
    cbv beta iota.
    change (py_unpack2 (PList [PInt px; PInt py])) with (Ok (PInt px, PInt py)).
    cbn [mbind result_bind]. cbv beta iota. rewrite Hrot.
    cbn [mbind result_bind]. cbv beta iota.
    rewrite Hrx. cbn [mbind result_bind]. by rewrite Hry. }
  unfold calculate_absolute_position.
  pose proof (Z.abs_opp px) as Hopx. pose proof (Z.abs_opp py) as Hopy.
  destruct (_position_axis_rotation self =? 0) eqn:H0;
    [|destruct (_position_axis_rotation self =? 1) eqn:H1;
      [|destruct (_position_axis_rotation self =? 2) eqn:H2;
        [|destruct (_position_axis_rotation self =? 3) eqn:H3]]].
  - destruct (Haxis0 px Hpx) as (rx & qx & Hrx & Hqx & Hnx).
    destruct (Haxis1 (- py) ltac:(lia)) as (ry & qy & Hry & Hqy & Hny).
    exists rx, ry. split.
    + apply (Hthere px (- py)); [|done|done].
      unfold rotate_coordinates. by rewrite H0.
    + rewrite Hqx, Hqy. cbn [mbind result_bind]. cbv beta iota.
      unfold rotate_coordinates. rewrite H0.
      destruct (FloatBounds.near_neg _ _ Hny) as (qy' & -> & Hny').
      cbn [mbind result_bind].
      rewrite (FloatBounds.near_round _ _ Hnx), (FloatBounds.near_round _ _ Hny').
      cbn [mbind result_bind]. by rewrite Z.opp_involutive.
  - destruct (Haxis0 py Hpy) as (rx & qx & Hrx & Hqx & Hnx).
    destruct (Haxis1 px Hpx) as (ry & qy & Hry & Hqy & Hny).
    exists rx, ry. split.
    + apply (Hthere py px); [|done|done].
      unfold rotate_coordinates. by rewrite H0, H1.
    + rewrite Hqx, Hqy. cbn [mbind result_bind]. cbv beta iota.
      unfold rotate_coordinates. rewrite H0, H1.
      cbn [mbind result_bind].
      by rewrite (FloatBounds.near_round _ _ Hnx), (FloatBounds.near_round _ _ Hny).
  - destruct (Haxis0 (- px) ltac:(lia)) as (rx & qx & Hrx & Hqx & Hnx).
    destruct (Haxis1 py Hpy) as (ry & qy & Hry & Hqy & Hny).
    exists rx, ry. split.
    + apply (Hthere (- px) py); [|done|done].
      unfold rotate_coordinates. by rewrite H0, H1, H2.
    + rewrite Hqx, Hqy. cbn [mbind result_bind]. cbv beta iota.
      unfold rotate_coordinates. rewrite H0, H1, H2.
      destruct (FloatBounds.near_neg _ _ Hnx) as (qx' & -> & Hnx').
      cbn [mbind result_bind].
      rewrite (FloatBounds.near_round _ _ Hnx'), (FloatBounds.near_round _ _ Hny).
      cbn [mbind result_bind]. by rewrite Z.opp_involutive.
  - destruct (Haxis0 (- px) ltac:(lia)) as (rx & qx & Hrx & Hqx & Hnx).
    destruct (Haxis1 (- py) ltac:(lia)) as (ry & qy & Hry & Hqy & Hny).
    exists rx, ry. split.
    + apply (Hthere (- px) (- py)); [|done|done].
      unfold rotate_coordinates. by rewrite H0, H1, H2, H3.
    + rewrite Hqx, Hqy. cbn [mbind result_bind]. cbv beta iota.
      unfold rotate_coordinates. rewrite H0, H1, H2, H3.
      destruct (FloatBounds.near_neg _ _ Hnx) as (qx' & -> & Hnx').
      destruct (FloatBounds.near_neg _ _ Hny) as (qy' & -> & Hny').
      cbn [mbind result_bind].
      rewrite (FloatBounds.near_round _ _ Hnx'), (FloatBounds.near_round _ _ Hny').
      cbn [mbind result_bind]. by rewrite !Z.opp_involutive.
  - destruct (Haxis0 px Hpx) as (rx & qx & Hrx & Hqx & Hnx).
    destruct (Haxis1 py Hpy) as (ry & qy & Hry & Hqy & Hny).
    exists rx, ry. split.
    + apply (Hthere px py); [|done|done].
      unfold rotate_coordinates. by rewrite H0, H1, H2, H3.
    + rewrite Hqx, Hqy. cbn [mbind result_bind]. cbv beta iota.
      unfold rotate_coordinates. rewrite H0, H1, H2, H3.
      cbn [mbind result_bind].
      by rewrite (FloatBounds.near_round _ _ Hnx), (FloatBounds.near_round _ _ Hny).
Qed.

(** Scale 0.1, origin [10, 20], rotation 3 and the position [3, 4]:
    the quotients are not exact (-3.000000000000007 and
    -3.999999999999986), and the position comes back as (3, 4). *)
Lemma relative_absolute_round_trip_witness :
  let self := positioned (Some (F64.of_decimal 1 (-1))) (Some "[10, 20]") (Some 3)
                "eyJkYXRhIjp7InBvc0FycmF5IjpbWzMsNF1dfX0=" in
  exists rx ry,
    get_relative_position self = Ok (Some (PList [rx; ry])) /\
    calculate_absolute_position self rx ry = Ok (PInt 3, PInt 4).
Proof.
  intros self.
  apply (relative_absolute_round_trip self 3 4 (-4) (PInt 10) (PInt 20));
    vm_compute; first [ reflexivity | discriminate ].
Defined.

(** C3 as stated fails, in two ways.  With the scale option 0.0 the
    position [1, 2] has the relative position [0.0, 0.0], and converting
    that back raises [ZeroDivisionError].  With the scale 1e-20 and the
    origin [1, 1] the position [5, 7] has the relative position
    [1.0, 1.0], because 1 + 5e-20 rounds to 1.0, and that converts back
    to (0, 0). *)
Lemma round_trip_counterexample :
  let zero := positioned (Some (S754_zero false)) None (Some 0)
                "eyJkYXRhIjp7InBvc0FycmF5IjpbWzEsMl1dfX0=" in
  let tiny := positioned (Some (F64.of_decimal 1 (-20))) (Some "[1, 1]") (Some 0)
                "eyJkYXRhIjp7InBvc0FycmF5IjpbWzUsN11dfX0=" in
  let zero_f := PFloat (S754_zero false) in
  let one_f := PFloat (F64.of_Z 1) in
  (_attrs zero !! POSITION = Some (PList [PInt 1; PInt 2]) /\
   get_relative_position zero = Ok (Some (PList [zero_f; zero_f])) /\
   calculate_absolute_position zero zero_f zero_f = Raise ZeroDivisionError) /\
  (_attrs tiny !! POSITION = Some (PList [PInt 5; PInt 7]) /\
   get_relative_position tiny = Ok (Some (PList [one_f; one_f])) /\
   calculate_absolute_position tiny one_f one_f = Ok (PInt 0, PInt 0)).
Proof. vm_compute. by repeat split. Qed.

(** ** Rounding of halves in [clean_area] *)

(** C9 (as amended): with scale 1, origin [0, 0] and rotation 0, the
    relative vertices [[0.5, 0.5], [0.6, 0.5]] become the absolute
    vertices [[0, 0], [1, 0]] in the command written to datapoint 127:
    [round] rounds a half to the even neighbour, so (0.5, 0.5), rotated
    to (0.5, -0.5), converts to (0, 0). *)
Theorem clean_area_rounds_half_to_even (self : entity) (now : Z) :
  _position_relative_scale self = PInt 1 \/
  _position_relative_scale self = PFloat (F64.of_Z 1) ->
  _position_relative_origin self = PList [PInt 0; PInt 0] ->
  _position_axis_rotation self = 0 ->
  calculate_absolute_position self (PFloat float_0_5) (PFloat float_0_5)
    = Ok (PInt 0, PInt 0) /\
  async_send_command self "clean_area" half_vertices now =
    Ok [SetDp (WBase64Json (get_command_params_clean now
                 (PList [PList [PInt 0; PInt 0]; PList [PInt 1; PInt 0]])
                 (PInt DEFAULT_MAP_ID))) 127].
Proof.
  intros Hscale Horigin Hrot.
  assert (Hcalc : forall x y, In (x, y) [(float_0_5, 0); (float_0_6, 1)] ->
    calculate_absolute_position self (PFloat x) (PFloat float_0_5)
      = Ok (PInt y, PInt 0)).
  { intros x y Hin. unfold calculate_absolute_position, to_absolute_axis,
      rotate_coordinates. rewrite Horigin, Hrot.
    destruct Hin as [[= <- <-] | [[= <- <-] | []]];
      destruct Hscale as [-> | ->]; vm_compute; reflexivity. }
  split; [apply (Hcalc float_0_5 0); by left|].
  unfold async_send_command.
  change (String.eqb "clean_area" "set_mode") with false.
  change (String.eqb "clean_area" "clean_room") with false.
  change (String.eqb "clean_area" "clean_spot") with false.
  change (String.eqb "clean_area" "clean_area") with true.
  cbv iota. rewrite andb_false_l. cbv iota.
  change (params_contains half_vertices "vertices") with false. cbv iota.
  change (params_get half_vertices "relative_vertices" (PList []))
    with (Ok (PList [PList [PFloat float_0_5; PFloat float_0_5];
                     PList [PFloat float_0_6; PFloat float_0_5]])).
  change (params_get half_vertices "map_id" (PInt DEFAULT_MAP_ID))
    with (Ok (PInt DEFAULT_MAP_ID)).
  simpl. rewrite (Hcalc float_0_5 0) by (by left). simpl.
  rewrite (Hcalc float_0_6 1) by (right; by left). reflexivity.
Qed.

(** The entity built from the options scale 1.0, origin [0,0] and
    rotation 0. *)
Lemma clean_area_rounds_half_to_even_witness :
  async_send_command
    (positioned (Some (F64.of_Z 1)) (Some "[0,0]") (Some 0) "W10=")
    "clean_area" half_vertices 1000 =
    Ok [SetDp (WBase64Json (get_command_params_clean 1000
                 (PList [PList [PInt 0; PInt 0]; PList [PInt 1; PInt 0]])
                 (PInt DEFAULT_MAP_ID))) 127].
Proof.
  refine (proj2 (clean_area_rounds_half_to_even _ 1000 _ _ _));
    [right; vm_compute; reflexivity | vm_compute; reflexivity
    | vm_compute; reflexivity].
Defined.

(** C9 as stated fails: with scale 1.0, origin [0,0] and rotation 0 the
    point (0.5, 0.5) converts to (0, 0), not to (1, -1), and the
    vertices written are [[0, 0], [1, 0]], not [[1, -1], [1, -1]]. *)
Lemma clean_area_half_counterexample :
  let self := positioned (Some (F64.of_Z 1)) (Some "[0,0]") (Some 0) "W10=" in
  _position_relative_scale self = PFloat (F64.of_Z 1) /\
  _position_relative_origin self = PList [PInt 0; PInt 0] /\
  _position_axis_rotation self = 0 /\
  calculate_absolute_position self (PFloat float_0_5) (PFloat float_0_5)
    <> Ok (PInt 1, PInt (-1)) /\
  async_send_command self "clean_area" half_vertices 1000 <>
    Ok [SetDp (WBase64Json (get_command_params_clean 1000
                 (PList [PList [PInt 1; PInt (-1)]; PList [PInt 1; PInt (-1)]])
                 (PInt DEFAULT_MAP_ID))) 127].
Proof. vm_compute. repeat split; discriminate. Qed.

(** * Further properties *)

(** ** Rotation *)

(** X2: on integers and floats every rotation mode is its own inverse:
    rotating a pair twice gives the pair back, and neither step raises. *)
Theorem rotate_coordinates_involution (self : entity) (a b : pyval) :
  is_number a = true -> is_number b = true ->
  exists c d,
    rotate_coordinates self a b = Ok (c, d) /\
    rotate_coordinates self c d = Ok (a, b).
Proof.
  intros Ha Hb. unfold rotate_coordinates.
  assert (Hneg : forall v, is_number v = true ->
    exists w, py_neg v = Ok w /\ py_neg w = Ok v /\ is_number w = true).
  { intros [| | z | f | | |] Hv; try discriminate Hv.
    - exists (PInt (- z)). unfold py_neg; simpl. by rewrite Z.opp_involutive.
    - exists (PFloat (F64.opp f)). unfold py_neg; simpl.
      split; [done|]. split; [|done]. by destruct f as [[]|[]| |[] m e]. }
  destruct (Hneg a Ha) as (na & Hna & Hna' & _).
  destruct (Hneg b Hb) as (nb & Hnb & Hnb' & _).
  repeat case_match; rewrite ?Hna, ?Hnb; simpl; eexists _, _;
    (split; [reflexivity|]); rewrite ?Hna', ?Hnb'; reflexivity.
Qed.

(** Rotation 3 on the pair (3, -2.5). *)
Lemma rotate_coordinates_involution_witness :
  exists c d,
    rotate_coordinates (positioned None None (Some 3) "W10=")
      (PInt 3) (PFloat (F64.of_decimal (-25) (-1))) = Ok (c, d) /\
    rotate_coordinates (positioned None None (Some 3) "W10=") c d
      = Ok (PInt 3, PFloat (F64.of_decimal (-25) (-1))).
Proof.
  apply rotate_coordinates_involution; reflexivity.
Defined.

(** X3: with an integer scale and an integer origin, the relative
    position of an integer position is the rotated pair, times the
    scale, plus the origin, in exact integer arithmetic. *)
Theorem relative_position_of_integers (self : entity) (px py s ox oy : Z) :
  _attrs self !! POSITION = Some (PList [PInt px; PInt py]) ->
  _position_relative_scale self = PInt s ->
  _position_relative_origin self = PList [PInt ox; PInt oy] ->
  get_relative_position self =
    Ok (Some (PList
      [PInt ((rotate_Z (_position_axis_rotation self) px py).1 * s + ox);
       PInt ((rotate_Z (_position_axis_rotation self) px py).2 * s + oy)])).
Proof.
  intros Hpos Hs Ho. unfold get_relative_position, to_relative_axis.
  rewrite Hpos, Hs, Ho. simpl. unfold rotate_coordinates, rotate_Z.
  repeat case_match; reflexivity.
Qed.

(** The defaults (scale 1, origin [0, 0], rotation 0) mirror the second
    axis: the position [3, 4] is at [3, -4]. *)
Lemma relative_position_of_integers_witness :
  get_relative_position
    (positioned None None None "eyJkYXRhIjp7InBvc0FycmF5IjpbWzMsNF1dfX0=")
  = Ok (Some (PList [PInt 3; PInt (-4)])).
Proof.
  rewrite (relative_position_of_integers _ 3 4 1 0 0); vm_compute; reflexivity.
Defined.

(** ** [clean_area] *)

Ltac dispatch_clean_area :=
  unfold async_send_command;
  change (String.eqb "clean_area" "set_mode") with false;
  change (String.eqb "clean_area" "clean_room") with false;
  change (String.eqb "clean_area" "clean_spot") with false;
  change (String.eqb "clean_area" "clean_area") with true;
  cbv iota; rewrite andb_false_l; cbv iota.

(** A position that is returned is a pair of integers. *)
Lemma absolute_position_integral self x y a b :
  calculate_absolute_position self x y = Ok (a, b) ->
  exists ax ay, a = PInt ax /\ b = PInt ay.
Proof.
  unfold calculate_absolute_position, py_round. intros H.
  destruct (to_absolute_axis self 0 x); simpl in H; [|discriminate].
  destruct (to_absolute_axis self 1 y); simpl in H; [|discriminate].
  destruct (rotate_coordinates self _ _) as [[px py]|]; simpl in H; [|discriminate].
  destruct (as_num px) as [nx|]; simpl in H; [|discriminate].
  destruct (num_round nx) as [rx|]; simpl in H; [|discriminate].
  destruct (as_num py) as [ny|]; simpl in H; [|discriminate].
  destruct (num_round ny) as [ry|]; simpl in H; [|discriminate].
  injection H as <- <-. by eexists _, _.
Qed.

(** The loop of [clean_area] converts the items one by one, in order. *)
Lemma absolute_vertices_converted self items vertices :
  absolute_vertices self items = Ok vertices <->
  Forall2 (converted_vertex self) items vertices.
Proof.
  revert vertices. induction items as [|item items IH]; intros vertices; simpl.
  - split.
    + intros [= <-]. constructor.
    + intros H. by inversion H.
  - split.
    + intros H.
      destruct (py_unpack2 item) as [[x y]|] eqn:Hu; simpl in H; [|discriminate].
      destruct (calculate_absolute_position self x y) as [[a b]|] eqn:Hc;
        simpl in H; [|discriminate].
      destruct (absolute_vertices self items) as [vs|] eqn:Hvs; simpl in H;
        [|discriminate].
      injection H as <-.
      destruct (absolute_position_integral _ _ _ _ _ Hc) as (ax & ay & -> & ->).
      constructor; [|by apply IH].
      by exists x, y, ax, ay.
    + intros H. inversion H as [|? v ? vs (x & y & ax & ay & Hu & Hc & ->) Hrest];
        subst.
      rewrite Hu. simpl. rewrite Hc. simpl.
      apply IH in Hrest. by rewrite Hrest.
Qed.

(** X4: [clean_area] without literal vertices writes one command to
    datapoint 127 exactly when every item of [relative_vertices] unpacks
    to a pair that converts to an absolute position; the vertices of the
    command are then these positions, pairs of integers, one per item
    and in the order of the items (none for an empty or missing list).
    If one item fails, nothing is written. *)
Theorem clean_area_converts_in_order (self : entity) (params : params_arg)
    (now : Z) (items : list pyval) (map_id : pyval) (writes : list write) :
  params_contains params "vertices" = false ->
  params_get params "relative_vertices" (PList []) = Ok (PList items) ->
  params_get params "map_id" (PInt DEFAULT_MAP_ID) = Ok map_id ->
  async_send_command self "clean_area" params now = Ok writes <->
  exists vertices,
    Forall2 (converted_vertex self) items vertices /\
    writes = [SetDp (WBase64Json
                (get_command_params_clean now (PList vertices) map_id)) 127].
Proof.
  intros Hv Hr Hm. dispatch_clean_area. rewrite Hv, Hr, Hm. simpl.
  split.
  - intros H. destruct (absolute_vertices self items) as [vs|] eqn:Hvs;
      simpl in H; [|discriminate].
    injection H as <-. exists vs. split; [|done].
    by apply absolute_vertices_converted.
  - intros (vs & Hall & ->). apply absolute_vertices_converted in Hall.
    by rewrite Hall.
Qed.

(** One relative vertex (0.6, 0.5) under the default geometry: the
    command carries the vertex [1, 0]. *)
Lemma clean_area_converts_in_order_witness :
  async_send_command (sample_entity ∅ None ∅) "clean_area"
    (ParamsDict {[ "relative_vertices" :=
       PList [PList [PFloat float_0_6; PFloat float_0_5]] ]}) 1000
  = Ok [SetDp (WBase64Json
          (get_command_params_clean 1000 (PList [PList [PInt 1; PInt 0]])
             (PInt DEFAULT_MAP_ID))) 127].
Proof.
  apply (clean_area_converts_in_order _ _ 1000
           [PList [PFloat float_0_6; PFloat float_0_5]] (PInt DEFAULT_MAP_ID));
    [reflexivity | reflexivity | reflexivity |].
  exists [PList [PInt 1; PInt 0]]. split; [|reflexivity].
  constructor; [|constructor].
  exists (PFloat float_0_6), (PFloat float_0_5), 1, 0.
  split; [reflexivity|]. split; [vm_compute; reflexivity | reflexivity].
Defined.

(** X5: [clean_area] with a [vertices] parameter writes that value as it
    is, whatever it is: the geometry is not consulted (a scale of zero
    does no harm), [relative_vertices] is ignored, and nothing is
    raised. *)
Theorem clean_area_literal_vertices (self : entity) (d : gmap string pyval)
    (now : Z) (vertices : pyval) :
  d !! "vertices" = Some vertices ->
  async_send_command self "clean_area" (ParamsDict d) now =
    Ok [SetDp (WBase64Json
          (get_command_params_clean now vertices
             (default (PInt DEFAULT_MAP_ID) (d !! "map_id")))) 127].
Proof.
  intros Hv. dispatch_clean_area.
  unfold params_contains, params_item, params_get. rewrite Hv.
  rewrite bool_decide_eq_true_2 by done. reflexivity.
Qed.

(** Literal vertices that are not even a list, next to relative
    vertices, on an entity whose scale is zero. *)
Lemma clean_area_literal_vertices_witness :
  async_send_command
    (positioned (Some (S754_zero false)) None None "W10=") "clean_area"
    (ParamsDict {[ "vertices" := PStr "anything";
                   "relative_vertices" := PList [PList [PInt 1; PInt 2]] ]}) 1000
  = Ok [SetDp (WBase64Json
          (get_command_params_clean 1000 (PStr "anything") (PInt DEFAULT_MAP_ID))) 127].
Proof.
  rewrite (clean_area_literal_vertices _ _ 1000 (PStr "anything")); reflexivity.
Defined.

(** ** Writes and missing datapoints *)

(** X6: no call writes more than once, and a write goes either to
    datapoint 127 (the three cleaning commands) or to a datapoint of the
    configuration: the power datapoint for start, pause and stop, the
    mode datapoint for [set_mode] and return-to-base, the locate
    datapoint for locate and the fan-speed datapoint for set-fan-speed. *)
Theorem calls_write_at_most_once (self : entity) (c : call) (writes : list write) :
  perform self c = Ok writes ->
  writes = [] \/
  exists w, writes = [w] /\
    match c with
    | Start | Pause | Stop => CONF_POWERGO_DP (_config self) = Some (dp_index w)
    | ReturnToBase => CONF_MODE_DP (_config self) = Some (dp_index w)
    | Locate => CONF_LOCATE_DP (_config self) = Some (dp_index w)
    | SetFanSpeed _ => CONF_FAN_SPEED_DP (_config self) = Some (dp_index w)
    | SendCommand command _ _ =>
        (command = "set_mode" /\ CONF_MODE_DP (_config self) = Some (dp_index w)) \/
        (command <> "set_mode" /\ dp_index w = 127)
    | _ => False
    end.
Proof.
  destruct c as [cache status|command params now| | | | | | |fan_speed]; simpl;
    unfold async_start, async_pause, async_stop, async_return_to_base,
      async_clean_spot, async_locate, async_set_fan_speed.
  - intros [= <-]. by left.
  - unfold async_send_command. intros H.
    destruct (String.eqb_spec command "set_mode") as [->|Hn1].
    + destruct (params_contains params "mode"); simpl in H.
      * destruct (params_item params "mode"); simpl in H; [|discriminate].
        destruct (CONF_MODE_DP (_config self)) as [dp|]; simpl in H; [|discriminate].
        injection H as <-. right. eexists. split; [done|]. by left.
      * injection H as <-. by left.
    + rewrite andb_false_l in H.
      repeat match type of H with
      | (?r ≫= _) = Ok _ => destruct r; simpl in H; [|discriminate]
      | (let '(_, _) := ?p in _) = Ok _ => destruct p
      | (if ?b then _ else _) = Ok _ => destruct b
      end;
      injection H as <-; first [ by left | right; eexists; split; [done|]; by right ].
  - destruct (CONF_POWERGO_DP _); simpl; intros [= <-]. right. by eexists.
  - destruct (CONF_POWERGO_DP _); simpl; intros [= <-]. right. by eexists.
  - destruct (CONF_RETURN_MODE _); simpl; [|intros [= <-]; by left].
    destruct (CONF_MODE_DP _); simpl; intros [= <-]. right. by eexists.
  - destruct (CONF_POWERGO_DP _); simpl; intros [= <-]. right. by eexists.
  - intros [= <-]. by left.
  - destruct (CONF_LOCATE_DP _); simpl; intros [= <-]; [|by left]. right. by eexists.
  - destruct (CONF_FAN_SPEED_DP _); simpl; intros [= <-]. right. by eexists.
Qed.

(** Start on the sample entity writes to its power datapoint 2. *)
Lemma calls_write_at_most_once_witness :
  [SetDp (WValue (PBool true)) 2] = [] \/
  exists w, [SetDp (WValue (PBool true)) 2] = [w] /\
    CONF_POWERGO_DP sample_config = Some (dp_index w).
Proof.
  apply (calls_write_at_most_once (sample_entity ∅ None ∅) Start). reflexivity.
Defined.

(** ** Advertised features *)

Lemma land_pow2 (x k : Z) : 0 <= k -> (Z.land x (2 ^ k) =? 2 ^ k) = Z.testbit x k.
Proof.
  intros Hk. destruct (Z.testbit x k) eqn:Hb.
  - apply Z.eqb_eq. apply Z.bits_inj'. intros n Hn.
    rewrite Z.land_spec, Z.pow2_bits_eqb by done.
    destruct (Z.eqb_spec k n) as [->|]; [by rewrite Hb | apply andb_false_r].
  - apply Z.eqb_neq. intros H.
    assert (Z.testbit (Z.land x (2 ^ k)) k = true)
      by (rewrite H, Z.pow2_bits_eqb, Z.eqb_refl by done; done).
    rewrite Z.land_spec, Hb in *. done.
Qed.

Lemma in_features_lor {flags : FeatureFlags} (bit : feature -> Z) f g x :
  (forall f, 0 <= bit f /\ flag f = 2 ^ bit f) ->
  (forall f g, bit f = bit g -> f = g) ->
  in_features f (Z.lor x (flag g)) = in_features f x || bool_decide (f = g).
Proof.
  intros Hbit Hinj. unfold in_features.
  destruct (Hbit f) as [Hf ->]. destruct (Hbit g) as [Hg ->].
  rewrite !land_pow2, Z.lor_spec, Z.pow2_bits_eqb by done.
  f_equal. case_bool_decide as Hfg.
  - subst. apply Z.eqb_refl.
  - apply Z.eqb_neq. intros Heq. apply Hfg. symmetry. by apply Hinj.
Qed.

Lemma in_features_flag {flags : FeatureFlags} (bit : feature -> Z) f g :
  (forall f, 0 <= bit f /\ flag f = 2 ^ bit f) ->
  (forall f g, bit f = bit g -> f = g) ->
  in_features f (flag g) = bool_decide (f = g).
Proof.
  intros Hbit Hinj. unfold in_features.
  destruct (Hbit f) as [Hf ->]. destruct (Hbit g) as [Hg ->].
  rewrite land_pow2, Z.pow2_bits_eqb by done.
  case_bool_decide as Hfg.
  - subst. apply Z.eqb_refl.
  - apply Z.eqb_neq. intros Heq. apply Hfg. symmetry. by apply Hinj.
Qed.

Lemma supported_features_members_aux {flags : FeatureFlags} (self : entity)
    (f : feature) :
  distinct_bits flags ->
  in_features f (supported_features self) =
    match f with
    | RETURN_HOME => has_config (CONF_RETURN_MODE (_config self))
    | FAN_SPEED => has_config (CONF_FAN_SPEED_DP (_config self))
    | BATTERY => has_config (CONF_BATTERY_DP (_config self))
    | LOCATE => has_config (CONF_LOCATE_DP (_config self))
    | _ => true
    end.
Proof.
  intros (bit & Hbit & Hinj). unfold supported_features. cbv zeta.
  destruct (has_config (CONF_RETURN_MODE _)), (has_config (CONF_FAN_SPEED_DP _)),
    (has_config (CONF_BATTERY_DP _)), (has_config (CONF_LOCATE_DP _));
    rewrite !(in_features_lor bit) by done;
    rewrite (in_features_flag bit) by done;
    by destruct f.
Qed.

(** X7: start, pause, stop, status, state and send-command are always
    among the supported features; return-home, fan-speed, battery and
    locate are among them exactly when the return mode, the fan-speed
    datapoint, the battery datapoint and the locate datapoint are
    configured; nothing else is. *)
Theorem supported_features_members {flags : FeatureFlags} (self : entity)
    (f : feature) :
  distinct_bits flags ->
  in_features f (supported_features self) =
    match f with
    | RETURN_HOME => has_config (CONF_RETURN_MODE (_config self))
    | FAN_SPEED => has_config (CONF_FAN_SPEED_DP (_config self))
    | BATTERY => has_config (CONF_BATTERY_DP (_config self))
    | LOCATE => has_config (CONF_LOCATE_DP (_config self))
    | _ => true
    end.
Proof. apply supported_features_members_aux. Qed.

Lemma ha_flags_distinct_bits : distinct_bits ha_flags.
Proof.
  exists (fun f =>
    match f with
    | PAUSE => 2 | STOP => 3 | RETURN_HOME => 4 | FAN_SPEED => 5 | BATTERY => 6
    | STATUS => 7 | SEND_COMMAND => 8 | LOCATE => 9 | STATE => 12 | START => 13
    end).
  split.
  - intros []; split; (lia || reflexivity).
  - intros [] []; (done || discriminate).
Qed.

(** With Home Assistant's values the sample entity, which has a battery
    datapoint, advertises the battery feature. *)
Lemma supported_features_members_witness :
  in_features (flags := ha_flags) BATTERY
    (supported_features (flags := ha_flags) (sample_entity ∅ None ∅)) = true.
Proof.
  rewrite (supported_features_members (flags := ha_flags) _ BATTERY
             ha_flags_distinct_bits).
  reflexivity.
Defined.

(** X8: what is advertised and what the commands do.  Setting the fan
    speed writes the given speed to the fan-speed datapoint when the
    fan-speed feature is advertised and raises [KeyError] when it is
    not.  Locate writes the empty string to the locate datapoint when
    the locate feature is advertised and does nothing otherwise.
    Return-home is advertised on the return mode alone, while the
    command also needs the mode datapoint: advertised without a mode
    datapoint, return-to-base raises [KeyError]. *)
Theorem advertised_features_and_commands {flags : FeatureFlags} (self : entity) :
  distinct_bits flags ->
  let features := supported_features self in
  (in_features FAN_SPEED features = true ->
   exists dp, CONF_FAN_SPEED_DP (_config self) = Some dp /\
     forall fan_speed,
       async_set_fan_speed self fan_speed = Ok [SetDp (WValue fan_speed) dp]) /\
  (in_features FAN_SPEED features = false ->
   forall fan_speed, async_set_fan_speed self fan_speed = Raise KeyError) /\
  (in_features LOCATE features = true ->
   exists dp, CONF_LOCATE_DP (_config self) = Some dp /\
     async_locate self = Ok [SetDp (WValue (PStr EmptyString)) dp]) /\
  (in_features LOCATE features = false -> async_locate self = Ok []) /\
  (in_features RETURN_HOME features = true ->
   CONF_MODE_DP (_config self) = None ->
   async_return_to_base self = Raise KeyError) /\
  (in_features RETURN_HOME features = false -> async_return_to_base self = Ok []).
Proof.
  intros Hbits features. subst features.
  rewrite !supported_features_members_aux by done.
  unfold async_set_fan_speed, async_locate, async_return_to_base.
  destruct (CONF_FAN_SPEED_DP _), (CONF_LOCATE_DP _), (CONF_RETURN_MODE _),
    (CONF_MODE_DP _); simpl; repeat split; try done;
    intros; by eexists.
Qed.

(** The sample configuration has a return mode and no mode datapoint:
    return-home is advertised with Home Assistant's values, and the
    command raises [KeyError]. *)
Lemma advertised_features_and_commands_witness :
  in_features (flags := ha_flags) RETURN_HOME
    (supported_features (flags := ha_flags) (sample_entity ∅ None ∅)) = true /\
  async_return_to_base (sample_entity ∅ None ∅) = Raise KeyError.
Proof.
  split; [reflexivity|].
  apply (advertised_features_and_commands (flags := ha_flags)
           (sample_entity ∅ None ∅) ha_flags_distinct_bits); reflexivity.
Defined.

(** ** [set_mode] and list parameters *)

Ltac dispatch_command :=
  unfold async_send_command;
  repeat match goal with
  | |- context [String.eqb ?a ?b] =>
      let r := eval vm_compute in (String.eqb a b) in
      change (String.eqb a b) with r
  end;
  cbv iota; rewrite ?andb_false_l, ?andb_true_l; cbv iota.

(** X9: [set_mode] passes the [mode] parameter on as it is, whatever its
    value (it is not compared with the configured list of modes): it is
    written to the mode datapoint, and when no mode datapoint is
    configured the command raises [KeyError]. *)
Theorem set_mode_writes_any_mode (self : entity) (d : gmap string pyval)
    (now : Z) (mode : pyval) :
  d !! "mode" = Some mode ->
  async_send_command self "set_mode" (ParamsDict d) now =
    match CONF_MODE_DP (_config self) with
    | Some dp => Ok [SetDp (WValue mode) dp]
    | None => Raise KeyError
    end.
Proof.
  intros Hmode. dispatch_command.
  unfold params_contains, params_item. rewrite Hmode.
  rewrite bool_decide_eq_true_2 by done. cbv iota.
  by destruct (CONF_MODE_DP _).
Qed.

(** A mode that is a number, on the sample entity, which has no mode
    datapoint. *)
Lemma set_mode_writes_any_mode_witness :
  async_send_command (sample_entity ∅ None ∅) "set_mode"
    (ParamsDict {[ "mode" := PInt 7 ]}) 1000 = Raise KeyError.
Proof.
  rewrite (set_mode_writes_any_mode _ _ 1000 (PInt 7)); reflexivity.
Defined.

(** X10: parameters given as a list.  The three cleaning commands call
    [params.get], which a list does not have: [clean_room] and
    [clean_spot] raise [AttributeError], and so does [clean_area] unless
    the list holds the string "vertices", in which case the subscript
    raises [TypeError].  [set_mode] raises [TypeError] when the list
    holds the string "mode" and does nothing otherwise.  Nothing is
    written in any of these cases. *)
Theorem list_params_are_refused (self : entity) (l : list pyval) (now : Z) :
  async_send_command self "clean_room" (ParamsList l) now = Raise AttributeError /\
  async_send_command self "clean_spot" (ParamsList l) now = Raise AttributeError /\
  async_send_command self "clean_area" (ParamsList l) now =
    (if existsb (py_eqb (PStr "vertices")) l then Raise TypeError
     else Raise AttributeError) /\
  async_send_command self "set_mode" (ParamsList l) now =
    (if existsb (py_eqb (PStr "mode")) l then Raise TypeError else Ok []).
Proof.
  repeat split; dispatch_command; try reflexivity.
  unfold params_contains. by destruct (existsb _ l).
Qed.

(** ** Construction *)

(** X11: construction fails only on the origin option: [__init__]
    raises exactly when the origin option is configured and
    [json.loads] raises on it, and with the same exception.  No other
    option is examined: a scale of any value, a rotation outside 0..3
    and an origin that is valid JSON of any shape are accepted. *)
Theorem init_fails_only_on_origin {lib : PyLib} (config_entry : config)
    (switchid : Z) (e : exn) :
  __init__ config_entry switchid = Raise e <->
  exists origin,
    CONF_POSITION_RELATIVE_ORIGIN config_entry = Some origin /\
    json_loads_str origin = Raise e.
Proof.
  unfold __init__.
  destruct (CONF_IDLE_STATUS_VALUE config_entry), (CONF_MODES config_entry),
    (CONF_DOCKED_STATUS_VALUE config_entry), (CONF_FAN_SPEEDS config_entry),
    (CONF_POSITION_RELATIVE_SCALE config_entry),
    (CONF_POSITION_AXIS_ROTATION config_entry),
    (CONF_POSITION_RELATIVE_ORIGIN config_entry) as [origin|]; simpl;
    try (destruct (json_loads_str origin) as [o|e'] eqn:Hparse; simpl);
    split; try discriminate;
    try (intros (? & [= <-] & ?); congruence);
    try (intros (? & [=] & ?));
    try (intros [= <-]; by exists origin).
Qed.

Lemma split_comma_nonempty s : split_comma s <> [].
Proof. destruct s as [|c r]; simpl; [done|]. repeat case_match; done. Qed.

Lemma join_comma_cons p pieces :
  pieces <> [] ->
  join_comma (p :: pieces) = String.append p (String ","%char (join_comma pieces)).
Proof. by destruct pieces. Qed.

(** Joining the pieces of a split with commas gives the string back. *)
Lemma join_split_comma s : join_comma (split_comma s) = s.
Proof.
  induction s as [|c r IH]; [done|]. simpl.
  destruct (Ascii.eqb_spec c ","%char) as [->|Hc].
  - rewrite join_comma_cons by apply split_comma_nonempty. simpl. by rewrite IH.
  - pose proof (split_comma_nonempty r).
    destruct (split_comma r) as [|h t] eqn:Hs; [done|].
    rewrite <- IH. by destruct t.
Qed.

(** No piece of a split has a comma. *)
Lemma split_comma_pieces s p : p ∈ split_comma s -> has_comma p = false.
Proof.
  revert p. induction s as [|c r IH]; intros p; simpl.
  - intros ->%list_elem_of_singleton. done.
  - destruct (Ascii.eqb_spec c ","%char) as [->|Hc].
    + intros [->|Hin]%elem_of_cons; [done | by apply IH].
    + pose proof (split_comma_nonempty r).
      destruct (split_comma r) as [|h t] eqn:Hs; [done|].
      intros [->|Hin]%elem_of_cons.
      * simpl. rewrite (IH h) by (by left).
        destruct (Ascii.eqb_spec c ","%char); done.
      * apply IH. by right.
Qed.

Lemma init_lists {lib : PyLib} config_entry switchid self :
  __init__ config_entry switchid = Ok self ->
  _idle_status_list self =
    match CONF_IDLE_STATUS_VALUE config_entry with
    | Some s => split_comma s | None => [] end /\
  _docked_status_list self =
    match CONF_DOCKED_STATUS_VALUE config_entry with
    | Some s => split_comma s | None => [] end /\
  _modes_list self =
    match CONF_MODES config_entry with
    | Some s => split_comma s | None => [] end /\
  _fan_speed_list self =
    match CONF_FAN_SPEEDS config_entry with
    | Some s => split_comma s | None => [] end.
Proof.
  unfold __init__. intros H.
  destruct (CONF_IDLE_STATUS_VALUE config_entry), (CONF_MODES config_entry),
    (CONF_DOCKED_STATUS_VALUE config_entry), (CONF_FAN_SPEEDS config_entry);
    simpl in H;
    repeat match type of H with
    | (?r ≫= _) = Ok _ => destruct r; simpl in H; [|discriminate]
    end;
    injection H as <-; done.
Qed.

(** X12: the four lists of the entity are the comma splits of their
    options: joining a list with commas gives the option back, so a
    configured list is never empty (an empty option gives the list with
    one empty string) and its entries keep their white space. *)
Theorem init_lists_join_back {lib : PyLib} (config_entry : config)
    (switchid : Z) (self : entity) :
  __init__ config_entry switchid = Ok self ->
  (forall s, CONF_IDLE_STATUS_VALUE config_entry = Some s ->
     join_comma (_idle_status_list self) = s /\ _idle_status_list self <> []) /\
  (forall s, CONF_DOCKED_STATUS_VALUE config_entry = Some s ->
     join_comma (_docked_status_list self) = s /\ _docked_status_list self <> []) /\
  (forall s, CONF_MODES config_entry = Some s ->
     join_comma (_modes_list self) = s /\ _modes_list self <> []) /\
  (forall s, CONF_FAN_SPEEDS config_entry = Some s ->
     join_comma (_fan_speed_list self) = s /\ _fan_speed_list self <> []).
Proof.
  intros Hinit. destruct (init_lists _ _ _ Hinit) as (-> & -> & -> & ->).
  split_and!; intros s ->;
    (split; [apply join_split_comma | apply split_comma_nonempty]).
Qed.

(** The idle list of the sample configuration. *)
Lemma init_lists_join_back_witness :
  exists self,
    __init__ (lib := ref_lib) sample_config 5 = Ok self /\
    join_comma (_idle_status_list self) = "standby,sleep".
Proof.
  eexists. split; [reflexivity|].
  eapply (init_lists_join_back (lib := ref_lib) sample_config 5);
    reflexivity.
Defined.

(** X13: a reported status that contains a comma is never Idle or
    Docked through the lists, whatever options the entity was
    constructed with: the lists are split at every comma. *)
Theorem comma_value_never_idle_or_docked {lib : PyLib} (config_entry : config)
    (switchid : Z) (self0 self : entity) (state_value : string)
    (resolved : vacuum_state) :
  __init__ config_entry switchid = Ok self0 ->
  same_configuration self0 self ->
  has_comma state_value = true ->
  resolve_state self state_value = Ok resolved ->
  resolved <> STATE_IDLE /\ resolved <> STATE_DOCKED.
Proof.
  intros Hinit Hsame Hcomma.
  destruct (init_lists _ _ _ Hinit) as (Hidle & Hdocked & _).
  destruct Hsame as (_ & _ & Hi & _ & Hd & _).
  assert (Hno : forall o : option string,
    state_value ∉ match o with Some s => split_comma s | None => [] end).
  { intros [s|] Hin; [|by apply elem_of_nil in Hin].
    apply split_comma_pieces in Hin. congruence. }
  unfold resolve_state. rewrite Hi, Hd, Hidle, Hdocked.
  rewrite !bool_decide_eq_false_2 by apply Hno.
  intros H.
  repeat match type of H with
  | (?r ≫= _) = Ok _ => destruct r; simpl in H; [|discriminate]
  | (if ?b then _ else _) = Ok _ => destruct b
  end; injection H as <-; done.
Qed.

(** The sample entity and the value "standby,sleep", which is the idle
    option itself: it resolves to Cleaning. *)
Lemma comma_value_never_idle_or_docked_witness :
  exists self,
    __init__ (lib := ref_lib) sample_config 5 = Ok self /\
    resolve_state self "standby,sleep" = Ok STATE_CLEANING /\
    STATE_CLEANING <> STATE_IDLE.
Proof.
  eexists. split; [reflexivity|]. split; [reflexivity|].
  eapply (comma_value_never_idle_or_docked (lib := ref_lib) sample_config 5 _ _
            "standby,sleep" STATE_CLEANING);
    [reflexivity | by repeat split | reflexivity | reflexivity].
Defined.

(** ** Status updates: what they depend on and what they leave alone *)

Lemma resolve_state_setup self self' state_value :
  same_setup self self' ->
  resolve_state self' state_value = resolve_state self state_value.
Proof.
  intros (Hc & _ & _ & Hi & Hd & _). unfold resolve_state.
  by rewrite Hc, Hi, Hd.
Qed.

Lemma state_value_setup self self' :
  same_setup self self' ->
  py_str (dps self' (_dp_id self')) = py_str (dps self (_dp_id self)).
Proof.
  intros (_ & Hs & Hd & _). by rewrite Hd, (dps_eq _ _ _ Hs).
Qed.

(** X14: the state has no memory.  After a successful resolution the
    state depends only on the configuration, the lists and the cached
    datapoint values: not on the state before the update, not on the
    attributes, and not on the datapoints that the update names.  An
    Error state caused by a fault is therefore left as soon as the
    fault datapoint reads zero. *)
Theorem state_has_no_memory {lib : PyLib} (self self' : entity)
    (status status' : gmap string dpval) (resolved : vacuum_state) :
  same_setup self self' ->
  resolve_state self (py_str (dps self (_dp_id self))) = Ok resolved ->
  _state (status_updated self' status').1 = _state (status_updated self status).1.
Proof.
  intros Hsetup Hres.
  rewrite (state_status_updated self status resolved Hres).
  rewrite (state_status_updated self' status' resolved).
  - by rewrite (fault_nonzero_setup _ _ Hsetup).
  - by rewrite (state_value_setup _ _ Hsetup), (resolve_state_setup _ _ _ Hsetup).
Qed.

(** The sample entity in the Error state and in no state, on a cache
    whose fault datapoint is zero. *)
Lemma state_has_no_memory_witness :
  let cache : gmap string dpval := {[ "5" := DStr "charging"; "28" := DInt 0 ]} in
  _state (status_updated (lib := ref_lib)
            (sample_entity cache (Some STATE_ERROR) {[ FAULT := PInt 4 ]})
            {[ "28" := DInt 0 ]}).1 =
  _state (status_updated (lib := ref_lib) (sample_entity cache None ∅) ∅).1.
Proof.
  apply (state_has_no_memory (lib := ref_lib) _ _ _ _ STATE_DOCKED);
    [by repeat split | vm_compute; reflexivity].
Defined.

(** X15: the returning and the paused options are read with a
    subscript, and only when the value is in neither list.  The
    resolution raises exactly when it reaches an option that is not
    configured, the exception is [KeyError], and the update then ends
    before any assignment: the entity is as it was, with its state, its
    battery level and its attributes. *)
Theorem missing_status_option_aborts_update {lib : PyLib} (self : entity)
    (status : gmap string dpval) (e : exn) :
  let state_value := py_str (dps self (_dp_id self)) in
  resolve_state self state_value = Raise e <->
  (e = KeyError /\
  status_updated self status = (self, Raise KeyError) /\
  (state_value ∉ _idle_status_list self) /\
  (state_value ∉ _docked_status_list self) /\
  (CONF_RETURNING_STATUS_VALUE (_config self) = None \/
   exists returning,
     CONF_RETURNING_STATUS_VALUE (_config self) = Some returning /\
     state_value <> returning /\
     CONF_PAUSED_STATE (_config self) = None)).
Proof.
  intros state_value. unfold status_updated. fold state_value.
  unfold resolve_state.
  destruct (bool_decide_reflect (state_value ∈ _idle_status_list self)) as [Hi|Hi].
  { split; [done | by intros (_ & _ & ? & _)]. }
  destruct (bool_decide_reflect (state_value ∈ _docked_status_list self)) as [Hd|Hd].
  { split; [done | by intros (_ & _ & _ & ? & _)]. }
  destruct (CONF_RETURNING_STATUS_VALUE (_config self)) as [returning|]; simpl.
  - destruct (String.eqb_spec state_value returning) as [Heq|Hne].
    { split; [done|]. intros (_ & _ & _ & _ & [?|(r & [= <-] & ? & _)]); done. }
    destruct (CONF_PAUSED_STATE (_config self)) as [paused|]; simpl.
    + split; [by destruct (String.eqb _ _)|].
      intros (_ & _ & _ & _ & [?|(r & _ & _ & ?)]); done.
    + split; [|by intros (-> & _)].
      intros [= <-]. repeat split; try done. right. by exists returning.
  - split; [|by intros (-> & _)].
    intros [= <-]. repeat split; try done. by left.
Qed.

(** An entity with the required options only, on a value that is in
    neither list. *)
Lemma missing_status_option_aborts_update_witness :
  let self := set_status (started required_config []) {[ "5" := DStr "smart" ]} in
  status_updated (lib := ref_lib) self ∅ = (self, Raise KeyError).
Proof.
  intros self.
  destruct (proj1 (missing_status_option_aborts_update (lib := ref_lib) self ∅ KeyError))
    as (_ & H & _); [vm_compute; reflexivity | exact H].
Defined.

(** X16: the position is decoded only from an update that names the
    position datapoint.  With no position datapoint configured, or with
    an update that does not carry it, a status update whose resolution
    succeeds raises nothing and leaves the position and the relative
    position as they were, whatever the cache holds for the
    datapoint. *)
Theorem position_needs_datapoint_in_update {lib : PyLib} (self : entity)
    (status : gmap string dpval) (resolved : vacuum_state) :
  resolve_state self (py_str (dps self (_dp_id self))) = Ok resolved ->
  (CONF_POSITION_BASE64_DP (_config self) = None \/
   status !! str_config_get (CONF_POSITION_BASE64_DP (_config self)) = None) ->
  (status_updated self status).2 = Ok tt /\
  _attrs (status_updated self status).1 !! POSITION = _attrs self !! POSITION /\
  _attrs (status_updated self status).1 !! RELATIVE_POSITION =
    _attrs self !! RELATIVE_POSITION.
Proof.
  intros Hres Hgate. unfold status_updated. rewrite Hres.
  set (self1 := reset_path (_state self) (set_state self (Some resolved))).
  assert (Hsetup : same_setup self (update_attributes self1)).
  { eapply same_setup_trans; [|apply setup_update_attributes].
    unfold self1. setup_chain. }
  assert (Hkeep : forall key, key = POSITION \/ key = RELATIVE_POSITION ->
            _attrs (update_attributes self1) !! key = _attrs self !! key).
  { intros key Hkey. rewrite attrs_update_attributes. cbv zeta.
    unfold self1. rewrite attrs_reset_path, attrs_set_state.
    destruct Hkey as [-> | ->]; decide_keys;
      repeat case_match; try done; by rewrite lookup_insert_ne by key_ne. }
  assert (Hskip : update_position (update_attributes self1) status =
                  (update_attributes self1, Ok tt)).
  { unfold update_position. destruct Hsetup as (-> & _).
    destruct Hgate as [-> | Hmissing]; [done|].
    destruct (has_config _); [|done].
    rewrite bool_decide_eq_false_2; [done|].
    rewrite Hmissing. by intros [? ?]. }
  rewrite Hskip. cbn [fst snd]. split; [done|]. split; apply Hkeep; auto.
Qed.

(** The cache holds a position, and the update names the primary
    datapoint only. *)
Lemma position_needs_datapoint_in_update_witness :
  let self :=
    sample_entity {[ "5" := DStr "smart"; "121" := DStr "eyJkYXRhIjp7InBvc0FycmF5IjpbWzEsMl1dfX0=" ]}
      None ∅ in
  (status_updated (lib := ref_lib) self {[ "5" := DStr "smart" ]}).2 = Ok tt /\
  _attrs (status_updated (lib := ref_lib) self {[ "5" := DStr "smart" ]}).1 !! POSITION
    = None.
Proof.
  intros self.
  destruct (position_needs_datapoint_in_update (lib := ref_lib) self
              {[ "5" := DStr "smart" ]} STATE_CLEANING) as (H1 & H2 & _);
    [vm_compute; reflexivity | right; vm_compute; reflexivity |].
  split; [exact H1 | exact H2].
Defined.

(** ** The position block *)

(** The relative position is computed from the position entry and the
    geometry only. *)
Lemma get_relative_position_frame self self' :
  _attrs self' !! POSITION = _attrs self !! POSITION ->
  _position_relative_scale self' = _position_relative_scale self ->
  _position_relative_origin self' = _position_relative_origin self ->
  _position_axis_rotation self' = _position_axis_rotation self ->
  get_relative_position self' = get_relative_position self.
Proof.
  intros Hp Hs Ho Hr.
  unfold get_relative_position, to_relative_axis, rotate_coordinates.
  by rewrite Hp, Hs, Ho, Hr.
Qed.

Lemma get_relative_position_set_position self self' p :
  same_setup self self' ->
  get_relative_position (set_attr self' POSITION p) =
  get_relative_position (set_attr self POSITION p).
Proof.
  intros (_ & _ & _ & _ & _ & Hs & Ho & Hr).
  apply get_relative_position_frame.
  - unfold set_attr. by rewrite !attrs_set_attrs, !lookup_insert_eq.
  - by destruct self, self'.
  - by destruct self, self'.
  - by destruct self, self'.
Qed.

(** What [decode_position] does with a decoded array of one element. *)
Lemma decode_position_one {lib : PyLib} self position decoded position_array p :
  b64decode position ≫= json_loads = Ok decoded ->
  (py_get decoded "data" (PDict []) ≫= fun data =>
     py_get data "posArray" (PList [])) = Ok position_array ->
  py_len position_array = Ok 1 ->
  py_getitem position_array 0 = Ok p ->
  decode_position self position =
    if negb (py_eqb (default PNone (_attrs self !! POSITION)) p) then
      match get_relative_position (set_attr self POSITION p) with
      | Raise e => (set_attr self POSITION p, Raise e)
      | Ok None => (set_attr self POSITION p, Ok tt)
      | Ok (Some relative_position) =>
          (set_attr (set_attr self POSITION p) RELATIVE_POSITION relative_position,
           Ok tt)
      end
    else (self, Ok tt).
Proof.
  intros Hdecode Hget Hlen Hitem. unfold decode_position.
  rewrite Hdecode, Hget.
  destruct position_array; try discriminate Hlen;
    cbv beta iota; rewrite Hlen; cbv beta iota;
    change (1 =? 1) with true; cbv beta iota; by rewrite Hitem.
Qed.

(** X17: a position that the update carries and that decodes to an
    array of one element, the element being equal to itself (it holds
    no NaN, on which Python's comparison of lists looks at the identity
    of the objects).  When it equals the stored position nothing is
    assigned.  Otherwise it is stored first, and the relative
    position is computed from it afterwards: on success the relative
    position is stored too; when the computation raises, the new
    position stays stored beside the relative position of the position
    before, and the exception is swallowed when it is one of the four
    caught classes and escapes otherwise. *)
Theorem new_position_is_stored_first {lib : PyLib} (self : entity)
    (status : gmap string dpval) (resolved : vacuum_state) (dp : Z)
    (decoded position_array p : pyval) :
  resolve_state self (py_str (dps self (_dp_id self))) = Ok resolved ->
  CONF_POSITION_BASE64_DP (_config self) = Some dp ->
  is_Some (status !! pretty dp) ->
  b64decode (dp_value (dps self dp)) ≫= json_loads = Ok decoded ->
  (py_get decoded "data" (PDict []) ≫= fun data =>
     py_get data "posArray" (PList [])) = Ok position_array ->
  py_len position_array = Ok 1 ->
  py_getitem position_array 0 = Ok p ->
  py_eqb p p = true ->
  let self' := (status_updated self status).1 in
  let raised := (status_updated self status).2 in
  let unchanged key := _attrs self' !! key = _attrs self !! key in
  if py_eqb (default PNone (_attrs self !! POSITION)) p then
    unchanged POSITION /\ unchanged RELATIVE_POSITION /\ raised = Ok tt
  else
    _attrs self' !! POSITION = Some p /\
    match get_relative_position (set_attr self POSITION p) with
    | Ok (Some relative_position) =>
        _attrs self' !! RELATIVE_POSITION = Some relative_position /\
        raised = Ok tt
    | Ok None => unchanged RELATIVE_POSITION /\ raised = Ok tt
    | Raise e =>
        unchanged RELATIVE_POSITION /\
        raised = if position_except e then Ok tt else Raise e
    end.
Proof.
  intros Hres Hdp Hin Hdecode Hget Hlen Hitem _ self' raised unchanged.
  subst self' raised unchanged. cbv beta.
  unfold status_updated. rewrite Hres.
  set (self1 := reset_path (_state self) (set_state self (Some resolved))).
  set (self2 := update_attributes self1).
  assert (Hsetup : same_setup self self2).
  { eapply same_setup_trans; [|apply setup_update_attributes].
    unfold self1. setup_chain. }
  assert (Hkeep : forall key, key = POSITION \/ key = RELATIVE_POSITION ->
            _attrs self2 !! key = _attrs self !! key).
  { intros key Hkey. unfold self2. rewrite attrs_update_attributes. cbv zeta.
    unfold self1. rewrite attrs_reset_path, attrs_set_state.
    destruct Hkey as [-> | ->]; decide_keys;
      repeat case_match; try done; by rewrite lookup_insert_ne by key_ne. }
  pose proof (get_relative_position_set_position self self2 p Hsetup) as Hrel.
  unfold update_position.
  destruct Hsetup as (Hc & Hs & _). rewrite Hc, Hdp.
  unfold has_config, str_config_get.
  rewrite bool_decide_eq_true_2 by done.
  change (dps_conf self2 (Some dp)) with (dps self2 dp).
  rewrite (dps_eq _ _ _ Hs).
  rewrite (decode_position_one self2 _ decoded position_array p Hdecode Hget Hlen Hitem).
  rewrite (Hkeep POSITION) by auto.
  destruct (py_eqb (default PNone (_attrs self !! POSITION)) p); cbv beta iota.
  - change (negb true) with false. cbv iota. cbn [fst snd].
    repeat split; try apply Hkeep; auto.
  - change (negb false) with true. cbv iota. rewrite Hrel.
    destruct (get_relative_position (set_attr self POSITION p)) as [[r|]|e];
      cbv beta iota.
    + cbn [fst snd]. unfold set_attr. rewrite !attrs_set_attrs.
      rewrite lookup_insert_ne by (by compute).
      by rewrite !lookup_insert_eq.
    + cbn [fst snd]. unfold set_attr. rewrite !attrs_set_attrs.
      rewrite lookup_insert_eq, lookup_insert_ne by (by compute).
      repeat split. apply Hkeep; auto.
    + destruct (position_except e); cbn [fst snd];
        unfold set_attr; rewrite !attrs_set_attrs;
        rewrite lookup_insert_eq, lookup_insert_ne by (by compute);
        repeat split; apply Hkeep; auto.
Qed.

(** The sample entity is sent the position [1, 2]: the position and the
    relative position [1, -2] are stored. *)
Lemma new_position_is_stored_first_witness :
  let blob := "eyJkYXRhIjp7InBvc0FycmF5IjpbWzEsMl1dfX0=" in
  let self := sample_entity {[ "5" := DStr "smart"; "121" := DStr blob ]} None ∅ in
  let self' := (status_updated (lib := ref_lib) self {[ "121" := DStr blob ]}).1 in
  _attrs self' !! POSITION = Some (PList [PInt 1; PInt 2]) /\
  _attrs self' !! RELATIVE_POSITION = Some (PList [PInt 1; PInt (-2)]).
Proof.
  intros blob self self'.
  pose proof (new_position_is_stored_first (lib := ref_lib) self
    {[ "121" := DStr blob ]} STATE_CLEANING 121
    (PDict [("data", PDict [("posArray", PList [PList [PInt 1; PInt 2]])])])
    (PList [PList [PInt 1; PInt 2]]) (PList [PInt 1; PInt 2])) as H.
  change (py_eqb (default PNone (_attrs self !! POSITION)) (PList [PInt 1; PInt 2]))
    with false in H.
  change (get_relative_position (set_attr self POSITION (PList [PInt 1; PInt 2])))
    with (Ok (Some (PList [PInt 1; PInt (-2)]))) in H.
  cbv beta zeta iota in H.
  destruct H as (H1 & H2 & _);
    [vm_compute; reflexivity | vm_compute; reflexivity | by eexists
    | vm_compute; reflexivity | vm_compute; reflexivity | vm_compute; reflexivity
    | vm_compute; reflexivity | vm_compute; reflexivity |].
  split; [exact H1 | exact H2].
Defined.

(** ** What a run leaves alone *)

Lemma same_configuration_refl self : same_configuration self self.
Proof. by repeat split. Qed.

Lemma same_configuration_trans a b c :
  same_configuration a b -> same_configuration b c -> same_configuration a c.
Proof. unfold same_configuration. intros. destruct_and!. split_and!; congruence. Qed.

Ltac configuration_by_cases self :=
  repeat case_match; destruct self; repeat split; try done;
  simpl; by rewrite lookup_insert_ne by (by compute).

Lemma configuration_set_state self v : same_configuration self (set_state self v).
Proof. configuration_by_cases self. Qed.

Lemma configuration_set_status self v : same_configuration self (set_status self v).
Proof. configuration_by_cases self. Qed.

Lemma configuration_reset_path prev self :
  same_configuration self (reset_path prev self).
Proof. unfold reset_path. configuration_by_cases self. Qed.

Lemma configuration_update_battery_level self :
  same_configuration self (update_battery_level self).
Proof. unfold update_battery_level. configuration_by_cases self. Qed.

Lemma configuration_update_cleaning_mode self :
  same_configuration self (update_cleaning_mode self).
Proof.
  unfold update_cleaning_mode. destruct self; simpl.
  case_match; repeat split; try done.
  simpl. by rewrite lookup_insert_ne by (by compute).
Qed.

Lemma configuration_update_fan_speed self :
  same_configuration self (update_fan_speed self).
Proof. unfold update_fan_speed. destruct self; simpl. by case_match. Qed.

Lemma configuration_update_clean_attr key conf self :
  key <> MODES_LIST ->
  same_configuration self (update_clean_attr key conf self).
Proof.
  intros Hkey. unfold update_clean_attr.
  case_match; destruct self; repeat split; try done.
  simpl. by rewrite lookup_insert_ne.
Qed.

Lemma configuration_update_fault self : same_configuration self (update_fault self).
Proof.
  unfold update_fault. destruct self; simpl.
  repeat case_match; repeat split; try done;
    simpl; by rewrite lookup_insert_ne by (by compute).
Qed.

Lemma configuration_update_position {lib : PyLib} self status :
  same_configuration self (update_position self status).1.
Proof.
  pose proof (attrs_update_position self status MODES_LIST) as Hattrs.
  destruct (update_position_attrs_only self status) as [a Ha].
  rewrite Ha in *. destruct self; repeat split; try done.
  apply Hattrs; by compute.
Qed.

Lemma configuration_status_updated {lib : PyLib} self status :
  same_configuration self (status_updated self status).1.
Proof.
  unfold status_updated.
  destruct (resolve_state _ _) as [resolved|e]; [|apply same_configuration_refl].
  eapply same_configuration_trans; [|apply configuration_update_position].
  unfold update_attributes. cbv zeta.
  repeat (eapply same_configuration_trans;
    [| first [ apply configuration_update_fault
             | apply configuration_update_clean_attr; by compute
             | apply configuration_update_fan_speed
             | apply configuration_update_cleaning_mode
             | apply configuration_update_battery_level
             | apply configuration_reset_path
             | apply configuration_set_state ] ]).
  apply same_configuration_refl.
Qed.

Lemma configuration_step {lib : PyLib} self c :
  same_configuration self (step self c).
Proof.
  destruct c; try apply same_configuration_refl.
  unfold step.
  eapply same_configuration_trans;
    [apply configuration_set_status | apply configuration_status_updated].
Qed.

Lemma configuration_run {lib : PyLib} self calls :
  same_configuration self (run self calls).
Proof.
  unfold run. revert self. induction calls as [|c calls IH]; intros self; simpl.
  - apply same_configuration_refl.
  - eapply same_configuration_trans; [apply configuration_step | apply IH].
Qed.

(** X18: no status update and no command changes what [__init__] set
    up.  After every sequence of calls the configuration, the primary
    datapoint, the four lists, the scale, the origin, the rotation and
    the list of modes among the attributes are as before it, and so are
    the advertised features. *)
Theorem run_keeps_configuration {lib : PyLib} {flags : FeatureFlags}
    (self : entity) (calls : list call) :
  same_configuration self (run self calls) /\
  supported_features (run self calls) = supported_features self.
Proof.
  pose proof (configuration_run self calls) as H. split; [exact H|].
  destruct H as (Hc & _). unfold supported_features. by rewrite Hc.
Qed.

Lemma calculate_absolute_position_configuration self self' x y :
  same_configuration self self' ->
  calculate_absolute_position self' x y = calculate_absolute_position self x y.
Proof.
  intros (_ & _ & _ & _ & _ & _ & Hs & Ho & Hr & _).
  unfold calculate_absolute_position, to_absolute_axis, rotate_coordinates.
  by rewrite Hs, Ho, Hr.
Qed.

Lemma absolute_vertices_configuration self self' items :
  same_configuration self self' ->
  absolute_vertices self' items = absolute_vertices self items.
Proof.
  intros Hsame. induction items as [|item rest IH]; [done|].
  cbn [absolute_vertices].
  destruct (py_unpack2 item) as [[x y]|]; [|done]. simpl.
  rewrite (calculate_absolute_position_configuration _ _ _ _ Hsame).
  destruct (calculate_absolute_position self x y) as [[ax ay]|]; [|done]. simpl.
  by rewrite IH.
Qed.

Lemma result_bind_ext {A B} (m : result A) (f g : A -> result B) :
  (forall x, f x = g x) -> m ≫= f = m ≫= g.
Proof. intros H. destruct m; simpl; auto. Qed.

Lemma async_send_command_configuration self self' command params now :
  same_configuration self self' ->
  async_send_command self' command params now =
  async_send_command self command params now.
Proof.
  intros Hsame. pose proof Hsame as (Hc & _).
  unfold async_send_command. rewrite Hc.
  destruct (String.eqb command "set_mode" && params_contains params "mode");
    [done|].
  destruct (String.eqb command "clean_room"); [done|].
  destruct (String.eqb command "clean_spot").
  { do 3 (apply result_bind_ext; intros ?).
    by rewrite (calculate_absolute_position_configuration _ _ _ _ Hsame). }
  destruct (String.eqb command "clean_area"); [|done].
  destruct (params_contains params "vertices"); [done|].
  apply (f_equal (fun m => m ≫= _)).
  do 2 (apply result_bind_ext; intros ?).
  by rewrite (absolute_vertices_configuration _ _ _ Hsame).
Qed.

Lemma perform_configuration self self' c :
  same_configuration self self' -> perform self' c = perform self c.
Proof.
  intros Hsame. pose proof Hsame as (Hc & _).
  destruct c as [cache status|command params now| | | | | | |fan_speed];
    cbn [perform]; try done;
    unfold async_start, async_pause, async_return_to_base, async_stop,
      async_locate, async_set_fan_speed; rewrite ?Hc; try done.
  by apply async_send_command_configuration.
Qed.

(** X19: what a command writes does not depend on anything a status
    update assigns.  After every sequence of status updates and
    commands each call writes what it would have written on the entity
    as constructed, or raises the same exception: no command looks at
    the state, the battery level, the position or any other
    attribute. *)
Theorem commands_ignore_updates {lib : PyLib} (self : entity)
    (calls : list call) (c : call) :
  perform (run self calls) c = perform self c.
Proof. apply perform_configuration, configuration_run. Qed.

(** ** Repeated updates *)

(** [decode_position] is [decoded_element] followed by
    [store_position]. *)
Lemma decode_position_parts {lib : PyLib} self position :
  decode_position self position =
    match decoded_element position with
    | Raise e => (self, Raise e)
    | Ok None => (self, Ok tt)
    | Ok (Some new_position) => store_position self new_position
    end.
Proof.
  unfold decode_position, decoded_element, store_position.
  destruct (b64decode position ≫= json_loads) as [decoded|]; [|done].
  cbn [mbind result_bind].
  destruct (py_get decoded "data" (PDict []) ≫= _) as [position_array|]; [|done].
  cbn [mbind result_bind].
  destruct position_array; try done;
    (destruct (py_len _) as [n|]; [|done]; cbn [mbind result_bind];
     destruct (n =? 1); [|done];
     destruct (py_getitem _ 0) as [p|]; done).
Qed.

Lemma set_attr_id self key v :
  _attrs self !! key = Some v -> set_attr self key v = self.
Proof.
  intros H. unfold set_attr. rewrite (insert_id _ _ _ H). apply set_attrs_id.
Qed.

Lemma attrs_set_attr self key v :
  _attrs (set_attr self key v) = <[key := v]> (_attrs self).
Proof. unfold set_attr. apply attrs_set_attrs. Qed.

Lemma setup_set_attr self key v : same_setup self (set_attr self key v).
Proof. apply setup_set_attrs. Qed.

Lemma get_relative_position_other_key self key v :
  key <> POSITION ->
  get_relative_position (set_attr self key v) = get_relative_position self.
Proof.
  intros Hkey. apply get_relative_position_frame.
  - rewrite attrs_set_attr. by rewrite lookup_insert_ne.
  - by destruct self.
  - by destruct self.
  - by destruct self.
Qed.

(** Storing the same position again changes nothing. *)
Lemma store_position_idempotent self p :
  (store_position (store_position self p).1 p).1 = (store_position self p).1.
Proof.
  unfold store_position at 2 3.
  destruct (negb (py_eqb (default PNone (_attrs self !! POSITION)) p)) eqn:Hne;
    cbv zeta iota; cycle 1.
  { cbn [fst]. unfold store_position. rewrite Hne. done. }
  set (self1 := set_attr self POSITION p).
  assert (Hp1 : _attrs self1 !! POSITION = Some p)
    by (unfold self1; by rewrite attrs_set_attr, lookup_insert_eq).
  assert (Hagain : forall self2 : entity,
    _attrs self2 !! POSITION = Some p ->
    get_relative_position self2 = get_relative_position self1 ->
    (forall r, get_relative_position self1 = Ok (Some r) ->
               _attrs self2 !! RELATIVE_POSITION = Some r) ->
    (store_position self2 p).1 = self2).
  { intros self2 Hp2 Hrel Hr. unfold store_position. rewrite Hp2.
    destruct (py_eqb (default PNone (Some p)) p); cbn [negb]; [done|]. cbv zeta.
    rewrite (set_attr_id self2 POSITION p Hp2), Hrel.
    destruct (get_relative_position self1) as [[r|]|e]; try done.
    cbn [fst]. apply set_attr_id. by apply Hr. }
  destruct (get_relative_position self1) as [[r|]|e] eqn:Hrel; cbn [fst].
  - apply Hagain.
    + rewrite attrs_set_attr. by rewrite lookup_insert_ne by (by compute).
    + rewrite get_relative_position_other_key by (by compute). done.
    + intros r' [= <-]. by rewrite attrs_set_attr, lookup_insert_eq.
  - apply Hagain; [done | done | by intros r [=]].
  - apply Hagain; [done | done | by intros r [=]].
Qed.

(** The entity after the position block. *)
Lemma update_position_entity {lib : PyLib} self status :
  (update_position self status).1 =
    if has_config (CONF_POSITION_BASE64_DP (_config self))
       && bool_decide (is_Some (status !! str_config_get
                                  (CONF_POSITION_BASE64_DP (_config self))))
    then
      match decoded_element
              (dp_value (dps_conf self (CONF_POSITION_BASE64_DP (_config self)))) with
      | Ok (Some new_position) => (store_position self new_position).1
      | _ => self
      end
    else self.
Proof.
  unfold update_position.
  destruct (has_config _); [|done]. cbn [andb].
  case_bool_decide; [|done].
  rewrite decode_position_parts.
  destruct (decoded_element _) as [[p|]|e]; cbn [fst]; try done.
  - destruct (store_position self p) as [self' [[]|e]]; cbn [fst]; try done.
    by destruct (position_except e).
  - by destruct (position_except e).
Qed.

Lemma setup_store_position self p : same_setup self (store_position self p).1.
Proof.
  unfold store_position. destruct (negb _); [|apply same_setup_refl].
  cbv zeta. destruct (get_relative_position _) as [[r|]|e]; cbn [fst].
  - eapply same_setup_trans; apply setup_set_attr.
  - apply setup_set_attr.
  - apply setup_set_attr.
Qed.

Lemma setup_update_position {lib : PyLib} self status :
  same_setup self (update_position self status).1.
Proof.
  destruct (update_position_attrs_only self status) as [a ->].
  apply setup_set_attrs.
Qed.

Lemma setup_status_updated {lib : PyLib} self status :
  same_setup self (status_updated self status).1.
Proof.
  unfold status_updated.
  destruct (resolve_state _ _) as [resolved|e]; [|apply same_setup_refl].
  eapply same_setup_trans; [|apply setup_update_position].
  eapply same_setup_trans; [|apply setup_update_attributes].
  setup_chain.
Qed.

(** The position block, run again on its own result, changes nothing. *)
Lemma update_position_idempotent {lib : PyLib} self status :
  (update_position (update_position self status).1 status).1 =
  (update_position self status).1.
Proof.
  pose proof (setup_update_position self status) as (Hc & Hs & _).
  rewrite (update_position_entity (update_position self status).1).
  rewrite Hc, (dps_conf_eq _ _ _ Hs).
  rewrite (update_position_entity self status).
  destruct (has_config _ && bool_decide _); [|done].
  destruct (decoded_element _) as [[p|]|e]; try done.
  apply store_position_idempotent.
Qed.

(** On the two position entries the position block looks at nothing
    but the set-up and these two entries. *)
Lemma store_position_frame self self' p key :
  same_setup self self' ->
  _attrs self' !! POSITION = _attrs self !! POSITION ->
  _attrs self' !! RELATIVE_POSITION = _attrs self !! RELATIVE_POSITION ->
  key = POSITION \/ key = RELATIVE_POSITION ->
  _attrs (store_position self' p).1 !! key = _attrs (store_position self p).1 !! key.
Proof.
  intros Hsetup Hp Hr Hkey. unfold store_position. rewrite Hp.
  destruct (negb _); cbv zeta; cycle 1.
  { cbn [fst]. by destruct Hkey as [-> | ->]. }
  rewrite (get_relative_position_set_position self self' p Hsetup).
  destruct (get_relative_position _) as [[r|]|e]; cbn [fst];
    rewrite !attrs_set_attr;
    destruct Hkey as [-> | ->];
    repeat first [ rewrite lookup_insert_eq
                 | rewrite lookup_insert_ne by (by compute) ];
    done.
Qed.

Lemma update_position_frame {lib : PyLib} self self' status key :
  same_setup self self' ->
  _attrs self' !! POSITION = _attrs self !! POSITION ->
  _attrs self' !! RELATIVE_POSITION = _attrs self !! RELATIVE_POSITION ->
  key = POSITION \/ key = RELATIVE_POSITION ->
  _attrs (update_position self' status).1 !! key =
  _attrs (update_position self status).1 !! key.
Proof.
  intros Hsetup Hp Hr Hkey. rewrite !update_position_entity.
  pose proof Hsetup as (Hc & Hs & _). rewrite Hc, (dps_conf_eq _ _ _ Hs).
  destruct (has_config _ && bool_decide _); [|by destruct Hkey as [-> | ->]].
  destruct (decoded_element _) as [[p|]|e]; try (by destruct Hkey as [-> | ->]).
  by apply store_position_frame.
Qed.

Lemma entity_ext (self self' : entity) :
  same_configuration self self' ->
  _status self' = _status self ->
  _state self' = _state self ->
  _battery_level self' = _battery_level self ->
  _fan_speed self' = _fan_speed self ->
  _cleaning_mode self' = _cleaning_mode self ->
  _attrs self' = _attrs self ->
  self' = self.
Proof.
  destruct self, self'. unfold same_configuration. simpl.
  intros (-> & -> & -> & -> & -> & -> & -> & -> & -> & _).
  by intros -> -> -> -> -> ->.
Qed.

Lemma position_entries_before_block self prev v key :
  key = POSITION \/ key = RELATIVE_POSITION ->
  _attrs (update_attributes (reset_path prev (set_state self v))) !! key =
  _attrs self !! key.
Proof.
  intros Hkey. rewrite attrs_update_attributes. cbv zeta.
  rewrite attrs_reset_path, attrs_set_state.
  destruct Hkey as [-> | ->]; decide_keys;
    repeat case_match; try done; by rewrite lookup_insert_ne by key_ne.
Qed.

(** A status update, run again on its own result, changes nothing. *)
Lemma status_updated_idempotent {lib : PyLib} self status :
  (status_updated (status_updated self status).1 status).1 =
  (status_updated self status).1.
Proof.
  set (self1 := (status_updated self status).1).
  pose proof (setup_status_updated self status) as Hsetup. fold self1 in Hsetup.
  destruct (resolve_state self (py_str (dps self (_dp_id self))))
    as [resolved|e] eqn:Hres; cycle 1.
  { assert (self1 = self) as ->
      by (unfold self1, status_updated; by rewrite Hres).
    unfold status_updated. by rewrite Hres. }
  assert (Hres1 : resolve_state self1 (py_str (dps self1 (_dp_id self1))) = Ok resolved)
    by (by rewrite (state_value_setup _ _ Hsetup), (resolve_state_setup _ _ _ Hsetup)).
  pose proof (state_status_updated self status resolved Hres) as Hstate.
  fold self1 in Hstate.
  destruct (derived_status_updated self status resolved Hres) as (Hb & Hm & Hf & Ha).
  fold self1 in Hb, Hm, Hf, Ha.
  destruct (derived_status_updated self1 status resolved Hres1) as (Hb1 & Hm1 & Hf1 & Ha1).
  pose proof Hsetup as (Hc & Hs & _).
  assert (Hd : forall o, dps_conf self1 o = dps_conf self o)
    by (intros o; by apply dps_conf_eq).
  rewrite Hc, ?Hd in Hb1, Hm1, Hf1.
  apply entity_ext.
  - apply configuration_status_updated.
  - by destruct (setup_status_updated self1 status) as (_ & ? & _).
  - rewrite (state_status_updated self1 status resolved Hres1), Hstate.
    by rewrite (fault_nonzero_setup _ _ Hsetup).
  - rewrite Hb1, Hb. by destruct (has_config _).
  - by rewrite Hf1, Hf.
  - by rewrite Hm1, Hm.
  - apply map_eq. intros key.
    destruct (decide (key = POSITION \/ key = RELATIVE_POSITION)) as [Hkey|Hkey].
    + unfold status_updated at 1. rewrite Hres1.
      rewrite (update_position_frame self1 _ status key); try done.
      * assert (self1 =
          (update_position (update_attributes
             (reset_path (_state self) (set_state self (Some resolved)))) status).1)
          as -> by (unfold self1, status_updated; by rewrite Hres).
        by rewrite update_position_idempotent.
      * eapply same_setup_trans; [|apply setup_update_attributes]. setup_chain.
      * apply position_entries_before_block. by left.
      * apply position_entries_before_block. by right.
    + destruct (decide (key = PATH)) as [->|Hpath].
      * rewrite (path_status_updated self1 status resolved Hres1), Hstate.
        destruct (fault_nonzero self);
          destruct (bool_decide_reflect (resolved = STATE_DOCKED)) as [->|Hdock];
          try done; cbn [negb]; rewrite ?andb_true_r, ?andb_false_r;
          try done; rewrite bool_decide_eq_false_2; try done; congruence.
      * rewrite Ha1 by tauto. rewrite attrs_update_attributes. cbv zeta.
        rewrite Hc, ?Hd.
        rewrite Ha by tauto. rewrite attrs_update_attributes. cbv zeta.
        repeat (case_match; try done).
Qed.

(** X20: a repeated call changes nothing.  When the host delivers the
    same call twice in a row, the entity after the second delivery is
    the entity after the first, field by field: the state, the battery
    level, the fan speed, the cleaning mode and every attribute, also
    when the update raised. *)
Theorem repeated_call_changes_nothing {lib : PyLib} (self : entity) (c : call) :
  step (step self c) c = step self c.
Proof.
  destruct c as [cache status| | | | | | | |]; try done.
  cbn [step].
  set (self0 := set_status self cache).
  assert (Hcache : set_status (status_updated self0 status).1 cache =
                   (status_updated self0 status).1).
  { destruct (setup_status_updated self0 status) as (_ & Hs & _).
    assert (_status self0 = cache) by (unfold self0; by destruct self).
    destruct (status_updated self0 status).1. simpl in *. congruence. }
  rewrite Hcache. apply status_updated_idempotent.
Qed.

(** ** The square of [clean_spot] *)

Lemma truediv_is_float a b v : py_truediv a b = Ok v -> exists f, v = PFloat f.
Proof.
  unfold py_truediv, num_truediv. intros H.
  destruct (as_num a) as [[x|f]|], (as_num b) as [[y|g]|]; try discriminate;
    repeat match type of H with
    | (?r ≫= _) = Ok _ => destruct r; simpl in H; [|discriminate]
    | (if ?c then _ else _) = Ok _ => destruct c; [discriminate|]
    | match ?f with _ => _ end = Ok _ => destruct f; try discriminate
    end;
    injection H as <-; by eexists.
Qed.

Lemma half_size_off_sub (a : Z) (size : pyval) (half : spec_float) :
  py_truediv size (PInt 2) = Ok (PFloat half) ->
  half_size_off py_sub (PInt a) size =
    (c ← to_float (NInt a); Ok (PFloat (F64.sub c half))).
Proof. intros H. unfold half_size_off. by rewrite H. Qed.

Lemma half_size_off_add (a : Z) (size : pyval) (half : spec_float) :
  py_truediv size (PInt 2) = Ok (PFloat half) ->
  half_size_off py_add (PInt a) size =
    (c ← to_float (NInt a); Ok (PFloat (F64.add c half))).
Proof. intros H. unfold half_size_off. by rewrite H. Qed.

(** X21: the square of [clean_spot].  The command writes exactly when
    the four parameters can be read (a list has no [get]), the centre
    converts to an absolute position, [size / 2] can be computed and the
    two coordinates of the centre convert to floats.  The centre is
    then a pair of integers, the eight coordinates of the corners are
    floats (the centre minus or plus half the size), and the corners
    are sent in the order (-, -), (-, +), (+, +), (+, -) of these
    signs, in one write to datapoint 127. *)
Theorem clean_spot_square (self : entity) (params : params_arg) (now : Z)
    (writes : list write) :
  async_send_command self "clean_spot" params now = Ok writes <->
  exists (x y size map_id : pyval) (ax ay : Z) (cx cy half : spec_float),
    params_get params "x" (PFloat float_0_5) = Ok x /\
    params_get params "y" (PFloat float_0_5) = Ok y /\
    params_get params "size" (PInt 300) = Ok size /\
    params_get params "map_id" (PInt DEFAULT_MAP_ID) = Ok map_id /\
    calculate_absolute_position self x y = Ok (PInt ax, PInt ay) /\
    py_truediv size (PInt 2) = Ok (PFloat half) /\
    to_float (NInt ax) = Ok cx /\
    to_float (NInt ay) = Ok cy /\
    writes =
      [SetDp (WBase64Json (get_command_params_clean now
         (PList [PList [PFloat (F64.sub cx half); PFloat (F64.sub cy half)];
                 PList [PFloat (F64.sub cx half); PFloat (F64.add cy half)];
                 PList [PFloat (F64.add cx half); PFloat (F64.add cy half)];
                 PList [PFloat (F64.add cx half); PFloat (F64.sub cy half)]])
         map_id)) 127].
Proof.
  dispatch_command. fold float_0_5. split.
  - intros H.
    destruct (params_get params "x" _) as [x|]; [|discriminate].
    destruct (params_get params "y" _) as [y|]; [|discriminate].
    destruct (params_get params "size" _) as [size|]; [|discriminate].
    cbn [mbind result_bind] in H.
    destruct (calculate_absolute_position self x y) as [[a b]|] eqn:Hc;
      [|discriminate].
    destruct (absolute_position_integral _ _ _ _ _ Hc) as (ax & ay & -> & ->).
    cbn [mbind result_bind] in H.
    destruct (params_get params "map_id" _) as [map_id|]; [|discriminate].
    cbn [mbind result_bind] in H.
    destruct (py_truediv size (PInt 2)) as [h|] eqn:Hh; cycle 1.
    { unfold half_size_off in H. by rewrite Hh in H. }
    destruct (truediv_is_float _ _ _ Hh) as [half ->].
    rewrite !(half_size_off_sub _ _ _ Hh), !(half_size_off_add _ _ _ Hh) in H.
    destruct (to_float (NInt ax)) as [cx|] eqn:Hx; [|discriminate].
    destruct (to_float (NInt ay)) as [cy|] eqn:Hy; [|discriminate].
    cbn [mbind result_bind] in H. injection H as <-.
    by exists x, y, size, map_id, ax, ay, cx, cy, half.
  - intros (x & y & size & map_id & ax & ay & cx & cy & half &
            -> & -> & -> & -> & Hc & Hh & Hx & Hy & ->).
    cbn [mbind result_bind]. rewrite Hc. cbn [mbind result_bind].
    rewrite !(half_size_off_sub _ _ _ Hh), !(half_size_off_add _ _ _ Hh).
    by rewrite Hx, Hy.
Qed.

(** The default square on the sample entity: the centre (0.5, 0.5)
    converts to (0, 0) and half of 300 is 150.0. *)
Lemma clean_spot_square_witness :
  exists f : spec_float,
    F64.eqb_Z f 150 = true /\
    async_send_command (sample_entity ∅ None ∅) "clean_spot" ParamsNone 1000 =
      Ok [SetDp (WBase64Json (get_command_params_clean 1000
            (PList [PList [PFloat (F64.opp f); PFloat (F64.opp f)];
                    PList [PFloat (F64.opp f); PFloat f];
                    PList [PFloat f; PFloat f];
                    PList [PFloat f; PFloat (F64.opp f)]])
            (PInt DEFAULT_MAP_ID))) 127].
Proof.
  exists (F64.of_Z 150). split; [vm_compute; reflexivity|].
  apply (proj2 (clean_spot_square (sample_entity ∅ None ∅) ParamsNone 1000 _)).
  exists (PFloat float_0_5), (PFloat float_0_5), (PInt 300), (PInt DEFAULT_MAP_ID),
    0, 0, (F64.of_Z 0), (F64.of_Z 0), (F64.of_Z 150).
  repeat (split; [vm_compute; reflexivity|]). vm_compute; reflexivity.
Defined.
